(** * thinc.ml.learner: the sparse averaged linear model

    A shallow embedding of [thinc/ml/learner.pyx]: the weight-row helpers,
    the lazy averaging of weights, scoring (gather and accumulate), the
    training entry point [update], [end_training], the text serialisation
    ([dump] and [load]) and the bounded [ScoresCache].

    Conventions.
    - Class, template, row and column indices are [nat]; weights, totals,
      counts and times are [Z]; feature ids ([feat_t], an unsigned 64-bit
      integer) are [N].
    - The typedefs [weight_t], [class_t], [count_t], [time_t] and the
      structs live in [learner.pxd]; weights are integers here, as [dump]
      ('%d') and [load] ([atoi]) treat them.  Values are taken to fit their
      C types: overflow is not modelled.
    - C arrays are lists; a NULL pointer is [None].  An access outside an
      array, or through NULL, is undefined behaviour in C and is the
      [MemoryFault] outcome here.
    - The arena [Pool] holds the arrays of row pointers; the array of weight
      rows of a feature is shared between the inference map and the
      training map.  An address is an index into the arena. *)

From Stdlib Require Import ZArith NArith List String Ascii Lia.
From Stdlib Require Import DecimalString DecimalZ DecimalN DecimalNat.
From stdpp Require Import base option list gmap.

Local Open Scope nat_scope.

(** ** Outcomes of effectful code *)

Inductive exn : Type :=
| AssertionError
| MemoryFault.

Inductive outcome (A : Type) : Type :=
| Return (a : A)
| Raise (e : exn).
Arguments Return {A} a.
Arguments Raise {A} e.

(** State passing with exceptions: the state reached is kept when an
    exception is raised, as a Python object keeps its mutations. *)
Definition M (S A : Type) : Type := S -> outcome A * S.

Definition ret {S A} (a : A) : M S A := fun s => (Return a, s).
Definition raise {S A} (e : exn) : M S A := fun s => (Raise e, s).
Definition bind {S A B} (c : M S A) (k : A -> M S B) : M S B :=
  fun s => match c s with
           | (Return a, s') => k a s'
           | (Raise e, s') => (Raise e, s')
           end.
Definition get {S} : M S S := fun s => (Return s, s).
Definition put {S} (s : S) : M S unit := fun _ => (Return tt, s).

Notation "x <- c ;; k" := (bind c (fun x => k))
  (at level 90, c at level 80, right associativity).
Notation "c ;;; k" := (bind c (fun _ => k))
  (at level 90, right associativity).

(** [for x in xs: body x] *)
Fixpoint for_each {S A} (xs : list A) (body : A -> M S unit) : M S unit :=
  match xs with
  | [] => ret tt
  | x :: xs' => body x ;;; for_each xs' body
  end.

(** A C pointer that may be NULL or out of the array. *)
Definition deref {S A} (o : option A) : M S A :=
  match o with
  | Some a => ret a
  | None => raise MemoryFault
  end.

(** ** Rows of weights *)

Definition LINE_SIZE : nat := 7.

Definition get_row (clas : nat) : nat := clas / LINE_SIZE.

Definition get_col (clas : nat) : nat := clas mod LINE_SIZE.

Definition get_nr_rows (n : nat) : nat :=
  let nr_lines := get_row n in
  if (nr_lines =? 0) || (nr_lines * LINE_SIZE <? n)
  then nr_lines + 1
  else nr_lines.

Module MetaData.
Record t : Type := mk { total : Z; count : Z; time : Z }.
Definition zero : t := mk 0 0 0.
End MetaData.

(** [weight_t*]: one row of [LINE_SIZE] weights. *)
Abbreviation weight_line_t := (list Z).

(** [weight_t**]: the row pointers of one feature. *)
Abbreviation weight_rows := (list (option (list Z))).

Module WeightLine.
Record t : Type := mk { start : nat; line : weight_line_t }.
Definition zero : t := mk 0 (replicate LINE_SIZE 0%Z).
End WeightLine.

(** [MetaData**]: the metadata row pointers of one feature. *)
Abbreviation meta_rows := (list (option (list MetaData.t))).

(** The arena of the model.  [Pool.alloc] returns zeroed memory: a fresh
    array of row pointers holds NULLs, a fresh row holds zeros.  The arrays
    of weight rows and of metadata rows are kept apart; an address is an
    index into its list. *)
Module Pool.
Record t : Type := mk {
  weight_arrays : list weight_rows;
  meta_arrays : list meta_rows
}.
Definition empty : t := mk [] [].

Definition alloc_weights (mem : t) (nr_lines : nat) : nat * t :=
  (length (weight_arrays mem),
   mk (weight_arrays mem ++ [replicate nr_lines None]) (meta_arrays mem)).

Definition alloc_meta (mem : t) (nr_lines : nat) : nat * t :=
  (length (meta_arrays mem),
   mk (weight_arrays mem) (meta_arrays mem ++ [replicate nr_lines None])).

Definition set_weights (a : nat) (rows : weight_rows) (mem : t) : t :=
  mk (<[a := rows]> (weight_arrays mem)) (meta_arrays mem).

Definition set_meta (a : nat) (rows : meta_rows) (mem : t) : t :=
  mk (weight_arrays mem) (<[a := rows]> (meta_arrays mem)).
End Pool.

Module TrainFeat.
Record t : Type := mk {
  weights : nat;   (* weight_t**: address of the weight row pointers *)
  meta : nat       (* MetaData**: address of the metadata row pointers *)
}.
End TrainFeat.

Definition new_train_feat (mem : Pool.t) (nr_class : nat) : TrainFeat.t * Pool.t :=
  let nr_lines := get_nr_rows nr_class in
  let '(w, mem) := Pool.alloc_weights mem nr_lines in
  let '(m, mem) := Pool.alloc_meta mem nr_lines in
  (TrainFeat.mk w m, mem).

(** [p[row][col]] for an array of row pointers. *)
Definition cell {A} (rows : list (option (list A))) (row col : nat) : option A :=
  r ← rows !! row; l ← r; l !! col.

(** [p[row][col] = x]; [None] where the C code would fault. *)
Definition set_cell {A} (rows : list (option (list A))) (row col : nat) (x : A)
  : option (list (option (list A))) :=
  r ← rows !! row; l ← r;
  if decide (col < length l) then Some (<[row := Some (<[col := x]> l)]> rows)
  else None.

(** [for x in xs: total = body x total], with faults. *)
Fixpoint sum_over {A} (xs : list A) (body : A -> Z -> option Z) (total : Z)
  : option Z :=
  match xs with
  | [] => Some total
  | x :: xs' => total' ← body x total; sum_over xs' body total'
  end.

Definition get_total_count (mem : Pool.t) (feat : TrainFeat.t) (n : nat) : option Z :=
  let nr_rows := get_nr_rows n in
  meta ← Pool.meta_arrays mem !! TrainFeat.meta feat;
  sum_over (seq 0 nr_rows)
    (fun row total =>
       r ← meta !! row;
       match r with
       | None => Some total
       | Some l =>
           sum_over (seq 0 LINE_SIZE)
             (fun col total => md ← l !! col; Some (total + MetaData.count md)%Z)
             total
       end) 0%Z.

Definition update_weight (feat : TrainFeat.t) (clas : nat) (inc : Z) : M Pool.t unit :=
  let row := get_row clas in
  let col := get_col clas in
  mem <- get;;
  rows <- deref (Pool.weight_arrays mem !! TrainFeat.weights feat);;
  w <- deref (cell rows row col);;
  rows' <- deref (set_cell rows row col (w + inc)%Z);;
  put (Pool.set_weights (TrainFeat.weights feat) rows' mem).

Definition update_accumulator (feat : TrainFeat.t) (clas : nat) (time : Z)
  : M Pool.t unit :=
  let row := get_row clas in
  let col := get_col clas in
  mem <- get;;
  rows <- deref (Pool.weight_arrays mem !! TrainFeat.weights feat);;
  weight <- deref (cell rows row col);;
  meta <- deref (Pool.meta_arrays mem !! TrainFeat.meta feat);;
  md <- deref (cell meta row col);;
  let unchanged := (time - MetaData.time md)%Z in
  let md' := MetaData.mk (MetaData.total md + unchanged * weight)%Z
                         (MetaData.count md) time in
  meta' <- deref (set_cell meta row col md');;
  put (Pool.set_meta (TrainFeat.meta feat) meta' mem).

Definition update_count (feat : TrainFeat.t) (clas : nat) (inc : Z) : M Pool.t unit :=
  let row := get_row clas in
  let col := get_col clas in
  mem <- get;;
  meta <- deref (Pool.meta_arrays mem !! TrainFeat.meta feat);;
  md <- deref (cell meta row col);;
  let md' := MetaData.mk (MetaData.total md) (MetaData.count md + inc)%Z
                         (MetaData.time md) in
  meta' <- deref (set_cell meta row col md');;
  put (Pool.set_meta (TrainFeat.meta feat) meta' mem).

(** [scores[i] += v] *)
Definition add_at (scores : list Z) (i : nat) (v : Z) : option (list Z) :=
  x ← scores !! i; Some (<[i := (x + v)%Z]> scores).

(** [scores[start + col] += line[col]] *)
Definition add_col (start : nat) (line : weight_line_t) (scores : list Z) (col : nat)
  : option (list Z) :=
  v ← line !! col; add_at scores (start + col) v.

(** A loop over [cols] of [scores[start + col] += line[col]]. *)
Definition add_cols (start : nat) (line : weight_line_t) (cols : list nat)
    (scores : list Z) : option (list Z) :=
  foldl (fun acc col => scores ← acc; add_col start line scores col) (Some scores) cols.

(** The scores are zeroed, then every gathered line is added at its start
    class: all [LINE_SIZE] columns when the line ends before [nr_class], and
    [nr_class - start] columns otherwise.  ([nr_class - start] is never
    negative for the lines [gather_weights] produces.) *)
Definition set_scores (scores : list Z) (weight_lines : list WeightLine.t)
    (nr_rows nr_class : nat) : option (list Z) :=
  scores ← (if decide (nr_class ≤ length scores)
            then Some (replicate nr_class 0%Z ++ drop nr_class scores)
            else None);
  foldl (fun acc row =>
           scores ← acc;
           wl ← weight_lines !! row;
           let start := WeightLine.start wl in
           if start + LINE_SIZE <? nr_class
           then add_cols start (WeightLine.line wl) [0; 1; 2; 3; 4; 5; 6] scores
           else add_cols start (WeightLine.line wl) (seq 0 (nr_class - start)) scores)
        (Some scores) (seq 0 nr_rows).

(** One cell of [average_weight]: the total is fast-forwarded through
    [time] and replaces the weight. *)
Definition average_cell (feat : TrainFeat.t) (time : Z) (row col : nat)
  : M Pool.t unit :=
  mem <- get;;
  rows <- deref (Pool.weight_arrays mem !! TrainFeat.weights feat);;
  meta <- deref (Pool.meta_arrays mem !! TrainFeat.meta feat);;
  md <- deref (cell meta row col);;
  w <- deref (cell rows row col);;
  let unchanged := ((time + 1) - MetaData.time md)%Z in
  let md' := MetaData.mk (MetaData.total md + unchanged * w)%Z
                         (MetaData.count md) (MetaData.time md) in
  meta' <- deref (set_cell meta row col md');;
  rows' <- deref (set_cell rows row col (MetaData.total md'));;
  put (Pool.set_meta (TrainFeat.meta feat) meta'
         (Pool.set_weights (TrainFeat.weights feat) rows' mem)).

Definition average_weight (feat : TrainFeat.t) (nr_class : nat) (time : Z)
  : M Pool.t unit :=
  for_each (seq 0 (get_nr_rows nr_class)) (fun row =>
    mem <- get;;
    rows <- deref (Pool.weight_arrays mem !! TrainFeat.weights feat);;
    r <- deref (rows !! row);;
    match r with
    | None => ret tt
    | Some _ => for_each (seq 0 LINE_SIZE) (average_cell feat time row)
    end).

(** ** The score cache *)

Module ScoresCache.

(** A [weight_t*] handed out by the cache: one of the pre-allocated
    arrays, or the shared buffer used when the cache is full. *)
Inductive buffer : Type :=
| Slot (i : nat)
| IfFull.

Record t : Type := mk {
  _cache : gmap N buffer;
  _arrays : list (list Z);
  _scores_if_full : list Z;
  i : nat;
  max_size : nat;
  scores_size : nat;
  n_hit : Z;
  n_total : Z
}.

Definition init (scores_size max_size : nat) : t :=
  mk ∅ (replicate max_size (replicate scores_size 0%Z))
     (replicate scores_size 0%Z) 0 max_size scores_size 0 0.

(** The contents of the buffer behind a handle. *)
Definition read (self : t) (b : buffer) : option (list Z) :=
  match b with
  | Slot j => _arrays self !! j
  | IfFull => Some (_scores_if_full self)
  end.

(** The caller fills the buffer it was handed. *)
Definition write (self : t) (b : buffer) (scores : list Z) : t :=
  match b with
  | Slot j =>
      mk (_cache self) (<[j := scores]> (_arrays self)) (_scores_if_full self)
         (i self) (max_size self) (scores_size self) (n_hit self) (n_total self)
  | IfFull =>
      mk (_cache self) (_arrays self) scores
         (i self) (max_size self) (scores_size self) (n_hit self) (n_total self)
  end.

Section Lookup.
(** [murmurhash.mrmr.hash64(kernel, size, seed)] *)
Variable hash64 : list Byte.byte -> N -> N.

(** Returns the buffer and what is written to [is_hit[0]] ([None]:
    nothing is written). *)
Definition lookup (self : t) (size : nat) (kernel : list Byte.byte)
  : (buffer * option bool) * t :=
  let hashed := hash64 (take size kernel) 0%N in
  let scores := _cache self !! hashed in
  let self := mk (_cache self) (_arrays self) (_scores_if_full self) (i self)
                 (max_size self) (scores_size self) (n_hit self)
                 (n_total self + 1)%Z in
  match scores with
  | Some scores =>
      ((scores, Some true),
       mk (_cache self) (_arrays self) (_scores_if_full self) (i self)
          (max_size self) (scores_size self) (n_hit self + 1)%Z (n_total self))
  | None =>
      if i self =? max_size self then ((IfFull, None), self)
      else
        let scores := Slot (i self) in
        ((scores, Some false),
         mk (<[hashed := scores]> (_cache self)) (_arrays self)
            (_scores_if_full self) (i self + 1)
            (max_size self) (scores_size self) (n_hit self) (n_total self))
  end.

(** What the caller of [lookup] does, as the cache is meant to be used:
    on a hit the buffer is read; otherwise the caller computes the
    scores into the buffer it was handed. *)
Definition query (self : t) (size : nat) (kernel : list Byte.byte)
    (computed : list Z) : t :=
  let '((b, is_hit), self') := lookup self size kernel in
  match is_hit with
  | Some true => self'
  | _ => write self' b computed
  end.

(** The state after [n] more lookups of the same kernel. *)
Definition again (size : nat) (kernel : list Byte.byte) (n : nat) (self : t) : t :=
  Nat.iter n (fun c => (lookup c size kernel).2) self.

Fixpoint queries (self : t) (qs : list (nat * list Byte.byte * list Z)) : t :=
  match qs with
  | [] => self
  | (size, kernel, computed) :: qs' =>
      queries (query self size kernel computed) qs'
  end.
End Lookup.

Definition flush (self : t) : t :=
  mk ∅ (_arrays self) (_scores_if_full self) 0
     (max_size self) (scores_size self) 0 0.

(** Every registered key owns one of the first [i] pre-allocated arrays. *)
Definition cache_wf (self : t) : Prop :=
  ∀ h b, _cache self !! h = Some b → ∃ j, b = Slot j ∧ j < i self.

End ScoresCache.

(** ** The linear model *)

Module LinearModel.

Record t : Type := mk {
  total : Z;
  n_corr : Z;
  nr_class : nat;
  nr_templates : nat;
  time : Z;
  cache : ScoresCache.t;
  weights : list (gmap N nat);               (* PreshMapArray: key -> weight_t** *)
  train_weights : list (gmap N TrainFeat.t); (* PreshMapArray: key -> TrainFeat* *)
  mem : Pool.t;
  scores : list Z;
  _weight_lines : list WeightLine.t
}.

Definition set_time (v : Z) (s : t) : t :=
  mk (total s) (n_corr s) (nr_class s) (nr_templates s) v (cache s)
     (weights s) (train_weights s) (mem s) (scores s) (_weight_lines s).
Definition set_weights (v : list (gmap N nat)) (s : t) : t :=
  mk (total s) (n_corr s) (nr_class s) (nr_templates s) (time s) (cache s)
     v (train_weights s) (mem s) (scores s) (_weight_lines s).
Definition set_train_weights (v : list (gmap N TrainFeat.t)) (s : t) : t :=
  mk (total s) (n_corr s) (nr_class s) (nr_templates s) (time s) (cache s)
     (weights s) v (mem s) (scores s) (_weight_lines s).
Definition set_mem (v : Pool.t) (s : t) : t :=
  mk (total s) (n_corr s) (nr_class s) (nr_templates s) (time s) (cache s)
     (weights s) (train_weights s) v (scores s) (_weight_lines s).
Definition set_scores_buf (v : list Z) (s : t) : t :=
  mk (total s) (n_corr s) (nr_class s) (nr_templates s) (time s) (cache s)
     (weights s) (train_weights s) (mem s) v (_weight_lines s).
Definition set_weight_lines (v : list WeightLine.t) (s : t) : t :=
  mk (total s) (n_corr s) (nr_class s) (nr_templates s) (time s) (cache s)
     (weights s) (train_weights s) (mem s) (scores s) v.

Definition modify (f : t -> t) : M t unit := fun s => (Return tt, f s).

(** A helper that works on the arena, run on [self.mem]. *)
Definition on_mem {A} (c : M Pool.t A) : M t A :=
  fun s => let '(r, mem') := c (mem s) in (r, set_mem mem' s).

(** [__init__]: the score cache has the default [max_size] of 10000. *)
Definition init (nr_class nr_templates : nat) : t :=
  mk 0 0 nr_class nr_templates 0
     (ScoresCache.init nr_class (Z.to_nat 10000))
     (replicate nr_templates ∅)
     (replicate nr_templates ∅)
     Pool.empty
     (replicate nr_class 0%Z)
     (replicate (nr_class * nr_templates) WeightLine.zero).

(** [PreshMapArray.get(i, key)]: the map of template [i] is read without
    a bounds check. *)
Definition map_array_get {V} (maps : list (gmap N V)) (i : nat) (key : N)
  : option (option V) :=
  map_ ← maps !! i; Some (map_ !! key).

(** [PreshMapArray.set(i, key, value)] *)
Definition map_array_set {V} (maps : list (gmap N V)) (i : nat) (key : N) (v : V)
  : option (list (gmap N V)) :=
  map_ ← maps !! i; Some (<[i := <[key := v]> map_]> maps).

Definition new_feat (template_id : nat) (feat_id : N) : M t TrainFeat.t :=
  self <- get;;
  let '(feat, mem') := new_train_feat (mem self) (nr_class self) in
  modify (set_mem mem') ;;;
  ws <- deref (map_array_set (weights self) template_id feat_id
                             (TrainFeat.weights feat));;
  modify (set_weights ws) ;;;
  tws <- deref (map_array_set (train_weights self) template_id feat_id feat);;
  modify (set_train_weights tws) ;;;
  ret feat.

(** The rows of every active feature that the inference map knows are
    copied into [w_lines]; the result is the number of lines written and
    the buffer.  [None] is a fault. *)
Definition gather_row (rows : weight_rows) (acc : option (nat * list WeightLine.t))
    (row : nat) : option (nat * list WeightLine.t) :=
  '(f_i, w_lines) ← acc;
  r ← rows !! row;
  match r with
  | None => Some (f_i, w_lines)
  | Some l =>
      if decide (f_i < length w_lines)
      then Some (f_i + 1, <[f_i := WeightLine.mk (row * LINE_SIZE) l]> w_lines)
      else None
  end.

Definition gather_feature (self : t) (feat_ids : list N)
    (acc : option (nat * list WeightLine.t)) (template_id : nat)
  : option (nat * list WeightLine.t) :=
  '(f_i, w_lines) ← acc;
  feat_id ← feat_ids !! template_id;
  if (feat_id =? 0)%N then Some (f_i, w_lines)
  else
    feature ← map_array_get (weights self) template_id feat_id;
    match feature with
    | None => Some (f_i, w_lines)
    | Some a =>
        rows ← Pool.weight_arrays (mem self) !! a;
        foldl (gather_row rows) (Some (f_i, w_lines))
              (seq 0 (get_nr_rows (nr_class self)))
    end.

Definition gather_weights (self : t) (w_lines : list WeightLine.t)
    (feat_ids : list N) (nr_active : nat) : option (nat * list WeightLine.t) :=
  foldl (gather_feature self feat_ids) (Some (0, w_lines)) (seq 0 nr_active).

(** [score(scores, features, nr_active)]: [scores] is the caller's buffer,
    whose new contents are returned. *)
Definition score (scores : list Z) (features : list N) (nr_active : nat)
  : M t (list Z) :=
  self <- get;;
  gathered <- deref (gather_weights self (_weight_lines self)
                                    features nr_active);;
  let '(f_i, w_lines) := gathered in
  modify (set_weight_lines w_lines) ;;;
  deref (set_scores scores w_lines f_i (nr_class self)).

Definition call (py_feats : list N) : M t (list Z) :=
  self <- get;;
  scores' <- score (scores self) py_feats (length py_feats);;
  modify (set_scores_buf scores') ;;;
  deref (mapM (fun i => scores' !! i) (seq 0 (nr_class self))).

(** The body of the inner loop of [update] for one
    [(template_id, feat_id), upd] item of class [clas]. *)
Definition update_feature (clas : nat) (item : (nat * N) * Z) : M t unit :=
  let '((template_id, feat_id), upd) := item in
  let row := get_row clas in
  if (upd =? 0)%Z then ret tt
  else if (feat_id =? 0)%N then raise AssertionError
  else
    self <- get;;
    found <- deref (map_array_get (train_weights self) template_id feat_id);;
    feat <- match found with
            | Some feat => ret feat
            | None => new_feat template_id feat_id
            end;;
    self <- get;;
    rows <- deref (Pool.weight_arrays (mem self) !! TrainFeat.weights feat);;
    r <- deref (rows !! row);;
    match r with
    | Some _ => ret tt
    | None =>
        modify (set_mem (Pool.set_weights (TrainFeat.weights feat)
                           (<[row := Some (replicate LINE_SIZE 0%Z)]> rows)
                           (mem self))) ;;;
        self <- get;;
        meta <- deref (Pool.meta_arrays (mem self) !! TrainFeat.meta feat);;
        (if decide (row < length meta) then ret tt else raise MemoryFault) ;;;
        modify (set_mem (Pool.set_meta (TrainFeat.meta feat)
                           (<[row := Some (replicate LINE_SIZE MetaData.zero)]> meta)
                           (mem self)))
    end ;;;
    self <- get;;
    on_mem (update_accumulator feat clas (time self)) ;;;
    on_mem (update_count feat clas 1) ;;;
    on_mem (update_weight feat clas upd).

Definition update (updates : list (nat * list ((nat * N) * Z))) : M t unit :=
  modify (fun self => set_time (time self + 1)%Z self) ;;;
  for_each updates (fun '(clas, features) =>
    for_each features (update_feature clas)).

Definition end_training : M t unit :=
  self <- get;;
  for_each (seq 0 (nr_templates self)) (fun template_id =>
    self <- get;;
    map_ <- deref (train_weights self !! template_id);;
    for_each (map_to_list map_) (fun '(key, feat) =>
      if (key =? 0)%N then ret tt
      else
        self <- get;;
        on_mem (average_weight feat (nr_class self) (time self)))).

End LinearModel.

(** ** Text: decimal numbers and tab-separated tokens *)

Definition tab : ascii := "009"%char.
Definition newline : ascii := "010"%char.

(** Python's [str(n)] and ['%d' % n] on integers. *)
Definition str_Z (z : Z) : string := NilEmpty.string_of_int (Z.to_int z).
Definition str_N (n : N) : string := NilEmpty.string_of_uint (N.to_uint n).
Definition str_nat (n : nat) : string := str_N (N.of_nat n).

(** ['\t'.join(line)] followed by the newline. *)
Definition join_line (line : list string) : string :=
  (String.concat (String tab EmptyString) line ++ String newline EmptyString)%string.

Definition digit (c : ascii) : option (Decimal.uint -> Decimal.uint) :=
  if Ascii.eqb c "0" then Some Decimal.D0
  else if Ascii.eqb c "1" then Some Decimal.D1
  else if Ascii.eqb c "2" then Some Decimal.D2
  else if Ascii.eqb c "3" then Some Decimal.D3
  else if Ascii.eqb c "4" then Some Decimal.D4
  else if Ascii.eqb c "5" then Some Decimal.D5
  else if Ascii.eqb c "6" then Some Decimal.D6
  else if Ascii.eqb c "7" then Some Decimal.D7
  else if Ascii.eqb c "8" then Some Decimal.D8
  else if Ascii.eqb c "9" then Some Decimal.D9
  else None.

(** The longest prefix of decimal digits. *)
Fixpoint read_digits (s : string) : Decimal.uint :=
  match s with
  | EmptyString => Decimal.Nil
  | String c s' =>
      match digit c with
      | Some d => d (read_digits s')
      | None => Decimal.Nil
      end
  end.

(** C's [isspace]. *)
Definition isspace (c : ascii) : bool :=
  let n := nat_of_ascii c in (n =? 32) || ((9 <=? n) && (n <=? 13)).

Fixpoint skip_space (s : string) : string :=
  match s with
  | String c s' => if isspace c then skip_space s' else s
  | EmptyString => s
  end.

(** The sign and the digits that [strtoul] and [atoi] read after the
    leading white space. *)
Definition read_number (s : string) : bool * Decimal.uint :=
  match skip_space s with
  | String c s' =>
      if Ascii.eqb c "-" then (true, read_digits s')
      else if Ascii.eqb c "+" then (false, read_digits s')
      else (false, read_digits (String c s'))
  | EmptyString => (false, Decimal.Nil)
  end.

(** [strtoul(token, NULL, 10)]: a negative number is negated as an
    [unsigned long] (64 bits). *)
Definition strtoul (token : string) : N :=
  let '(neg, d) := read_number token in
  let v := N.of_uint d in
  if neg then ((2 ^ 64 - v) mod 2 ^ 64)%N else v.

Definition atoi (token : string) : Z :=
  let '(neg, d) := read_number token in
  let v := Z.of_uint d in
  if neg then (- v)%Z else v.

Fixpoint skip_tabs (s : string) : string :=
  match s with
  | String c s' => if Ascii.eqb c tab then skip_tabs s' else s
  | EmptyString => s
  end.

(** The token up to the next tab, and what follows that tab. *)
Fixpoint split_tab (s : string) : string * string :=
  match s with
  | EmptyString => (EmptyString, EmptyString)
  | String c s' =>
      if Ascii.eqb c tab then (EmptyString, s')
      else let '(token, rest) := split_tab s' in (String c token, rest)
  end.

(** [strtok(s, '\t')], and [strtok(NULL, '\t')] on the saved position [s]:
    the next token and the new saved position, or [None] for NULL. *)
Definition strtok (s : string) : option (string * string) :=
  match skip_tabs s with
  | EmptyString => None
  | s' => Some (split_tab s')
  end.

(** ** Serialisation *)

Module Serialize.
Import LinearModel.

(** The lines [dump] writes for one allocated row of a feature: one line
    when a weight of the row is not zero, none otherwise. *)
Definition dump_row (total_freq : Z) (template_id : nat) (feat_id : N)
    (row : nat) (r : weight_line_t) : option (list string) :=
  let line := [str_Z total_freq; str_nat template_id; str_N feat_id;
               str_nat row; str_nat (row * LINE_SIZE)] in
  vals ← mapM (fun col => str_Z <$> r !! col) (seq 0 LINE_SIZE);
  let seen_non_zero := existsb (fun val => negb (String.eqb val "0")) vals in
  Some (if seen_non_zero then [join_line (line ++ vals)] else []).

(** The lines for one cell of the training map.  The source takes the
    feature id from the cell of the inference map at the same index: both
    maps receive the same keys in the same order from [new_feat], so that
    cell holds the key of the training map's cell. *)
Definition dump_feat (self : t) (freq_thresh : nat) (template_id : nat)
    (c : N * TrainFeat.t) : option (list string) :=
  let '(key, feat) := c in
  if (key =? 0)%N then Some []
  else
    let feat_id := key in
    total_freq ← get_total_count (mem self) feat (nr_class self);
    if (1 <=? freq_thresh) && (total_freq <? Z.of_nat freq_thresh)%Z then Some []
    else
      rows ← Pool.weight_arrays (mem self) !! TrainFeat.weights feat;
      mjoin <$> mapM (fun row =>
                         r ← rows !! row;
                         match r with
                         | None => Some []
                         | Some r => dump_row total_freq template_id feat_id row r
                         end)
                      (seq 0 (get_nr_rows (nr_class self))).

(** [dump]: the lines written to the file, each with its newline. *)
Definition dump (self : t) (freq_thresh : nat) : option (list string) :=
  mjoin <$> mapM (fun template_id =>
                     train_weights ← train_weights self !! template_id;
                     mjoin <$> mapM (dump_feat self freq_thresh template_id)
                                     (map_to_list train_weights))
                  (seq 0 (nr_templates self)).

(** The weight columns of a line of [load]. *)
Fixpoint load_cols (feature row : nat) (cols : list nat) (saved : string)
  : M t unit :=
  match cols with
  | [] => ret tt
  | col :: cols' =>
      tk <- deref (strtok saved);;
      let '(token, saved) := tk in
      self <- get;;
      rows <- deref (Pool.weight_arrays (mem self) !! feature);;
      rows' <- deref (set_cell rows row col (atoi token));;
      modify (set_mem (Pool.set_weights feature rows' (mem self))) ;;;
      load_cols feature row cols' saved
  end.

(** One line of [load].  (The counts of features and weights, which only
    feed the progress message, are left out.) *)
Definition load_line (freq_thresh : Z) (py_line : string) : M t unit :=
  self <- get;;
  let nr_rows := get_nr_rows (nr_class self) in
  tk <- deref (strtok py_line);;
  let '(token, saved) := tk in
  let freq := Z.of_N (strtoul token) in
  tk <- deref (strtok saved);;
  let '(token, saved) := tk in
  let template_id := N.to_nat (strtoul token) in
  tk <- deref (strtok saved);;
  let '(token, saved) := tk in
  let feat_id := strtoul token in
  tk <- deref (strtok saved);;
  let '(token, saved) := tk in
  let row := N.to_nat (strtoul token) in
  tk <- deref (strtok saved);;
  let '(token, saved) := tk in
  let start := N.to_nat (strtoul token) in
  if (1 <=? freq_thresh)%Z && (freq <? freq_thresh)%Z then ret tt
  else
    found <- deref (map_array_get (weights self) template_id feat_id);;
    feature <- match found with
               | Some feature => ret feature
               | None =>
                   let '(feature, mem') := Pool.alloc_weights (mem self) nr_rows in
                   modify (set_mem mem') ;;;
                   ws <- deref (map_array_set (weights self) template_id
                                              feat_id feature);;
                   modify (set_weights ws) ;;;
                   ret feature
               end;;
    self <- get;;
    rows <- deref (Pool.weight_arrays (mem self) !! feature);;
    (if decide (row < length rows)
     then modify (set_mem (Pool.set_weights feature
                             (<[row := Some (replicate LINE_SIZE 0%Z)]> rows)
                             (mem self)))
     else raise MemoryFault) ;;;
    load_cols feature row (seq 0 LINE_SIZE) saved.

Definition load (file_ : list string) (freq_thresh : Z) : M t unit :=
  for_each file_ (load_line freq_thresh).

End Serialize.

(** ** Vocabulary of the properties *)

Import LinearModel.

(** What the inference map holds for a feature key. *)
Definition weight_addr (self : t) (template_id : nat) (feat_id : N) : option nat :=
  map_ ← weights self !! template_id; map_ !! feat_id.

(** What the training map holds for a feature key. *)
Definition train_feat (self : t) (template_id : nat) (feat_id : N)
  : option TrainFeat.t :=
  map_ ← train_weights self !! template_id; map_ !! feat_id.

(** The weight rows and the metadata rows of a feature key. *)
Definition feature_rows (self : t) (template_id : nat) (feat_id : N)
  : option weight_rows :=
  a ← weight_addr self template_id feat_id; Pool.weight_arrays (mem self) !! a.

Definition feature_meta (self : t) (template_id : nat) (feat_id : N)
  : option meta_rows :=
  feat ← train_feat self template_id feat_id;
  Pool.meta_arrays (mem self) !! TrainFeat.meta feat.

(** The weight and the metadata of a (feature key, class) pair. *)
Definition weight_of (self : t) (template_id : nat) (feat_id : N) (clas : nat)
  : option Z :=
  rows ← feature_rows self template_id feat_id;
  cell rows (get_row clas) (get_col clas).

Definition meta_of (self : t) (template_id : nat) (feat_id : N) (clas : nat)
  : option MetaData.t :=
  meta ← feature_meta self template_id feat_id;
  cell meta (get_row clas) (get_col clas).

(** One allocated row of a feature key ([None]: the feature is unknown or
    the row is not allocated), and its metadata. *)
Definition feature_row (self : t) (template_id : nat) (feat_id : N) (row : nat)
  : option weight_line_t :=
  rows ← feature_rows self template_id feat_id; r ← rows !! row; r.

Definition feature_meta_row (self : t) (template_id : nat) (feat_id : N) (row : nat)
  : option (list MetaData.t) :=
  meta ← feature_meta self template_id feat_id; r ← meta !! row; r.

(** The row behind a row pointer, a NULL pointer read as a fresh row. *)
Definition row_or_zeros {A} (z : A) (rows : list (option (list A))) (row : nat)
  : list A :=
  match rows !! row with
  | Some (Some l) => l
  | _ => replicate LINE_SIZE z
  end.

(** [set_cell] where it does not fault. *)
Definition store_cell {A} (rows : list (option (list A))) (row col : nat) (x : A)
  : list (option (list A)) :=
  match rows !! row with
  | Some (Some l) => <[row := Some (<[col := x]> l)]> rows
  | _ => rows
  end.

(** Two arrays of row pointers with the same rows allocated, and two arenas
    with the same arrays. *)
Definition same_row {A} (r r' : option (list A)) : Prop :=
  match r, r' with
  | Some l, Some l' => length l = length l'
  | None, None => True
  | _, _ => False
  end.

Definition same_shape (mem mem' : Pool.t) : Prop :=
  Forall2 (Forall2 same_row) (Pool.weight_arrays mem) (Pool.weight_arrays mem') ∧
  Forall2 (Forall2 same_row) (Pool.meta_arrays mem) (Pool.meta_arrays mem').

(** A helper on the arena that changes cells only. *)
Definition keeps_shape {A} (c : M Pool.t A) : Prop :=
  ∀ mem, same_shape mem (c mem).2.

(** Two states of a model that differ in the maps and the arena only. *)
Definition same_config (s s' : t) : Prop :=
  nr_class s' = nr_class s ∧ nr_templates s' = nr_templates s ∧
  time s' = time s ∧ scores s' = scores s ∧
  _weight_lines s' = _weight_lines s ∧ cache s' = cache s ∧
  total s' = total s ∧ n_corr s' = n_corr s.

(** Two states of a model that differ in the arena only. *)
Definition same_maps (s s' : t) : Prop :=
  same_config s s' ∧ weights s' = weights s ∧ train_weights s' = train_weights s.

(** The lines that [gather_weights] copies for the rows of one feature,
    for one template slot, and for the first [nr_active] slots. *)
Definition lines_of_rows (rows : weight_rows) (nr_rows : nat) : list WeightLine.t :=
  flat_map (fun row => match rows !! row with
                       | Some (Some l) => [WeightLine.mk (row * LINE_SIZE) l]
                       | _ => []
                       end) (seq 0 nr_rows).

Definition feature_lines (self : t) (feat_ids : list N) (template_id : nat)
  : list WeightLine.t :=
  match feat_ids !! template_id with
  | Some feat_id =>
      if (feat_id =? 0)%N then []
      else match feature_rows self template_id feat_id with
           | Some rows => lines_of_rows rows (get_nr_rows (nr_class self))
           | None => []
           end
  | None => []
  end.

Definition gathered (self : t) (feat_ids : list N) (nr_active : nat)
  : list WeightLine.t :=
  flat_map (feature_lines self feat_ids) (seq 0 nr_active).

(** What [set_scores] adds to the scores for one gathered line. *)
Definition add_line (nr_class : nat) (acc : option (list Z)) (wl : WeightLine.t)
  : option (list Z) :=
  scores ← acc;
  let start := WeightLine.start wl in
  if start + LINE_SIZE <? nr_class
  then add_cols start (WeightLine.line wl) [0; 1; 2; 3; 4; 5; 6] scores
  else add_cols start (WeightLine.line wl) (seq 0 (nr_class - start)) scores.

(** The scores of a list of gathered lines. *)
Definition scores_of (nr_class : nat) (lines : list WeightLine.t) : option (list Z) :=
  foldl (add_line nr_class) (Some (replicate nr_class 0%Z)) lines.

(** Everything of a model but its two scratch buffers: the counters, the
    time, the cache, both feature maps and the arena with all weights and
    metadata. *)
Definition training_state (s : t) :=
  (total s, n_corr s, nr_class s, nr_templates s, time s, cache s,
   weights s, train_weights s, mem s).

(** A field of a line: not empty and without a tab. *)
Fixpoint no_tab (s : string) : bool :=
  match s with
  | EmptyString => true
  | String c s' => negb (Ascii.eqb c tab) && no_tab s'
  end.

Definition token_ok (s : string) : Prop := s ≠ EmptyString ∧ no_tab s = true.

(** What may follow a number: nothing, or a character that is no digit. *)
Definition ends_number (s : string) : Prop :=
  match s with
  | EmptyString => True
  | String c _ => digit c = None
  end.

(** A line of a dump, from its fields. *)
Definition dump_line (total_freq : Z) (template_id : nat) (feat_id : N)
    (row : nat) (r : weight_line_t) : string :=
  join_line ([str_Z total_freq; str_nat template_id; str_N feat_id;
              str_nat row; str_nat (row * LINE_SIZE)] ++ map str_Z r).

Definition nonzero_row (r : weight_line_t) : bool :=
  existsb (fun w => negb (w =? 0)%Z) r.

(** The records of a dump: total count, template, feature id, row and
    weights of every line, in the order of the lines. *)
Definition record : Type := Z * nat * N * nat * list Z.

Definition record_line (r : record) : string :=
  let '(total_freq, template_id, feat_id, row, l) := r in
  dump_line total_freq template_id feat_id row l.

Definition row_records (total_freq : Z) (template_id : nat) (feat_id : N)
    (rows : weight_rows) (row : nat) : list record :=
  match rows !! row with
  | Some (Some l) =>
      if nonzero_row l then [(total_freq, template_id, feat_id, row, l)] else []
  | _ => []
  end.

Definition feat_records (self : t) (freq_thresh : nat) (template_id : nat)
    (c : N * TrainFeat.t) : list record :=
  let '(key, feat) := c in
  if (key =? 0)%N then []
  else
    match get_total_count (mem self) feat (nr_class self),
          Pool.weight_arrays (mem self) !! TrainFeat.weights feat with
    | Some total_freq, Some rows =>
        if (1 <=? freq_thresh) && (total_freq <? Z.of_nat freq_thresh)%Z then []
        else flat_map (row_records total_freq template_id key rows)
                      (seq 0 (get_nr_rows (nr_class self)))
    | _, _ => []
    end.

Definition records (self : t) (freq_thresh : nat) : list record :=
  flat_map (fun template_id =>
              match train_weights self !! template_id with
              | Some map_ =>
                  flat_map (feat_records self freq_thresh template_id)
                           (map_to_list map_)
              | None => []
              end) (seq 0 (nr_templates self)).

(** What a loaded model holds for a feature key after the lines of the
    records [rs]: the rows of the records of that key, the later ones over
    the earlier ones. *)
Definition key_of (r : record) : nat * N * nat :=
  let '(_, template_id, feat_id, row, _) := r in (template_id, feat_id, row).

Definition line_of (r : record) : list Z := let '(_, _, _, _, l) := r in l.

Definition has_key (rs : list record) (template_id : nat) (feat_id : N) : bool :=
  existsb (fun r => bool_decide ((key_of r).1 = (template_id, feat_id))) rs.

Fixpoint last_line (rs : list record) (k : nat * N * nat) : option (list Z) :=
  match rs with
  | [] => None
  | r :: rs' =>
      match last_line rs' k with
      | Some l => Some l
      | None => if bool_decide (key_of r = k) then Some (line_of r) else None
      end
  end.

Definition loaded_rows (nr_rows : nat) (rs : list record)
    (template_id : nat) (feat_id : N) : option weight_rows :=
  if has_key rs template_id feat_id
  then Some ((fun row => last_line rs (template_id, feat_id, row)) <$> seq 0 nr_rows)
  else None.

(** An update whose deltas are all zero. *)
Definition zero_deltas (updates : list (nat * list ((nat * N) * Z))) : Prop :=
  Forall (fun cf => Forall (fun item => item.2 = 0%Z) cf.2) updates.

(** A weight row and its metadata row are allocated together, with
    [LINE_SIZE] cells each. *)
Definition row_match (r : option weight_line_t) (mr : option (list MetaData.t)) : Prop :=
  match r, mr with
  | Some r, Some mr => length r = LINE_SIZE ∧ length mr = LINE_SIZE
  | None, None => True
  | _, _ => False
  end.

Definition feat_ok (nr_rows : nat) (mem : Pool.t) (feat : TrainFeat.t) : Prop :=
  ∃ rows meta,
    Pool.weight_arrays mem !! TrainFeat.weights feat = Some rows ∧
    Pool.meta_arrays mem !! TrainFeat.meta feat = Some meta ∧
    length rows = nr_rows ∧
    Forall2 row_match rows meta.

(** The invariant of a model under training: the two maps hold the same
    non-zero keys, the inference map points to the weight rows of the
    training feature, every feature has [get_nr_rows nr_class] row pointers,
    and no two features share an array. *)
Record wf (self : t) : Prop := {
  wf_weights_len : length (weights self) = nr_templates self;
  wf_train_len : length (train_weights self) = nr_templates self;
  wf_scores_len : length (scores self) = nr_class self;
  wf_lines_len : length (_weight_lines self) = nr_class self * nr_templates self;
  wf_feat : ∀ t f feat,
      train_feat self t f = Some feat →
      f ≠ 0%N ∧ weight_addr self t f = Some (TrainFeat.weights feat) ∧
      feat_ok (get_nr_rows (nr_class self)) (mem self) feat;
  wf_keys : ∀ t f, is_Some (weight_addr self t f) → is_Some (train_feat self t f);
  wf_inj : ∀ t f feat t' f' feat',
      train_feat self t f = Some feat → train_feat self t' f' = Some feat' →
      TrainFeat.weights feat = TrainFeat.weights feat' ∨
      TrainFeat.meta feat = TrainFeat.meta feat' →
      t = t' ∧ f = f'
}.

(** What scoring needs of a model, trained or loaded. *)
Record scorable (self : t) : Prop := {
  sc_weights_len : length (weights self) = nr_templates self;
  sc_scores_len : length (scores self) = nr_class self;
  sc_lines_len :
    nr_templates self * get_nr_rows (nr_class self) ≤ length (_weight_lines self);
  sc_rows : ∀ t f a,
      weight_addr self t f = Some a →
      ∃ rows, Pool.weight_arrays (mem self) !! a = Some rows ∧
              length rows = get_nr_rows (nr_class self) ∧
              ∀ row r, rows !! row = Some (Some r) → length r = LINE_SIZE
}.

(** What loading the line of one record does to the rows that the feature
    keys read. *)
Definition store_record (nr_rows : nat) (view : nat → N → option weight_rows)
    (r : record) : nat → N → option weight_rows :=
  fun t f =>
    if decide (t = (key_of r).1.1 ∧ f = (key_of r).1.2)
    then Some (<[(key_of r).2 := Some (line_of r)]>
                 (default (replicate nr_rows None) (view t f)))
    else view t f.

(** The rows of a feature key that hold a non-zero weight, the other rows
    read as not allocated. *)
Definition nonzero_rows (self : t) (template_id : nat) (feat_id : N) : weight_rows :=
  (fun row => match feature_row self template_id feat_id row with
              | Some l => if nonzero_row l then Some l else None
              | None => None
              end) <$> seq 0 (get_nr_rows (nr_class self)).

Definition has_nonzero (self : t) (template_id : nat) (feat_id : N) : bool :=
  existsb (fun r => bool_decide (is_Some r)) (nonzero_rows self template_id feat_id).

(** Whether [dump] keeps a feature key under a frequency threshold. *)
Definition kept (self : t) (freq_thresh : nat) (template_id : nat) (feat_id : N)
  : bool :=
  match train_feat self template_id feat_id with
  | Some feat =>
      match get_total_count (mem self) feat (nr_class self) with
      | Some total_freq =>
          negb ((1 <=? freq_thresh) && (total_freq <? Z.of_nat freq_thresh)%Z)
      | None => false
      end
  | None => false
  end.

(** The invariant of a model that is being loaded: it can be scored, and no
    two feature keys share their rows. *)
Definition loadable (self : t) : Prop :=
  scorable self ∧
  ∀ t f t' f' a, weight_addr self t f = Some a → weight_addr self t' f' = Some a →
                 t = t' ∧ f = f'.

(** The models that training reaches: scoring, updates and the final
    averaging, none of which ran into a memory fault. *)
Inductive trained (nr_class nr_templates : nat) : t → Prop :=
| trained_init : trained nr_class nr_templates (init nr_class nr_templates)
| trained_call self py_feats :
    trained nr_class nr_templates self →
    (call py_feats self).1 ≠ Raise MemoryFault →
    trained nr_class nr_templates (call py_feats self).2
| trained_update self updates :
    trained nr_class nr_templates self →
    (update updates self).1 ≠ Raise MemoryFault →
    trained nr_class nr_templates (update updates self).2
| trained_end_training self :
    trained nr_class nr_templates self →
    trained nr_class nr_templates (end_training self).2.

(** ** Sums of weights *)

Definition sum_Z (l : list Z) : Z := foldr Z.add 0%Z l.

(** The weight of a (feature key, class) pair, 0 when the model stores
    none. *)
Definition weight_at (self : t) (template_id : nat) (feat_id : N) (clas : nat) : Z :=
  default 0%Z (weight_of self template_id feat_id clas).




(** ** Updates and the lazy totals *)

(** The metadata of a (feature key, class) pair, zero when the model stores
    none (a fresh row is zeroed). *)
Definition meta_at (self : t) (template_id : nat) (feat_id : N) (clas : nat)
  : MetaData.t :=
  default MetaData.zero (meta_of self template_id feat_id clas).

(** The total that a cell would have were it brought up to the time [now]:
    what [update_accumulator] and [average_weight] add to the stored total
    for the ticks since the cell was last touched. *)
Definition total_through (now : Z) (self : t) (template_id : nat) (feat_id : N)
    (clas : nat) : Z :=
  (MetaData.total (meta_at self template_id feat_id clas)
   + (now - MetaData.time (meta_at self template_id feat_id clas))
     * weight_at self template_id feat_id clas)%Z.

(** Updates whose classes lie in the allocated rows and whose templates are
    templates of the model. *)
Definition in_range (nr_class nr_templates : nat)
    (updates : list (nat * list ((nat * N) * Z))) : Prop :=
  Forall (fun cf => get_row cf.1 < get_nr_rows nr_class ∧
                    Forall (fun item => item.1.1 < nr_templates) cf.2) updates.

(** Whether no non-zero delta is given for feature id 0 (the [assert] of
    [update]). *)
Definition asserts_hold (updates : list (nat * list ((nat * N) * Z))) : bool :=
  forallb (fun cf => forallb (fun item => (item.2 =? 0)%Z || negb (item.1.2 =? 0)%N)
                             cf.2) updates.

(** The sum of the deltas that an update gives for a (feature key, class)
    pair. *)
Definition item_delta (template_id : nat) (feat_id : N) (item : (nat * N) * Z) : Z :=
  if decide (item.1 = (template_id, feat_id)) then item.2 else 0%Z.


(** The number of non-zero deltas that an update gives for a feature key. *)
Definition touches_of (updates : list (nat * list ((nat * N) * Z)))
    (template_id : nat) (feat_id : N) : Z :=
  sum_Z (map (fun cf =>
                sum_Z (map (fun item =>
                              if decide (item.1 = (template_id, feat_id) ∧ item.2 ≠ 0%Z)
                              then 1%Z else 0%Z) cf.2)) updates).

(** The model after a sequence of calls to [update]. *)
Definition run_updates (us : list (list (nat * list ((nat * N) * Z)))) (self : t) : t :=
  foldl (fun s u => (update u s).2) self us.

(** ** The final averaging *)



(** What [average_weight] makes of a cell at the time [time]: the total is
    brought up to [time + 1] and becomes the weight. *)
Definition averaged (time : Z) (c : option Z * option MetaData.t)
  : option Z * option MetaData.t :=
  match c with
  | (Some w, Some md) =>
      let total := (MetaData.total md + ((time + 1) - MetaData.time md) * w)%Z in
      (Some total, Some (MetaData.mk total (MetaData.count md) (MetaData.time md)))
  | _ => c
  end.


(** The sum of the counts of the cells of a feature key. *)
Definition cells_count (self : t) (template_id : nat) (feat_id : N) : Z :=
  sum_Z (map (fun c => MetaData.count (meta_at self template_id feat_id c))
             (seq 0 (get_nr_rows (nr_class self) * LINE_SIZE))).

(** The frequency field of a record. *)
Definition freq_of (r : record) : Z := let '(total_freq, _, _, _, _) := r in total_freq.


(** * Properties *)

Global Arguments get_row : simpl never.
Global Arguments get_col : simpl never.
Global Arguments get_nr_rows : simpl never.
Global Arguments LINE_SIZE : simpl never.

(** ** The score cache *)

Section CacheProperties.
Import ScoresCache.
Variable hash64 : list Byte.byte -> N -> N.

Abbreviation lookup := (ScoresCache.lookup hash64).
Abbreviation query := (ScoresCache.query hash64).
Abbreviation queries := (ScoresCache.queries hash64).
Abbreviation again := (ScoresCache.again hash64).
Abbreviation key size kernel := (hash64 (take size kernel) 0%N).

Lemma cache_wf_init scores_size max_size : cache_wf (init scores_size max_size).
Proof. intros h b H. cbn in H. by rewrite lookup_empty in H. Qed.

Lemma cache_wf_flush self : cache_wf (flush self).
Proof. intros h b H. cbn in H. by rewrite lookup_empty in H. Qed.

Lemma lookup_hit self size kernel b :
  _cache self !! key size kernel = Some b →
  lookup self size kernel =
    ((b, Some true),
     mk (_cache self) (_arrays self) (_scores_if_full self) (i self)
        (max_size self) (scores_size self) (n_hit self + 1) (n_total self + 1)).
Proof. intros H. unfold ScoresCache.lookup. cbn. by rewrite H. Qed.

Lemma lookup_full self size kernel :
  _cache self !! key size kernel = None → i self = max_size self →
  lookup self size kernel =
    ((IfFull, None),
     mk (_cache self) (_arrays self) (_scores_if_full self) (i self)
        (max_size self) (scores_size self) (n_hit self) (n_total self + 1)).
Proof.
  intros H Hi. unfold ScoresCache.lookup. cbn. rewrite H.
  by rewrite Hi, Nat.eqb_refl.
Qed.

Lemma lookup_register self size kernel :
  _cache self !! key size kernel = None → i self ≠ max_size self →
  lookup self size kernel =
    ((Slot (i self), Some false),
     mk (<[key size kernel := Slot (i self)]> (_cache self)) (_arrays self)
        (_scores_if_full self) (i self + 1)
        (max_size self) (scores_size self) (n_hit self) (n_total self + 1)).
Proof.
  intros H Hi. unfold ScoresCache.lookup. cbn. rewrite H.
  apply Nat.eqb_neq in Hi. by rewrite Hi.
Qed.

(** The three cases of [lookup]. *)
Lemma lookup_cases self size kernel :
  (∃ b, _cache self !! key size kernel = Some b) ∨
  (_cache self !! key size kernel = None ∧ i self = max_size self) ∨
  (_cache self !! key size kernel = None ∧ i self ≠ max_size self).
Proof.
  destruct (_cache self !! key size kernel) eqn:E; [eauto|].
  destruct (decide (i self = max_size self)); eauto.
Qed.

(** [lookup] never touches the contents of a buffer. *)
Lemma lookup_buffers self size kernel :
  _arrays (lookup self size kernel).2 = _arrays self ∧
  _scores_if_full (lookup self size kernel).2 = _scores_if_full self.
Proof.
  destruct (lookup_cases self size kernel) as [[b H]|[[H Hi]|[H Hi]]].
  - by rewrite (lookup_hit _ _ _ _ H).
  - by rewrite (lookup_full _ _ _ H Hi).
  - by rewrite (lookup_register _ _ _ H Hi).
Qed.

(** [lookup] keeps every registration and never lowers the free-slot
    pointer. *)
Lemma lookup_mono self size kernel h b :
  _cache self !! h = Some b →
  _cache (lookup self size kernel).2 !! h = Some b.
Proof.
  intros Hh.
  destruct (lookup_cases self size kernel) as [[b' H]|[[H Hi]|[H Hi]]].
  - by rewrite (lookup_hit _ _ _ _ H).
  - by rewrite (lookup_full _ _ _ H Hi).
  - rewrite (lookup_register _ _ _ H Hi). cbn.
    rewrite lookup_insert_ne; [done|]. intros <-. congruence.
Qed.

Lemma lookup_i_mono self size kernel :
  i self ≤ i (lookup self size kernel).2.
Proof.
  destruct (lookup_cases self size kernel) as [[b' H]|[[H Hi]|[H Hi]]].
  - by rewrite (lookup_hit _ _ _ _ H).
  - by rewrite (lookup_full _ _ _ H Hi).
  - rewrite (lookup_register _ _ _ H Hi). cbn. lia.
Qed.

Lemma write_cache self b scores : _cache (write self b scores) = _cache self.
Proof. by destruct b. Qed.

Lemma write_i self b scores : i (write self b scores) = i self.
Proof. by destruct b. Qed.

Lemma write_max_size self b scores : max_size (write self b scores) = max_size self.
Proof. by destruct b. Qed.

Lemma query_mono self size kernel computed h b :
  _cache self !! h = Some b →
  _cache (query self size kernel computed) !! h = Some b.
Proof.
  intros Hh. unfold query.
  pose proof (lookup_mono self size kernel h b Hh) as Hm.
  destruct (lookup self size kernel) as [[b' [[]|]] self']; cbn in *;
    by rewrite ?write_cache.
Qed.

Lemma query_wf self size kernel computed :
  cache_wf self → cache_wf (query self size kernel computed).
Proof.
  intros Hwf h b. unfold query.
  destruct (lookup_cases self size kernel) as [[b' H]|[[H Hi]|[H Hi]]].
  - rewrite (lookup_hit _ _ _ _ H). cbn. apply Hwf.
  - rewrite (lookup_full _ _ _ H Hi). cbn. apply Hwf.
  - rewrite (lookup_register _ _ _ H Hi). cbn.
    destruct (decide (key size kernel = h)) as [->|Hne].
    + rewrite lookup_insert_eq. intros [= <-]. exists (i self). split; [done|lia].
    + rewrite lookup_insert_ne by done. intros Hb.
      destruct (Hwf _ _ Hb) as (j & -> & Hj). exists j. split; [done|lia].
Qed.

(** A query that is not about the key of a registered buffer leaves that
    buffer's contents alone. *)
Lemma query_read self size kernel computed h j :
  cache_wf self →
  _cache self !! h = Some (Slot j) →
  read (query self size kernel computed) (Slot j) = read self (Slot j).
Proof.
  intros Hwf Hh. unfold query.
  destruct (lookup_cases self size kernel) as [[b' H]|[[H Hi]|[H Hi]]].
  - by rewrite (lookup_hit _ _ _ _ H).
  - by rewrite (lookup_full _ _ _ H Hi).
  - rewrite (lookup_register _ _ _ H Hi). cbn.
    destruct (Hwf _ _ Hh) as (j' & [= <-] & Hj).
    apply list_lookup_insert_ne. lia.
Qed.

Lemma queries_keep self qs h j :
  cache_wf self →
  _cache self !! h = Some (Slot j) →
  cache_wf (queries self qs) ∧
  _cache (queries self qs) !! h = Some (Slot j) ∧
  read (queries self qs) (Slot j) = read self (Slot j).
Proof.
  revert self. induction qs as [|[[size kernel] computed] qs IH]; intros self Hwf Hh.
  - done.
  - cbn [queries].
    destruct (IH (query self size kernel computed)) as (Hw & Hc & Hr).
    + by apply query_wf.
    + by apply query_mono.
    + split; [done|]. split; [done|].
      rewrite Hr. by eapply query_read.
Qed.

Lemma queries_full self qs :
  i self = max_size self →
  i (queries self qs) = max_size (queries self qs) ∧
  max_size (queries self qs) = max_size self.
Proof.
  revert self. induction qs as [|[[size kernel] computed] qs IH]; intros self Hi.
  - done.
  - cbn [ScoresCache.queries].
    assert (i (query self size kernel computed) = i self ∧
            max_size (query self size kernel computed) = max_size self) as [Hi' Hm'].
    { unfold ScoresCache.query.
      destruct (lookup_cases self size kernel) as [[b' H]|[[H Hi2]|[H Hi2]]].
      - by rewrite (lookup_hit _ _ _ _ H).
      - by rewrite (lookup_full _ _ _ H Hi2).
      - done. }
    destruct (IH (query self size kernel computed)) as [H1 H2]; [congruence|].
    split; congruence.
Qed.


Lemma again_full self size kernel n :
  i self = max_size self → _cache self !! key size kernel = None →
  i (again size kernel n self) = max_size (again size kernel n self) ∧
  _cache (again size kernel n self) = _cache self ∧
  n_hit (again size kernel n self) = n_hit self.
Proof.
  intros Hi H. induction n as [|n (IH1 & IH2 & IH3)]; [done|].
  change (again size kernel (S n) self)
    with (lookup (again size kernel n self) size kernel).2.
  rewrite lookup_full; [|by rewrite IH2|done]. cbn. by rewrite IH2, IH3.
Qed.

(** C7: once the cache holds [max_size] entries, a lookup of a key that is
    not cached returns the shared overflow buffer, writes no hit flag and
    registers nothing (only [n_total] moves), so the same query repeated
    any number of times is never a hit; no sequence of queries lowers the
    free-slot pointer of a full cache; [flush] resets the counters, the
    key-to-slot map and the free-slot pointer, after which a lookup gets
    slot 0 again. *)
Theorem overflow_lookup_not_registered self size kernel :
  i self = max_size self →
  _cache self !! key size kernel = None →
  (lookup self size kernel).1 = (IfFull, None) ∧
  _cache (lookup self size kernel).2 = _cache self ∧
  i (lookup self size kernel).2 = max_size self ∧
  n_hit (lookup self size kernel).2 = n_hit self ∧
  n_total (lookup self size kernel).2 = (n_total self + 1)%Z ∧
  (∀ n, (lookup (again size kernel n self) size kernel).1 = (IfFull, None) ∧
        n_hit (again size kernel n self) = n_hit self) ∧
  (∀ qs, i (queries self qs) = max_size self) ∧
  (i (flush self) = 0 ∧ n_hit (flush self) = 0%Z ∧ n_total (flush self) = 0%Z ∧
   _cache (flush self) = ∅ ∧
   (max_size self ≠ 0 →
    (lookup (flush self) size kernel).1 = (Slot 0, Some false))).
Proof.
  intros Hi H. rewrite (lookup_full _ _ _ H Hi). cbn.
  repeat split; try done.
  - destruct (again_full self size kernel n Hi H) as (H1 & H2 & H3).
    rewrite lookup_full; [done|by rewrite H2|done].
  - by destruct (again_full self size kernel n Hi H) as (H1 & H2 & H3).
  - intros qs. destruct (queries_full self qs Hi). congruence.
  - intros Hm. rewrite lookup_register; [done|apply lookup_empty|]. cbn. lia.
Qed.

(** C6 (amended): in a cache whose registered keys own distinct slots
    below the free-slot pointer, when the key of a query is already cached
    or a slot is still free, then after that query and any further queries
    without a flush a lookup of the same sequence is a hit: the hit flag
    is set, [n_hit] and [n_total] are incremented, and the buffer of the
    first lookup is returned with the contents it had when the first query
    was completed.  A lookup of a key that is not cached in a full cache
    returns the shared overflow buffer, and neither it nor the caller's
    filling of that buffer changes the contents of a cached entry. *)
Theorem cached_query_hits_again self size kernel computed qs :
  cache_wf self →
  is_Some (_cache self !! key size kernel) ∨ i self ≠ max_size self →
  let b := (lookup self size kernel).1.1 in
  let self1 := query self size kernel computed in
  let self2 := queries self1 qs in
  (lookup self2 size kernel).1 = (b, Some true) ∧
  n_hit (lookup self2 size kernel).2 = (n_hit self2 + 1)%Z ∧
  n_total (lookup self2 size kernel).2 = (n_total self2 + 1)%Z ∧
  read (lookup self2 size kernel).2 b = read self1 b ∧
  (∀ size' kernel' computed' h j,
      i self2 = max_size self2 →
      _cache self2 !! key size' kernel' = None →
      _cache self2 !! h = Some (Slot j) →
      (lookup self2 size' kernel').1 = (IfFull, None) ∧
      read (query self2 size' kernel' computed') (Slot j) = read self2 (Slot j)).
Proof.
  intros Hwf Hcase b self1 self2.
  assert (∃ j, b = Slot j ∧ _cache self1 !! key size kernel = Some (Slot j))
    as (j & Hb & Hj).
  { subst b self1. unfold ScoresCache.query.
    destruct (lookup_cases self size kernel) as [[b' H]|[[H Hi]|[H Hi]]].
    - rewrite (lookup_hit _ _ _ _ H). cbn.
      destruct (Hwf _ _ H) as (j & -> & _). eauto.
    - destruct Hcase as [[? Hs]|Hne]; congruence.
    - rewrite (lookup_register _ _ _ H Hi). cbn.
      exists (i self). split; [done|]. apply lookup_insert_eq. }
  assert (cache_wf self1) as Hwf1 by (by apply query_wf).
  destruct (queries_keep self1 qs _ _ Hwf1 Hj) as (Hwf2 & Hc2 & Hr2).
  fold self2 in Hwf2, Hc2, Hr2.
  rewrite (lookup_hit _ _ _ _ Hc2). cbn. rewrite Hb.
  repeat split; try done.
  - by rewrite lookup_full.
  - by eapply query_read.
Qed.
End CacheProperties.

(** C6 as stated fails when the cache is full: with room for one entry and
    a first key cached, a second key queried twice is not a hit the second
    time and the hit counter does not move. *)
Lemma full_cache_second_lookup_misses :
  let hash64 := fun (kernel : list Byte.byte) (_ : N) => N.of_nat (length kernel) in
  let c0 := ScoresCache.init 3 1 in
  let c1 := ScoresCache.query hash64 c0 1 [Byte.x01] [1; 2; 3]%Z in
  let c2 := ScoresCache.query hash64 c1 2 [Byte.x01; Byte.x02] [4; 5; 6]%Z in
  ScoresCache.lookup hash64 c2 2 [Byte.x01; Byte.x02] =
    ((ScoresCache.IfFull, None),
     ScoresCache.mk (ScoresCache._cache c1) [[1; 2; 3]%Z] [4; 5; 6]%Z 1 1 3 0 3).
Proof. vm_compute. reflexivity. Qed.

Lemma overflow_lookup_not_registered_witness :
  let hash64 := fun (kernel : list Byte.byte) (_ : N) => N.of_nat (length kernel) in
  let c1 := ScoresCache.query hash64 (ScoresCache.init 3 1) 1 [Byte.x01] [1; 2; 3]%Z in
  ScoresCache.i c1 = ScoresCache.max_size c1 ∧
  ScoresCache._cache c1 !! hash64 (take 2 [Byte.x01; Byte.x02]) 0%N = None ∧
  (ScoresCache.lookup hash64 c1 2 [Byte.x01; Byte.x02]).1 = (ScoresCache.IfFull, None).
Proof.
  intros hash64 c1.
  assert (ScoresCache.i c1 = ScoresCache.max_size c1) as Hi by reflexivity.
  assert (ScoresCache._cache c1 !! hash64 (take 2 [Byte.x01; Byte.x02]) 0%N = None)
    as H by (vm_compute; reflexivity).
  split; [exact Hi|]. split; [exact H|].
  exact (proj1 (overflow_lookup_not_registered hash64 c1 2 [Byte.x01; Byte.x02] Hi H)).
Defined.

Lemma cached_query_hits_again_witness :
  let hash64 := fun (kernel : list Byte.byte) (_ : N) => N.of_nat (length kernel) in
  let c0 := ScoresCache.init 3 2 in
  let c2 := ScoresCache.queries hash64
              (ScoresCache.query hash64 c0 1 [Byte.x01] [1; 2; 3]%Z)
              [(2, [Byte.x01; Byte.x02], [4; 5; 6]%Z)] in
  ScoresCache.cache_wf c0 ∧
  (is_Some (ScoresCache._cache c0 !! hash64 (take 1 [Byte.x01]) 0%N) ∨
   ScoresCache.i c0 ≠ ScoresCache.max_size c0) ∧
  (ScoresCache.lookup hash64 c2 1 [Byte.x01]).1 = (ScoresCache.Slot 0, Some true).
Proof.
  intros hash64 c0 c2.
  assert (ScoresCache.cache_wf c0) as Hwf by apply cache_wf_init.
  assert (is_Some (ScoresCache._cache c0 !! hash64 (take 1 [Byte.x01]) 0%N) ∨
          ScoresCache.i c0 ≠ ScoresCache.max_size c0) as Hc
    by (right; cbn; lia).
  split; [exact Hwf|]. split; [exact Hc|].
  exact (proj1 (cached_query_hits_again hash64 c0 1 [Byte.x01] [1; 2; 3]%Z
                  [(2, [Byte.x01; Byte.x02], [4; 5; 6]%Z)] Hwf Hc)).
Defined.

(** ** Rows and columns *)

Lemma get_nr_rows_pos n : 1 ≤ get_nr_rows n.
Proof.
  unfold get_nr_rows, get_row, LINE_SIZE.
  destruct (Nat.eqb_spec (n / 7) 0); destruct (Nat.ltb_spec (n / 7 * 7) n);
    cbv [orb]; lia.
Qed.

Lemma get_nr_rows_spec n : n ≤ get_nr_rows n * LINE_SIZE ∧ (1 ≤ n → get_nr_rows n ≤ n).
Proof.
  unfold get_nr_rows, get_row, LINE_SIZE.
  pose proof (Nat.div_mod_eq n 7) as Hd.
  pose proof (Nat.mod_upper_bound n 7 ltac:(lia)) as Hm.
  destruct (Nat.eqb_spec (n / 7) 0); destruct (Nat.ltb_spec (n / 7 * 7) n);
    cbv [orb]; lia.
Qed.

Lemma get_row_lt clas n : clas < n → get_row clas < get_nr_rows n.
Proof.
  intros H. pose proof (get_nr_rows_spec n) as [Hn _].
  unfold get_row, LINE_SIZE in *.
  pose proof (Nat.div_mod_eq clas 7) as Hd.
  pose proof (Nat.mod_upper_bound clas 7 ltac:(lia)) as Hm.
  lia.
Qed.

Lemma get_col_lt clas : get_col clas < LINE_SIZE.
Proof. unfold get_col, LINE_SIZE. apply Nat.mod_upper_bound. lia. Qed.

(** ** Construction *)

(** C4 as stated fails: the constructor makes a model with no class. *)
Lemma nr_class_zero_is_constructed :
  nr_class (init 0 1) = 0 ∧ scores (init 0 1) = [] ∧
  (call [0%N] (init 0 1)).1 = Return [].
Proof. repeat split. Qed.

(** C4 (amended): the constructor checks nothing.  For every [nr_class],
    zero included, it returns a model with that [nr_class], time 0, empty
    maps for [nr_templates] templates, an empty arena and a score buffer of
    [nr_class] zeros; and [get_nr_rows], whose zero result would signal an
    error, is never zero (it is 1 for no class). *)
Theorem init_accepts_every_nr_class nc nt :
  nr_class (init nc nt) = nc ∧ nr_templates (init nc nt) = nt ∧
  time (init nc nt) = 0%Z ∧
  weights (init nc nt) = replicate nt ∅ ∧
  train_weights (init nc nt) = replicate nt ∅ ∧
  mem (init nc nt) = Pool.empty ∧
  scores (init nc nt) = replicate nc 0%Z ∧
  1 ≤ get_nr_rows nc ∧ get_nr_rows 0 = 1.
Proof. repeat split. apply get_nr_rows_pos. Qed.

(** ** Lazy averaging *)

(** C1: a cell that starts at weight 0, time 0 and total 0 and receives
    delta 1 at time 1 and delta 2 at time 3 (the call at time 2 does not
    touch it) has weight 3 and total (1-0)*0 + (3-1)*1 = 2 after the
    updates, and total 2 + ((3+1)-3)*3 = 5 after [end_training], which also
    makes that total the weight: 5, undivided. *)
Theorem lazy_average_pinned :
  let key := (1, 5%N) in
  let m0 := init 10 2 in
  let m1 := (update [(9, [(key, 1%Z)])] m0).2 in
  let m2 := (update [] m1).2 in
  let m3 := (update [(9, [(key, 2%Z)])] m2).2 in
  let m4 := (end_training m3).2 in
  (update [(9, [(key, 1%Z)])] m0).1 = Return tt ∧
  (update [(9, [(key, 2%Z)])] m2).1 = Return tt ∧
  (end_training m3).1 = Return tt ∧
  weight_of m1 1 5 9 = Some 1%Z ∧
  meta_of m1 1 5 9 = Some (MetaData.mk 0 1 1) ∧
  time m2 = 2%Z ∧ weight_of m2 1 5 9 = Some 1%Z ∧
  meta_of m2 1 5 9 = Some (MetaData.mk 0 1 1) ∧
  weight_of m3 1 5 9 = Some 3%Z ∧
  meta_of m3 1 5 9 = Some (MetaData.mk 2 2 3) ∧
  time m3 = 3%Z ∧
  weight_of m4 1 5 9 = Some 5%Z ∧
  meta_of m4 1 5 9 = Some (MetaData.mk 5 2 3) ∧
  (call [0%N; 5%N] m4).1 = Return [0; 0; 0; 0; 0; 0; 0; 0; 0; 5]%Z.
Proof. vm_compute. repeat split. Qed.

(** ** Updates *)

Lemma for_each_skip {S A} (xs : list A) (body : A → M S unit) (s : S) :
  Forall (fun x => ∀ s, body x s = (Return tt, s)) xs →
  for_each xs body s = (Return tt, s).
Proof.
  induction 1 as [|x xs Hx _ IH]; [done|].
  cbn. unfold bind. by rewrite Hx.
Qed.

Lemma update_feature_zero clas key self :
  update_feature clas (key, 0%Z) self = (Return tt, self).
Proof. by destruct key. Qed.

(** C2 as stated fails: a call whose only delta is zero advances the
    time of the model. *)
Lemma zero_delta_update_advances_time :
  let m := init 1 1 in
  zero_deltas [(0, [((0, 1%N), 0%Z)])] ∧
  time m = 0%Z ∧
  time (update [(0, [((0, 1%N), 0%Z)])] m).2 = 1%Z.
Proof.
  split; [|by split].
  repeat constructor.
Qed.

(** C2 (amended): a call to [update] whose deltas are all zero returns
    normally and leaves the weights, the metadata, both feature maps and
    every other field of the model as they were, except the time counter,
    which is incremented by one. *)
Theorem zero_delta_update_only_advances_time updates self :
  zero_deltas updates →
  update updates self = (Return tt, set_time (time self + 1) self).
Proof.
  intros Hz. unfold update, bind, modify.
  apply for_each_skip.
  eapply Forall_impl; [exact Hz|].
  intros [clas features] Hf s. cbn in *.
  apply for_each_skip.
  eapply Forall_impl; [exact Hf|].
  intros [key upd] Hupd s'. cbn in Hupd. subst upd.
  apply update_feature_zero.
Qed.

Lemma zero_delta_update_only_advances_time_witness :
  zero_deltas [(3, [((0, 7%N), 0%Z); ((1, 0%N), 0%Z)])] ∧
  update [(3, [((0, 7%N), 0%Z); ((1, 0%N), 0%Z)])] (init 10 2) =
    (Return tt, set_time 1 (init 10 2)).
Proof.
  assert (zero_deltas [(3, [((0, 7%N), 0%Z); ((1, 0%N), 0%Z)])]) as Hz
    by repeat constructor.
  split; [exact Hz|].
  exact (zero_delta_update_only_advances_time _ (init 10 2) Hz).
Defined.

(** ** The absent feature *)

Lemma gather_feature_absent self feat_ids acc template_id :
  feat_ids !! template_id = Some 0%N →
  gather_feature self feat_ids (Some acc) template_id = Some acc.
Proof. intros H. unfold gather_feature. destruct acc. cbn. by rewrite H. Qed.

Lemma gather_weights_all_absent self w_lines n :
  gather_weights self w_lines (replicate n 0%N) n = Some (0, w_lines).
Proof.
  unfold gather_weights.
  assert (∀ k, k ≤ n →
            foldl (gather_feature self (replicate n 0%N)) (Some (0, w_lines)) (seq 0 k)
            = Some (0, w_lines)) as H; [|by apply H].
  induction k as [|k IH]; intros Hk; [done|].
  rewrite seq_S, foldl_app, IH by lia. cbn [foldl].
  apply gather_feature_absent. apply lookup_replicate. split; [done|lia].
Qed.

Lemma mapM_lookup_seq {A} (l : list A) n :
  length l = n → mapM (fun i => l !! i) (seq 0 n) = Some l.
Proof.
  intros <-. apply mapM_Some. apply Forall2_same_length_lookup. split.
  - by rewrite length_seq.
  - intros i x y Hx Hy. apply lookup_seq in Hx as [-> _]. done.
Qed.

Lemma set_scores_no_lines scores w_lines nc :
  length scores = nc → set_scores scores w_lines 0 nc = Some (replicate nc 0%Z).
Proof.
  intros <-. unfold set_scores. rewrite decide_True by done. cbn.
  by rewrite drop_all, app_nil_r.
Qed.

(** C3 as stated fails: a non-zero delta for feature id 0 makes [update]
    raise. *)
Lemma update_absent_feature_raises :
  update [(0, [((0, 0%N), 1%Z)])] (init 1 1) =
    (Raise AssertionError, set_time 1 (init 1 1)).
Proof. reflexivity. Qed.

(** C3 (amended): scoring ignores every entry whose feature id is 0: the
    gathering step for it leaves the gathered lines as they are, and a list
    of absent features only scores zero for every class, without error.
    [update] skips such an entry only when its delta is zero; with a
    non-zero delta it asserts that the feature id is not 0, so the call
    raises AssertionError at that entry, before any storage is made for
    it. *)
Theorem absent_feature_scoring_and_update self :
  (∀ feat_ids acc template_id,
      feat_ids !! template_id = Some 0%N →
      gather_feature self feat_ids (Some acc) template_id = Some acc) ∧
  (∀ n, length (scores self) = nr_class self →
        (call (replicate n 0%N) self).1 = Return (replicate (nr_class self) 0%Z)) ∧
  (∀ clas template_id,
      update_feature clas ((template_id, 0%N), 0%Z) self = (Return tt, self)) ∧
  (∀ clas template_id upd,
      upd ≠ 0%Z →
      update_feature clas ((template_id, 0%N), upd) self = (Raise AssertionError, self) ∧
      update [(clas, [((template_id, 0%N), upd)])] self =
        (Raise AssertionError, set_time (time self + 1) self)).
Proof.
  split; [|split; [|split]].
  - intros. by apply gather_feature_absent.
  - intros n Hlen. unfold call, score, bind, get, modify, deref.
    rewrite length_replicate, gather_weights_all_absent. cbn.
    rewrite set_scores_no_lines by done. cbn.
    by rewrite mapM_lookup_seq by apply length_replicate.
  - intros. apply update_feature_zero.
  - intros clas template_id upd Hupd.
    assert (update_feature clas ((template_id, 0%N), upd) self
            = (Raise AssertionError, self)) as H.
    { intros. unfold update_feature.
      destruct (Z.eqb_spec upd 0) as [->|_]; [done|]. reflexivity. }
    split; [exact H|].
    unfold update, bind, modify. cbn. unfold bind.
    unfold update_feature.
    destruct (Z.eqb_spec upd 0) as [->|_]; [done|]. reflexivity.
Qed.

Lemma absent_feature_scoring_and_update_witness :
  length (scores (init 3 2)) = nr_class (init 3 2) ∧
  (1 ≠ 0)%Z ∧
  (call (replicate 2 0%N) (init 3 2)).1 = Return [0; 0; 0]%Z ∧
  update_feature 2 ((1, 0%N), 1%Z) (init 3 2) = (Raise AssertionError, init 3 2).
Proof.
  assert (length (scores (init 3 2)) = nr_class (init 3 2)) as Hlen by reflexivity.
  assert (1 ≠ 0)%Z as Hupd by lia.
  split; [exact Hlen|]. split; [exact Hupd|]. split.
  - exact (proj1 (proj2 (absent_feature_scoring_and_update (init 3 2))) 2 Hlen).
  - exact (proj1 (proj2 (proj2 (proj2 (absent_feature_scoring_and_update (init 3 2))))
                    2 1 1%Z Hupd)).
Defined.

(** ** The invariant of training *)

Lemma feat_ok_alloc_weights nr mem feat n :
  feat_ok nr mem feat → feat_ok nr (Pool.alloc_weights mem n).2 feat.
Proof.
  intros (rows & meta & Hr & Hm & Hl & Hf). exists rows, meta. cbn.
  split; [|done]. apply lookup_app_l_Some. done.
Qed.

Lemma feat_ok_alloc_meta nr mem feat n :
  feat_ok nr mem feat → feat_ok nr (Pool.alloc_meta mem n).2 feat.
Proof.
  intros (rows & meta & Hr & Hm & Hl & Hf). exists rows, meta. cbn.
  split; [done|]. split; [|done]. apply lookup_app_l_Some. done.
Qed.

(** Reading a [PreshMapArray] after a [set]. *)
Lemma map_array_set_Some {V} (maps : list (gmap N V)) i key v :
  i < length maps → ∃ maps', map_array_set maps i key v = Some maps' ∧
    length maps' = length maps ∧
    ∀ i' key', (maps' !! i' ≫= (.!! key')) =
               if decide (i' = i ∧ key' = key) then Some v
               else maps !! i' ≫= (.!! key').
Proof.
  intros Hi. destruct (lookup_lt_is_Some_2 _ _ Hi) as [map_ Hmap].
  unfold map_array_set. rewrite Hmap. cbn. eexists. split; [done|].
  split; [by rewrite length_insert|].
  intros i' key'. destruct (decide (i' = i)) as [->|Hne].
  - rewrite list_lookup_insert_eq by done. cbn.
    destruct (decide (key' = key)) as [->|Hk].
    + rewrite decide_True by done. apply lookup_insert_eq.
    + rewrite decide_False by (intros [_ ?]; done). rewrite Hmap. cbn.
      by apply lookup_insert_ne.
  - rewrite decide_False by (intros [? _]; done).
    by rewrite list_lookup_insert_ne.
Qed.

Lemma map_array_set_None {V} (maps : list (gmap N V)) i key v :
  length maps ≤ i → map_array_set maps i key v = None.
Proof. intros Hi. unfold map_array_set. by rewrite lookup_ge_None_2. Qed.

Lemma map_array_get_Some {V} (maps : list (gmap N V)) i key :
  i < length maps → map_array_get maps i key = Some (maps !! i ≫= (.!! key)).
Proof.
  intros Hi. destruct (lookup_lt_is_Some_2 _ _ Hi) as [map_ Hmap].
  unfold map_array_get. by rewrite Hmap.
Qed.

Lemma map_array_get_None {V} (maps : list (gmap N V)) i key :
  length maps ≤ i → map_array_get maps i key = None.
Proof. intros Hi. unfold map_array_get. by rewrite lookup_ge_None_2. Qed.

Lemma feat_ok_addr nr mem feat :
  feat_ok nr mem feat →
  TrainFeat.weights feat < length (Pool.weight_arrays mem) ∧
  TrainFeat.meta feat < length (Pool.meta_arrays mem).
Proof.
  intros (rows & meta & Hr & Hm & _).
  split; eapply lookup_lt_Some; eassumption.
Qed.

Lemma Forall2_row_match_replicate n :
  Forall2 row_match (replicate n None) (replicate n None).
Proof. apply Forall2_replicate. done. Qed.

Lemma new_feat_spec self t f :
  wf self → t < nr_templates self → f ≠ 0%N → train_feat self t f = None →
  ∃ self',
    new_feat t f self =
      (Return (TrainFeat.mk (length (Pool.weight_arrays (mem self)))
                            (length (Pool.meta_arrays (mem self)))), self') ∧
    wf self' ∧
    nr_class self' = nr_class self ∧ nr_templates self' = nr_templates self ∧
    time self' = time self ∧ scores self' = scores self ∧
    _weight_lines self' = _weight_lines self ∧ cache self' = cache self ∧
    total self' = total self ∧ n_corr self' = n_corr self ∧
    mem self' = (new_train_feat (mem self) (nr_class self)).2 ∧
    (∀ t' f', train_feat self' t' f' =
              if decide (t' = t ∧ f' = f)
              then Some (TrainFeat.mk (length (Pool.weight_arrays (mem self)))
                                      (length (Pool.meta_arrays (mem self))))
              else train_feat self t' f') ∧
    (∀ t' f', weight_addr self' t' f' =
              if decide (t' = t ∧ f' = f)
              then Some (length (Pool.weight_arrays (mem self)))
              else weight_addr self t' f').
Proof.
  intros Hwf Ht Hf Hnone.
  destruct (map_array_set_Some (weights self) t f
              (length (Pool.weight_arrays (mem self)))) as (ws & Hws & Hwl & Hwlook).
  { by rewrite (wf_weights_len _ Hwf). }
  destruct (map_array_set_Some (train_weights self) t f
              (TrainFeat.mk (length (Pool.weight_arrays (mem self)))
                            (length (Pool.meta_arrays (mem self)))))
    as (tws & Htws & Htl & Htlook).
  { by rewrite (wf_train_len _ Hwf). }
  eexists. split.
  { unfold new_feat, bind, get, modify, deref, ret. cbn.
    rewrite Hws. cbn. rewrite Htws. cbn. reflexivity. }
  match goal with |- wf ?s ∧ _ => set (self' := s) end.
  assert (∀ t' f', train_feat self' t' f' =
              if decide (t' = t ∧ f' = f)
              then Some (TrainFeat.mk (length (Pool.weight_arrays (mem self)))
                                      (length (Pool.meta_arrays (mem self))))
              else train_feat self t' f') as Htf by apply Htlook.
  assert (∀ t' f', weight_addr self' t' f' =
              if decide (t' = t ∧ f' = f)
              then Some (length (Pool.weight_arrays (mem self)))
              else weight_addr self t' f') as Hwa by apply Hwlook.
  split; [|repeat split; done].
  constructor; cbn.
  - rewrite Hwl. apply Hwf.
  - rewrite Htl. apply Hwf.
  - apply Hwf.
  - apply Hwf.
  - intros t' f' feat'. rewrite Htf, Hwa. case_decide as Hd.
    + intros [= <-]. cbn. split; [naive_solver|]. split; [done|].
      eexists _, _. cbn. split; [apply list_lookup_middle; done|].
      split; [apply list_lookup_middle; done|].
      split; [by rewrite length_replicate|]. apply Forall2_row_match_replicate.
    + intros Hfeat. destruct (wf_feat _ Hwf _ _ _ Hfeat) as (H1 & H2 & H3).
      split; [done|]. split; [done|].
      by apply (feat_ok_alloc_meta _ (Pool.alloc_weights _ _).2), feat_ok_alloc_weights.
  - intros t' f'. rewrite Htf, Hwa. case_decide; [by eauto|]. apply Hwf.
  - intros t1 f1 feat1 t2 f2 feat2. rewrite !Htf.
    case_decide as Hd1; case_decide as Hd2.
    + naive_solver.
    + intros [= <-] H2 Heq. cbn in Heq.
      destruct (wf_feat _ Hwf _ _ _ H2) as (_ & _ & Hok).
      apply feat_ok_addr in Hok. lia.
    + intros H1 [= <-] Heq. cbn in Heq.
      destruct (wf_feat _ Hwf _ _ _ H1) as (_ & _ & Hok).
      apply feat_ok_addr in Hok. lia.
    + apply Hwf.
Qed.
(** *** Cells *)

Lemma cell_Some_inv {A} (rows : list (option (list A))) row col x :
  cell rows row col = Some x →
  ∃ l, rows !! row = Some (Some l) ∧ l !! col = Some x.
Proof.
  unfold cell. destruct (rows !! row) as [[l|]|]; cbn; [eauto|done..].
Qed.

Lemma cell_lookup {A} (rows : list (option (list A))) row col l :
  rows !! row = Some (Some l) → cell rows row col = l !! col.
Proof. intros H. unfold cell. by rewrite H. Qed.

Lemma set_cell_store {A} (rows : list (option (list A))) row col x y :
  cell rows row col = Some y →
  set_cell rows row col x = Some (store_cell rows row col x).
Proof.
  intros (l & Hl & Hc)%cell_Some_inv. unfold set_cell, store_cell.
  rewrite Hl. cbn. rewrite decide_True; [done|]. by eapply lookup_lt_Some.
Qed.

Lemma same_row_refl {A} (r : option (list A)) : same_row r r.
Proof. by destruct r. Qed.

Lemma store_cell_same {A} (rows : list (option (list A))) row col x :
  Forall2 same_row rows (store_cell rows row col x).
Proof.
  unfold store_cell. destruct (rows !! row) as [[l|]|] eqn:E.
  - apply Forall2_same_length_lookup. split; [by rewrite length_insert|].
    intros i r r' Hr Hr'. destruct (decide (i = row)) as [->|Hne].
    + rewrite list_lookup_insert_eq in Hr' by (by eapply lookup_lt_Some).
      simplify_eq. cbn. by rewrite length_insert.
    + rewrite list_lookup_insert_ne in Hr' by done.
      rewrite Hr in Hr'. injection Hr' as <-. apply same_row_refl.
  - apply Forall_Forall2_diag, Forall_forall. by intros [].
  - apply Forall_Forall2_diag, Forall_forall. by intros [].
Qed.

Lemma same_row_trans {A} (r1 r2 r3 : option (list A)) :
  same_row r1 r2 → same_row r2 r3 → same_row r1 r3.
Proof. destruct r1, r2, r3; cbn; try done. congruence. Qed.

Lemma same_rows_refl {A} (rows : list (option (list A))) : Forall2 same_row rows rows.
Proof. apply Forall_Forall2_diag, Forall_forall. intros. apply same_row_refl. Qed.

Lemma same_rows_trans {A} (r1 r2 r3 : list (option (list A))) :
  Forall2 same_row r1 r2 → Forall2 same_row r2 r3 → Forall2 same_row r1 r3.
Proof.
  intros H12 H23. eapply Forall2_trans; [|exact H12|exact H23].
  intros ???. apply same_row_trans.
Qed.

Lemma same_shape_refl mem : same_shape mem mem.
Proof.
  split; apply Forall_Forall2_diag, Forall_forall; intros; apply same_rows_refl.
Qed.

Lemma same_shape_trans m1 m2 m3 :
  same_shape m1 m2 → same_shape m2 m3 → same_shape m1 m3.
Proof.
  intros [H1 H2] [H3 H4]. split.
  - eapply Forall2_trans; [|exact H1|exact H3]. intros ???. apply same_rows_trans.
  - eapply Forall2_trans; [|exact H2|exact H4]. intros ???. apply same_rows_trans.
Qed.

Lemma same_arrays_insert {A} (arrays : list (list (option (list A)))) a rows rows' :
  arrays !! a = Some rows → Forall2 same_row rows rows' →
  Forall2 (Forall2 same_row) arrays (<[a := rows']> arrays).
Proof.
  intros Ha Hs. apply Forall2_same_length_lookup. split; [by rewrite length_insert|].
  intros i r r' Hr Hr'. destruct (decide (i = a)) as [->|Hne].
  - rewrite list_lookup_insert_eq in Hr' by (by eapply lookup_lt_Some). by simplify_eq.
  - rewrite list_lookup_insert_ne in Hr' by done.
    rewrite Hr in Hr'. injection Hr' as <-. apply same_rows_refl.
Qed.

Lemma same_shape_set_weights mem a rows rows' :
  Pool.weight_arrays mem !! a = Some rows → Forall2 same_row rows rows' →
  same_shape mem (Pool.set_weights a rows' mem).
Proof.
  intros Ha Hs. split; cbn.
  - by eapply same_arrays_insert.
  - apply Forall_Forall2_diag, Forall_forall; intros; apply same_rows_refl.
Qed.

Lemma same_shape_set_meta mem a rows rows' :
  Pool.meta_arrays mem !! a = Some rows → Forall2 same_row rows rows' →
  same_shape mem (Pool.set_meta a rows' mem).
Proof.
  intros Ha Hs. split; cbn.
  - apply Forall_Forall2_diag, Forall_forall; intros; apply same_rows_refl.
  - by eapply same_arrays_insert.
Qed.

Lemma row_match_same r r' mr mr' :
  row_match r mr → same_row r r' → same_row mr mr' → row_match r' mr'.
Proof. destruct r, r', mr, mr'; cbn; try done. intros [] ??. split; congruence. Qed.

Lemma feat_ok_same_shape nr mem mem' feat :
  same_shape mem mem' → feat_ok nr mem feat → feat_ok nr mem' feat.
Proof.
  intros [Hw Hm] (rows & meta & Hr & Hme & Hl & Hf).
  destruct (Forall2_lookup_l _ _ _ _ _ Hw Hr) as (rows' & Hr' & Hsr).
  destruct (Forall2_lookup_l _ _ _ _ _ Hm Hme) as (meta' & Hme' & Hsm).
  pose proof (Forall2_length _ _ _ Hsr) as Hlr.
  pose proof (Forall2_length _ _ _ Hsm) as Hlm.
  pose proof (Forall2_length _ _ _ Hf) as Hlf.
  exists rows', meta'. split; [done|]. split; [done|].
  split; [lia|].
  apply Forall2_same_length_lookup. split; [lia|].
  intros i r' mr' Hi Hi'.
    destruct (Forall2_lookup_r _ _ _ _ _ Hsr Hi) as (r & Hri & Hrr).
    destruct (Forall2_lookup_r _ _ _ _ _ Hsm Hi') as (mr & Hmri & Hmm).
  eapply row_match_same; [|done..].
  eapply Forall2_lookup_lr; eauto.
Qed.

Lemma wf_same_shape self mem' :
  wf self → same_shape (mem self) mem' → wf (set_mem mem' self).
Proof.
  intros Hwf Hs. constructor; cbn; try apply Hwf.
  intros t f feat Hfeat. destruct (wf_feat _ Hwf _ _ _ Hfeat) as (H1 & H2 & H3).
  split; [done|]. split; [done|]. by eapply feat_ok_same_shape.
Qed.

(** *** The helpers of [update] keep the shape of the arena *)

Lemma keeps_shape_update_weight feat clas inc :
  keeps_shape (update_weight feat clas inc).
Proof.
  intros mem. unfold update_weight, bind, get, deref, put, ret, raise.
  destruct (Pool.weight_arrays mem !! TrainFeat.weights feat) as [rows|] eqn:Hr;
    cbn; [|apply same_shape_refl].
  destruct (cell rows (get_row clas) (get_col clas)) as [w|] eqn:Hc;
    cbn; [|apply same_shape_refl].
  rewrite (set_cell_store _ _ _ _ _ Hc). cbn.
  eapply same_shape_set_weights; [done|]. apply store_cell_same.
Qed.

Lemma keeps_shape_update_count feat clas inc :
  keeps_shape (update_count feat clas inc).
Proof.
  intros mem. unfold update_count, bind, get, deref, put, ret, raise.
  destruct (Pool.meta_arrays mem !! TrainFeat.meta feat) as [meta|] eqn:Hm;
    cbn; [|apply same_shape_refl].
  destruct (cell meta (get_row clas) (get_col clas)) as [md|] eqn:Hc;
    cbn; [|apply same_shape_refl].
  rewrite (set_cell_store _ _ _ _ _ Hc). cbn.
  eapply same_shape_set_meta; [done|]. apply store_cell_same.
Qed.

Lemma keeps_shape_update_accumulator feat clas time :
  keeps_shape (update_accumulator feat clas time).
Proof.
  intros mem. unfold update_accumulator, bind, get, deref, put, ret, raise.
  destruct (Pool.weight_arrays mem !! TrainFeat.weights feat) as [rows|] eqn:Hr;
    cbn; [|apply same_shape_refl].
  destruct (cell rows (get_row clas) (get_col clas)) as [w|] eqn:Hcw;
    cbn; [|apply same_shape_refl].
  destruct (Pool.meta_arrays mem !! TrainFeat.meta feat) as [meta|] eqn:Hm;
    cbn; [|apply same_shape_refl].
  destruct (cell meta (get_row clas) (get_col clas)) as [md|] eqn:Hc;
    cbn; [|apply same_shape_refl].
  rewrite (set_cell_store _ _ _ _ _ Hc). cbn.
  eapply same_shape_set_meta; [done|]. apply store_cell_same.
Qed.
(** *** What the helpers compute *)

Lemma update_accumulator_run feat clas tm mem rows meta w md :
  Pool.weight_arrays mem !! TrainFeat.weights feat = Some rows →
  Pool.meta_arrays mem !! TrainFeat.meta feat = Some meta →
  cell rows (get_row clas) (get_col clas) = Some w →
  cell meta (get_row clas) (get_col clas) = Some md →
  update_accumulator feat clas tm mem =
    (Return tt,
     Pool.set_meta (TrainFeat.meta feat)
       (store_cell meta (get_row clas) (get_col clas)
          (MetaData.mk (MetaData.total md + (tm - MetaData.time md) * w)
                       (MetaData.count md) tm)) mem).
Proof.
  intros Hr Hm Hw Hmd. unfold update_accumulator, bind, get, deref, put, ret.
  rewrite Hr, Hw, Hm, Hmd. by erewrite set_cell_store.
Qed.

Lemma update_count_run feat clas inc mem meta md :
  Pool.meta_arrays mem !! TrainFeat.meta feat = Some meta →
  cell meta (get_row clas) (get_col clas) = Some md →
  update_count feat clas inc mem =
    (Return tt,
     Pool.set_meta (TrainFeat.meta feat)
       (store_cell meta (get_row clas) (get_col clas)
          (MetaData.mk (MetaData.total md) (MetaData.count md + inc)
                       (MetaData.time md))) mem).
Proof.
  intros Hm Hmd. unfold update_count, bind, get, deref, put, ret.
  rewrite Hm, Hmd. by erewrite set_cell_store.
Qed.

Lemma update_weight_run feat clas inc mem rows w :
  Pool.weight_arrays mem !! TrainFeat.weights feat = Some rows →
  cell rows (get_row clas) (get_col clas) = Some w →
  update_weight feat clas inc mem =
    (Return tt,
     Pool.set_weights (TrainFeat.weights feat)
       (store_cell rows (get_row clas) (get_col clas) (w + inc)%Z) mem).
Proof.
  intros Hr Hw. unfold update_weight, bind, get, deref, put, ret.
  rewrite Hr, Hw. by erewrite set_cell_store.
Qed.

Lemma store_cell_row {A} (rows : list (option (list A))) row col x l :
  rows !! row = Some (Some l) →
  store_cell rows row col x = <[row := Some (<[col := x]> l)]> rows.
Proof. intros H. unfold store_cell. by rewrite H. Qed.

(** The three helpers in the order of [update], on an allocated row. *)
Lemma update_cells_run feat clas upd tm mem rows meta l ml w md :
  Pool.weight_arrays mem !! TrainFeat.weights feat = Some rows →
  Pool.meta_arrays mem !! TrainFeat.meta feat = Some meta →
  rows !! get_row clas = Some (Some l) →
  meta !! get_row clas = Some (Some ml) →
  l !! get_col clas = Some w →
  ml !! get_col clas = Some md →
  (update_accumulator feat clas tm ;;;
   update_count feat clas 1 ;;;
   update_weight feat clas upd) mem =
    (Return tt,
     Pool.mk
       (<[TrainFeat.weights feat :=
            <[get_row clas := Some (<[get_col clas := (w + upd)%Z]> l)]> rows]>
          (Pool.weight_arrays mem))
       (<[TrainFeat.meta feat :=
            <[get_row clas :=
                Some (<[get_col clas :=
                          MetaData.mk (MetaData.total md + (tm - MetaData.time md) * w)
                                      (MetaData.count md + 1) tm]> ml)]> meta]>
          (Pool.meta_arrays mem))).
Proof.
  intros Hr Hm Hl Hml Hw Hmd.
  assert (get_col clas < length ml) as Hcol by (by eapply lookup_lt_Some).
  assert (get_row clas < length meta) as Hrow by (by eapply lookup_lt_Some).
  assert (TrainFeat.meta feat < length (Pool.meta_arrays mem)) as Hma
    by (by eapply lookup_lt_Some).
  unfold bind at 1.
  erewrite update_accumulator_run; [|done|done|by erewrite cell_lookup|by erewrite cell_lookup].
  unfold bind at 1.
  erewrite update_count_run; cycle 1.
  { cbn. by apply list_lookup_insert_eq. }
  { erewrite cell_lookup.
    - rewrite list_lookup_insert_eq by done. reflexivity.
    - rewrite (store_cell_row _ _ _ _ _ Hml). by apply list_lookup_insert_eq. }
  erewrite update_weight_run; [|done|by erewrite cell_lookup].
  unfold Pool.set_weights, Pool.set_meta. cbn. f_equal. f_equal.
  - by rewrite (store_cell_row _ _ _ _ _ Hl).
  - rewrite list_insert_insert_eq. f_equal.
    rewrite (store_cell_row _ _ _ _ _ Hml).
    erewrite store_cell_row by (by apply list_lookup_insert_eq).
    rewrite list_insert_insert_eq. f_equal. f_equal.
    by rewrite list_insert_insert_eq.
Qed.

Lemma on_mem_run {A} (c : M Pool.t A) self r mem' :
  c (mem self) = (r, mem') → on_mem c self = (r, set_mem mem' self).
Proof. intros H. unfold on_mem. by rewrite H. Qed.
(** *** Changing the rows of one feature *)

Lemma train_feat_set_mem self mem' t f :
  train_feat (set_mem mem' self) t f = train_feat self t f.
Proof. done. Qed.

Lemma weight_addr_set_mem self mem' t f :
  weight_addr (set_mem mem' self) t f = weight_addr self t f.
Proof. done. Qed.

Lemma wf_feat_update self t f feat mem' rows' meta' :
  wf self → train_feat self t f = Some feat →
  Pool.weight_arrays mem' =
    <[TrainFeat.weights feat := rows']> (Pool.weight_arrays (mem self)) →
  Pool.meta_arrays mem' =
    <[TrainFeat.meta feat := meta']> (Pool.meta_arrays (mem self)) →
  length rows' = get_nr_rows (nr_class self) →
  Forall2 row_match rows' meta' →
  wf (set_mem mem' self).
Proof.
  intros Hwf Hfeat Hw Hm Hlen Hmatch.
  destruct (wf_feat _ Hwf _ _ _ Hfeat) as (_ & _ & Hok).
  destruct (feat_ok_addr _ _ _ Hok) as [Hwa Hma].
  constructor; try apply Hwf.
  intros t' f' feat' Hfeat'. rewrite train_feat_set_mem in Hfeat'.
  rewrite weight_addr_set_mem. change (mem (set_mem mem' self)) with mem'.
  change (nr_class (set_mem mem' self)) with (nr_class self).
  destruct (wf_feat _ Hwf _ _ _ Hfeat') as (H1 & H2 & H3).
  split; [done|]. split; [done|].
  destruct (decide (t' = t ∧ f' = f)) as [[-> ->]|Hne].
  - assert (feat' = feat) as -> by congruence.
    exists rows', meta'. rewrite Hw, Hm.
    rewrite !list_lookup_insert_eq by done. done.
  - destruct H3 as (rows & meta & Hr & Hme & Hl & Hf).
    exists rows, meta. rewrite Hw, Hm.
    rewrite !list_lookup_insert_ne; [done| |].
    + intros Heq. apply Hne.
      eapply (wf_inj _ Hwf t' f' feat' t f feat); eauto.
    + intros Heq. apply Hne.
      eapply (wf_inj _ Hwf t' f' feat' t f feat); eauto.
Qed.

(** What a feature key reads after the rows of one feature changed. *)
Lemma feature_rows_update self t f feat mem' rows' t' f' :
  wf self → train_feat self t f = Some feat →
  Pool.weight_arrays mem' =
    <[TrainFeat.weights feat := rows']> (Pool.weight_arrays (mem self)) →
  feature_rows (set_mem mem' self) t' f' =
    if decide (t' = t ∧ f' = f) then Some rows' else feature_rows self t' f'.
Proof.
  intros Hwf Hfeat Hw.
  destruct (wf_feat _ Hwf _ _ _ Hfeat) as (_ & Haddr & Hok).
  destruct (feat_ok_addr _ _ _ Hok) as [Hwa Hma].
  unfold feature_rows. rewrite weight_addr_set_mem. cbn. rewrite Hw.
  case_decide as Hd.
  - destruct Hd as [-> ->]. rewrite Haddr. cbn. by apply list_lookup_insert_eq.
  - destruct (weight_addr self t' f') as [a|] eqn:Ha; [|done]. cbn.
    apply list_lookup_insert_ne. intros <-.
    destruct (wf_keys _ Hwf t' f') as [feat' Hfeat']; [by rewrite Ha|].
    destruct (wf_feat _ Hwf _ _ _ Hfeat') as (_ & Haddr' & _).
    apply Hd. eapply (wf_inj _ Hwf t' f' feat' t f feat); eauto.
    left. congruence.
Qed.

Lemma feature_meta_update self t f feat mem' meta' t' f' :
  wf self → train_feat self t f = Some feat →
  Pool.meta_arrays mem' =
    <[TrainFeat.meta feat := meta']> (Pool.meta_arrays (mem self)) →
  feature_meta (set_mem mem' self) t' f' =
    if decide (t' = t ∧ f' = f) then Some meta' else feature_meta self t' f'.
Proof.
  intros Hwf Hfeat Hm.
  destruct (wf_feat _ Hwf _ _ _ Hfeat) as (_ & Haddr & Hok).
  destruct (feat_ok_addr _ _ _ Hok) as [Hwa Hma].
  unfold feature_meta. rewrite train_feat_set_mem. cbn. rewrite Hm.
  case_decide as Hd.
  - destruct Hd as [-> ->]. rewrite Hfeat. cbn. by apply list_lookup_insert_eq.
  - destruct (train_feat self t' f') as [feat'|] eqn:Hfeat'; [|done]. cbn.
    apply list_lookup_insert_ne. intros Heq.
    apply Hd. eapply (wf_inj _ Hwf t' f' feat' t f feat); eauto.
Qed.
(** *** One item of [update] *)

Lemma row_match_lookup rows meta row :
  Forall2 row_match rows meta → row < length rows →
  (rows !! row = Some None ∧ meta !! row = Some None) ∨
  (∃ l ml, rows !! row = Some (Some l) ∧ meta !! row = Some (Some ml) ∧
           length l = LINE_SIZE ∧ length ml = LINE_SIZE).
Proof.
  intros Hf Hrow.
  destruct (lookup_lt_is_Some_2 _ _ Hrow) as [r Hr].
  destruct (Forall2_lookup_l _ _ _ _ _ Hf Hr) as (mr & Hmr & Hm).
  destruct r as [l|], mr as [ml|]; cbn in Hm; try done.
  - right. destruct Hm. eauto 10.
  - by left.
Qed.

Lemma bind_run {S A B} (c : M S A) (k : A → M S B) s a s' :
  c s = (Return a, s') → bind c k s = k a s'.
Proof. intros H. unfold bind. by rewrite H. Qed.

Lemma bind_raise {S A B} (c : M S A) (k : A → M S B) s e s' :
  c s = (Raise e, s') → bind c k s = (Raise e, s').
Proof. intros H. unfold bind. by rewrite H. Qed.

Lemma on_mem_bind {A B} (c : M Pool.t A) (k : A → M Pool.t B) self :
  bind (on_mem c) (fun a => on_mem (k a)) self = on_mem (bind c k) self.
Proof.
  unfold bind, on_mem. destruct (c (mem self)) as [[a|e] mem']; [|done].
  cbn. by destruct (k a mem').
Qed.

(** The three helpers as [update] runs them. *)
Lemma update_tail self feat clas upd rows meta l ml w md :
  Pool.weight_arrays (mem self) !! TrainFeat.weights feat = Some rows →
  Pool.meta_arrays (mem self) !! TrainFeat.meta feat = Some meta →
  rows !! get_row clas = Some (Some l) →
  meta !! get_row clas = Some (Some ml) →
  l !! get_col clas = Some w →
  ml !! get_col clas = Some md →
  (self0 <- get;;
   on_mem (update_accumulator feat clas (time self0)) ;;;
   on_mem (update_count feat clas 1) ;;;
   on_mem (update_weight feat clas upd)) self =
    (Return tt,
     set_mem
       (Pool.mk
          (<[TrainFeat.weights feat :=
               <[get_row clas := Some (<[get_col clas := (w + upd)%Z]> l)]> rows]>
             (Pool.weight_arrays (mem self)))
          (<[TrainFeat.meta feat :=
               <[get_row clas :=
                   Some (<[get_col clas :=
                             MetaData.mk
                               (MetaData.total md + (time self - MetaData.time md) * w)
                               (MetaData.count md + 1) (time self)]> ml)]> meta]>
             (Pool.meta_arrays (mem self))))
       self).
Proof.
  intros Hr Hm Hl Hml Hw Hmd.
  assert (get_col clas < length ml) as Hcol by (by eapply lookup_lt_Some).
  assert (get_row clas < length meta) as Hrow by (by eapply lookup_lt_Some).
  assert (TrainFeat.meta feat < length (Pool.meta_arrays (mem self))) as Hma
    by (by eapply lookup_lt_Some).
  rewrite (bind_run get _ self self self) by done.
  erewrite bind_run; cycle 1.
  { apply on_mem_run. eapply update_accumulator_run; [done|done|..].
    - by erewrite cell_lookup.
    - by erewrite cell_lookup. }
  erewrite bind_run; cycle 1.
  { apply on_mem_run. eapply update_count_run.
    - cbn. by apply list_lookup_insert_eq.
    - erewrite cell_lookup.
      + rewrite list_lookup_insert_eq by done. reflexivity.
      + rewrite (store_cell_row _ _ _ _ _ Hml). by apply list_lookup_insert_eq. }
  erewrite on_mem_run; cycle 1.
  { eapply update_weight_run; [exact Hr|]. by erewrite cell_lookup. }
  unfold set_mem, Pool.set_weights, Pool.set_meta. cbn. f_equal. f_equal. f_equal.
  - by rewrite (store_cell_row _ _ _ _ _ Hl).
  - rewrite list_insert_insert_eq. f_equal.
    rewrite (store_cell_row _ _ _ _ _ Hml).
    erewrite store_cell_row by (by apply list_lookup_insert_eq).
    rewrite list_insert_insert_eq. f_equal. f_equal.
    by rewrite list_insert_insert_eq.
Qed.

(** The final arena of an item of [update] that meets an existing feature. *)
Lemma update_feature_existing self clas t f upd feat rows meta :
  wf self → upd ≠ 0%Z → f ≠ 0%N →
  train_feat self t f = Some feat →
  Pool.weight_arrays (mem self) !! TrainFeat.weights feat = Some rows →
  Pool.meta_arrays (mem self) !! TrainFeat.meta feat = Some meta →
  get_row clas < get_nr_rows (nr_class self) →
  let row := get_row clas in
  let col := get_col clas in
  let l := row_or_zeros 0%Z rows row in
  let ml := row_or_zeros MetaData.zero meta row in
  ∃ w md,
    l !! col = Some w ∧ ml !! col = Some md ∧
    update_feature clas ((t, f), upd) self =
      (Return tt,
       set_mem
         (Pool.mk
            (<[TrainFeat.weights feat :=
                 <[row := Some (<[col := (w + upd)%Z]> l)]> rows]>
               (Pool.weight_arrays (mem self)))
            (<[TrainFeat.meta feat :=
                 <[row := Some (<[col :=
                      MetaData.mk
                        (MetaData.total md + (time self - MetaData.time md) * w)
                        (MetaData.count md + 1) (time self)]> ml)]> meta]>
               (Pool.meta_arrays (mem self))))
         self).
Proof.
  intros Hwf Hupd Hf Hfeat Hrows Hmeta Hrow row col l ml.
  destruct (wf_feat _ Hwf _ _ _ Hfeat) as (_ & Haddr & Hok).
  destruct Hok as (rows0 & meta0 & Hr0 & Hm0 & Hlen & Hmatch).
  assert (rows0 = rows) as -> by congruence.
  assert (meta0 = meta) as -> by congruence.
  assert (t < length (train_weights self)) as Ht.
  { unfold train_feat in Hfeat.
    destruct (train_weights self !! t) eqn:E; [|done]. by eapply lookup_lt_Some. }
  assert (length l = LINE_SIZE ∧ length ml = LINE_SIZE) as [Hll Hlml].
  { subst l ml. unfold row_or_zeros.
    destruct (row_match_lookup rows meta row Hmatch) as [[-> ->]|(l0 & ml0 & -> & -> & ? & ?)];
      [lia|by rewrite !length_replicate|done]. }
  pose proof (get_col_lt clas) as Hcol. fold col in Hcol.
  destruct (lookup_lt_is_Some_2 l col) as [w Hw]; [lia|].
  destruct (lookup_lt_is_Some_2 ml col) as [md Hmd]; [lia|].
  exists w, md. split; [done|]. split; [done|].
  unfold update_feature.
  destruct (Z.eqb_spec upd 0) as [|_]; [done|].
  destruct (N.eqb_spec f 0) as [|_]; [done|].
  unfold bind at 1. unfold get at 1.
  unfold bind at 1.
  rewrite map_array_get_Some by done.
  change (train_weights self !! t ≫= (.!! f)) with (train_feat self t f).
  rewrite Hfeat. cbn [deref ret].
  unfold bind at 1. unfold ret at 1. unfold bind at 1. unfold get at 1.
  unfold bind at 1. rewrite Hrows. unfold deref at 1. unfold ret at 1.
  unfold bind at 1.
  destruct (row_match_lookup rows meta row Hmatch) as [[Hr Hm]|(l0 & ml0 & Hr & Hm & ? & ?)];
    [lia| |].
  - (* the row is allocated first *)
    fold row. rewrite Hr. unfold deref at 1, ret at 1.
    assert (TrainFeat.weights feat < length (Pool.weight_arrays (mem self))) as Hwa
      by (by eapply lookup_lt_Some).
    assert (TrainFeat.meta feat < length (Pool.meta_arrays (mem self))) as Hma
      by (by eapply lookup_lt_Some).
    assert (row < length meta) as Hrm
      by (rewrite <- (Forall2_length _ _ _ Hmatch); lia).
    assert (l = replicate LINE_SIZE 0%Z) as Hl0
      by (subst l; unfold row_or_zeros; by rewrite Hr).
    assert (ml = replicate LINE_SIZE MetaData.zero) as Hml0
      by (subst ml; unfold row_or_zeros; by rewrite Hm).
    erewrite bind_run; cycle 1.
    { erewrite bind_run by reflexivity.
      erewrite bind_run by reflexivity.
      erewrite bind_run; cycle 1.
      { cbn. rewrite Hmeta. reflexivity. }
      rewrite decide_True by done.
      erewrite bind_run by reflexivity. reflexivity. }
    erewrite update_tail; cycle 1.
    { cbn. by apply list_lookup_insert_eq. }
    { cbn. by apply list_lookup_insert_eq. }
    { apply list_lookup_insert_eq. lia. }
    { by apply list_lookup_insert_eq. }
    { rewrite <- Hl0. exact Hw. }
    { rewrite <- Hml0. exact Hmd. }
    unfold set_mem, Pool.set_weights, Pool.set_meta. cbn.
    rewrite !list_insert_insert_eq. by rewrite <- Hl0, <- Hml0.
  - (* the row exists *)
    fold row. rewrite Hr. unfold deref at 1, ret at 1.
    assert (l = l0) as Hl0 by (subst l; unfold row_or_zeros; by rewrite Hr).
    assert (ml = ml0) as Hml0 by (subst ml; unfold row_or_zeros; by rewrite Hm).
    erewrite bind_run by reflexivity.
    erewrite update_tail; [reflexivity|done|done|..].
    + by rewrite Hl0.
    + by rewrite Hml0.
    + done.
    + done.
Qed.
Lemma feature_row_eq self t f feat rows row :
  weight_addr self t f = Some (TrainFeat.weights feat) →
  Pool.weight_arrays (mem self) !! TrainFeat.weights feat = Some rows →
  feature_row self t f row = rows !! row ≫= id.
Proof.
  intros Ha Hr. unfold feature_row, feature_rows. rewrite Ha. cbn. rewrite Hr. cbn.
  by destruct (rows !! row).
Qed.

Lemma feature_meta_row_eq self t f feat meta row :
  train_feat self t f = Some feat →
  Pool.meta_arrays (mem self) !! TrainFeat.meta feat = Some meta →
  feature_meta_row self t f row = meta !! row ≫= id.
Proof.
  intros Ha Hr. unfold feature_meta_row, feature_meta. rewrite Ha. cbn. rewrite Hr. cbn.
  by destruct (meta !! row).
Qed.

Lemma row_or_zeros_default {A} (z : A) (rows : list (option (list A))) row :
  row_or_zeros z rows row = default (replicate LINE_SIZE z) (rows !! row ≫= id).
Proof. unfold row_or_zeros. by destruct (rows !! row) as [[]|]. Qed.

Lemma same_config_refl s : same_config s s.
Proof. by repeat split. Qed.

Lemma same_config_trans s1 s2 s3 :
  same_config s1 s2 → same_config s2 s3 → same_config s1 s3.
Proof. unfold same_config. intuition congruence. Qed.

Lemma same_config_set_mem s mem' : same_config s (set_mem mem' s).
Proof. by repeat split. Qed.

(** An item of [update] for a feature that the model already has. *)
Lemma update_feature_known self clas t f upd feat :
  wf self → upd ≠ 0%Z → f ≠ 0%N →
  train_feat self t f = Some feat →
  get_row clas < get_nr_rows (nr_class self) →
  let row := get_row clas in
  let col := get_col clas in
  let l := default (replicate LINE_SIZE 0%Z) (feature_row self t f row) in
  let ml := default (replicate LINE_SIZE MetaData.zero)
                    (feature_meta_row self t f row) in
  ∃ self' w md,
    l !! col = Some w ∧ ml !! col = Some md ∧
    update_feature clas ((t, f), upd) self = (Return tt, self') ∧
    wf self' ∧ same_config self self' ∧
    (∀ t' f', train_feat self' t' f' = train_feat self t' f') ∧
    (∀ t' f' row',
        feature_row self' t' f' row' =
          if decide (t' = t ∧ f' = f ∧ row' = row)
          then Some (<[col := (w + upd)%Z]> l)
          else feature_row self t' f' row') ∧
    (∀ t' f' row',
        feature_meta_row self' t' f' row' =
          if decide (t' = t ∧ f' = f ∧ row' = row)
          then Some (<[col := MetaData.mk
                                (MetaData.total md + (time self - MetaData.time md) * w)
                                (MetaData.count md + 1) (time self)]> ml)
          else feature_meta_row self t' f' row').
Proof.
  intros Hwf Hupd Hf Hfeat Hrow row col l ml.
  destruct (wf_feat _ Hwf _ _ _ Hfeat) as (_ & Haddr & Hok).
  destruct Hok as (rows & meta & Hr & Hm & Hlen & Hmatch).
  destruct (update_feature_existing self clas t f upd feat rows meta)
    as (w & md & Hw & Hmd & Hrun); try done.
  fold row col in Hw, Hmd, Hrun.
  assert (l = row_or_zeros 0%Z rows row) as Hl.
  { subst l. by rewrite (feature_row_eq _ _ _ _ _ _ Haddr Hr), row_or_zeros_default. }
  assert (ml = row_or_zeros MetaData.zero meta row) as Hml.
  { subst ml. by rewrite (feature_meta_row_eq _ _ _ _ _ _ Hfeat Hm), row_or_zeros_default. }
  rewrite <- Hl in Hw. rewrite <- Hml in Hmd. rewrite <- Hl, <- Hml in Hrun.
  assert (length l = LINE_SIZE ∧ length ml = LINE_SIZE) as [Hll Hlml].
  { rewrite Hl, Hml. unfold row_or_zeros.
    destruct (row_match_lookup rows meta row Hmatch) as [[-> ->]|(l0 & ml0 & -> & -> & ? & ?)];
      [lia|by rewrite !length_replicate|done]. }
  eexists _, w, md. split; [done|]. split; [done|]. split; [exact Hrun|].
  split.
  { eapply wf_feat_update; [done|exact Hfeat|reflexivity|reflexivity| |].
    - by rewrite length_insert.
    - apply Forall2_insert; [done|]. cbn. by rewrite !length_insert. }
  split; [apply same_config_set_mem|].
  split; [done|].
  split.
  - intros t' f' row'. unfold feature_row at 1.
    erewrite feature_rows_update; [|done|exact Hfeat|reflexivity].
    destruct (decide (t' = t ∧ f' = f)) as [[-> ->]|Hne].
    + cbn. destruct (decide (row' = row)) as [->|Hnr].
      * rewrite decide_True by done.
        rewrite list_lookup_insert_eq by lia. done.
      * rewrite decide_False by (intros (_ & _ & ?); done).
        rewrite list_lookup_insert_ne by done.
        rewrite (feature_row_eq _ _ _ _ _ _ Haddr Hr). by destruct (rows !! row').
    + rewrite decide_False by (intros (? & ? & _); by apply Hne). done.
  - intros t' f' row'. unfold feature_meta_row at 1.
    erewrite feature_meta_update; [|done|exact Hfeat|reflexivity].
    pose proof (Forall2_length _ _ _ Hmatch) as Hlm.
    destruct (decide (t' = t ∧ f' = f)) as [[-> ->]|Hne].
    + cbn. destruct (decide (row' = row)) as [->|Hnr].
      * rewrite decide_True by done.
        rewrite list_lookup_insert_eq by lia. done.
      * rewrite decide_False by (intros (_ & _ & ?); done).
        rewrite list_lookup_insert_ne by done.
        rewrite (feature_meta_row_eq _ _ _ _ _ _ Hfeat Hm). by destruct (meta !! row').
    + rewrite decide_False by (intros (? & ? & _); by apply Hne). done.
Qed.
(** A new feature reads as no row at all. *)
Lemma new_feat_rows self t f self' feat :
  wf self → t < nr_templates self → f ≠ 0%N → train_feat self t f = None →
  new_feat t f self = (Return feat, self') →
  wf self' ∧ same_config self self' ∧
  train_feat self' t f = Some feat ∧
  (∀ t' f', (t', f') ≠ (t, f) → train_feat self' t' f' = train_feat self t' f') ∧
  (∀ t' f' row', feature_row self' t' f' row' = feature_row self t' f' row') ∧
  (∀ t' f' row', feature_meta_row self' t' f' row' = feature_meta_row self t' f' row').
Proof.
  intros Hwf Ht Hf Hnone Hrun.
  destruct (new_feat_spec self t f Hwf Ht Hf Hnone)
    as (s1 & Hrun1 & Hwf1 & Hc1 & Hc2 & Hc3 & Hc4 & Hc5 & Hc6 & Hc7 & Hc8 & Hmem
        & Htf & Hwa).
  rewrite Hrun1 in Hrun. injection Hrun as <- <-.
  split; [done|]. split; [by repeat split|].
  split; [by rewrite Htf, decide_True|].
  split.
  { intros t' f' Hne. rewrite Htf, decide_False; [done|]. intros [-> ->]. done. }
  assert (weight_addr self t f = None) as Hwnone.
  { destruct (weight_addr self t f) eqn:E; [|done].
    destruct (wf_keys _ Hwf t f) as [? ?]; [by rewrite E|congruence]. }
  split.
  - intros t' f' row'. unfold feature_row, feature_rows. rewrite Hwa, Hmem.
    case_decide as Hd.
    + destruct Hd as [-> ->]. rewrite Hwnone. cbn.
      rewrite list_lookup_middle by done. cbn.
      destruct (replicate _ _ !! row') eqn:E; [|done].
      apply lookup_replicate in E as [-> _]. done.
    + destruct (weight_addr self t' f') as [a|] eqn:Ha; [|done]. cbn.
      destruct (wf_keys _ Hwf t' f') as [feat' Hfeat']; [by rewrite Ha|].
      destruct (wf_feat _ Hwf _ _ _ Hfeat') as (_ & Haddr' & Hok).
      apply feat_ok_addr in Hok as [Hlt _].
      assert (a = TrainFeat.weights feat') as -> by congruence.
      by rewrite lookup_app_l.
  - intros t' f' row'. unfold feature_meta_row, feature_meta. rewrite Htf, Hmem.
    case_decide as Hd.
    + destruct Hd as [-> ->]. rewrite Hnone. cbn.
      rewrite list_lookup_middle by done. cbn.
      destruct (replicate _ _ !! row') eqn:E; [|done].
      apply lookup_replicate in E as [-> _]. done.
    + destruct (train_feat self t' f') as [feat'|] eqn:Hfeat'; [|done]. cbn.
      destruct (wf_feat _ Hwf _ _ _ Hfeat') as (_ & Haddr' & Hok).
      apply feat_ok_addr in Hok as [_ Hlt].
      by rewrite lookup_app_l.
Qed.

(** An item of [update] for an unknown feature creates it and goes on as
    for a known one. *)
Lemma update_feature_unknown self clas t f upd feat self' :
  upd ≠ 0%Z → f ≠ 0%N → t < length (train_weights self) →
  train_feat self t f = None →
  new_feat t f self = (Return feat, self') →
  t < length (train_weights self') →
  train_feat self' t f = Some feat →
  update_feature clas ((t, f), upd) self = update_feature clas ((t, f), upd) self'.
Proof.
  intros Hupd Hf Ht Hnone Hnew Ht' Hfeat. unfold update_feature.
  destruct (Z.eqb_spec upd 0) as [|_]; [done|].
  destruct (N.eqb_spec f 0) as [|_]; [done|].
  rewrite (bind_run get _ self self self) by done.
  rewrite (bind_run get _ self' self' self') by done.
  rewrite !map_array_get_Some by done.
  change (train_weights self !! t ≫= (.!! f)) with (train_feat self t f).
  change (train_weights self' !! t ≫= (.!! f)) with (train_feat self' t f).
  rewrite Hnone, Hfeat. cbn [deref].
  rewrite (bind_run (ret None) _ self None self) by done.
  rewrite (bind_run (ret (Some feat)) _ self' (Some feat) self') by done.
  rewrite (bind_run _ _ _ _ _ Hnew).
  by rewrite (bind_run (ret feat) _ self' feat self').
Qed.

(** An item of [update] with a non-zero delta for a feature key and a class
    that are in range: the addressed weight gets the delta, its metadata is
    fast-forwarded to the time of the call and counts one more update, and
    no other row of any feature changes. *)
Lemma update_feature_spec self clas t f upd :
  wf self → upd ≠ 0%Z → f ≠ 0%N →
  t < nr_templates self →
  get_row clas < get_nr_rows (nr_class self) →
  let row := get_row clas in
  let col := get_col clas in
  let l := default (replicate LINE_SIZE 0%Z) (feature_row self t f row) in
  let ml := default (replicate LINE_SIZE MetaData.zero)
                    (feature_meta_row self t f row) in
  ∃ self' w md,
    l !! col = Some w ∧ ml !! col = Some md ∧
    update_feature clas ((t, f), upd) self = (Return tt, self') ∧
    wf self' ∧ same_config self self' ∧
    (∀ t' f' row',
        feature_row self' t' f' row' =
          if decide (t' = t ∧ f' = f ∧ row' = row)
          then Some (<[col := (w + upd)%Z]> l)
          else feature_row self t' f' row') ∧
    (∀ t' f' row',
        feature_meta_row self' t' f' row' =
          if decide (t' = t ∧ f' = f ∧ row' = row)
          then Some (<[col := MetaData.mk
                                (MetaData.total md + (time self - MetaData.time md) * w)
                                (MetaData.count md + 1) (time self)]> ml)
          else feature_meta_row self t' f' row').
Proof.
  intros Hwf Hupd Hf Ht Hrow row col l ml.
  destruct (train_feat self t f) as [feat|] eqn:Hfeat.
  - destruct (update_feature_known self clas t f upd feat Hwf Hupd Hf Hfeat Hrow)
      as (self' & w & md & H1 & H2 & H3 & H4 & H5 & _ & H6 & H7).
    exists self', w, md. done.
  - destruct (new_feat_spec self t f Hwf Ht Hf Hfeat) as (s1 & Hnew & _).
    destruct (new_feat_rows self t f s1 _ Hwf Ht Hf Hfeat Hnew)
      as (Hwf1 & Hc1 & Hfeat1 & _ & Hrows1 & Hmeta1).
    destruct (update_feature_known s1 clas t f upd _ Hwf1 Hupd Hf Hfeat1)
      as (self' & w & md & H1 & H2 & H3 & H4 & H5 & _ & H6 & H7).
    { destruct Hc1 as (-> & _). done. }
    fold row col in H1, H2, H6, H7.
    rewrite Hrows1 in H1. rewrite Hmeta1 in H2.
    exists self', w, md. split; [done|]. split; [done|]. split.
    { erewrite update_feature_unknown; [exact H3|done|done| |done|exact Hnew| |done].
      - by rewrite (wf_train_len _ Hwf).
      - rewrite (wf_train_len _ Hwf1). by destruct Hc1 as (_ & -> & _). }
    split; [done|]. split; [by eapply same_config_trans|].
    split.
    + intros t' f' row'. rewrite H6, !Hrows1. done.
    + intros t' f' row'. rewrite H7, !Hmeta1.
      destruct Hc1 as (_ & _ & -> & _). done.
Qed.
Lemma update_feature_row_fault self clas t f upd feat :
  wf self → upd ≠ 0%Z → f ≠ 0%N →
  train_feat self t f = Some feat →
  ¬ get_row clas < get_nr_rows (nr_class self) →
  update_feature clas ((t, f), upd) self = (Raise MemoryFault, self).
Proof.
  intros Hwf Hupd Hf Hfeat Hrow.
  destruct (wf_feat _ Hwf _ _ _ Hfeat) as (_ & Haddr & Hok).
  destruct Hok as (rows & meta & Hr & Hm & Hlen & Hmatch).
  assert (t < length (train_weights self)) as Ht.
  { unfold train_feat in Hfeat.
    destruct (train_weights self !! t) eqn:E; [|done]. by eapply lookup_lt_Some. }
  unfold update_feature.
  destruct (Z.eqb_spec upd 0) as [|_]; [done|].
  destruct (N.eqb_spec f 0) as [|_]; [done|].
  rewrite (bind_run get _ self self self) by done.
  rewrite map_array_get_Some by done.
  change (train_weights self !! t ≫= (.!! f)) with (train_feat self t f).
  rewrite Hfeat. cbn [deref].
  rewrite (bind_run (ret (Some feat)) _ self (Some feat) self) by done.
  rewrite (bind_run (ret feat) _ self feat self) by done.
  rewrite (bind_run get _ self self self) by done.
  rewrite Hr. cbn [deref].
  rewrite (bind_run (ret rows) _ self rows self) by done.
  rewrite lookup_ge_None_2 by lia. done.
Qed.

(** Every item of [update] keeps the invariant, whatever its outcome. *)
Lemma update_feature_wf self clas item :
  wf self →
  wf (update_feature clas item self).2 ∧
  nr_class (update_feature clas item self).2 = nr_class self ∧
  nr_templates (update_feature clas item self).2 = nr_templates self.
Proof.
  intros Hwf. destruct item as [[t f] upd].
  destruct (decide (upd = 0%Z)) as [->|Hupd].
  { by rewrite update_feature_zero. }
  destruct (decide (f = 0%N)) as [->|Hf].
  { unfold update_feature. destruct (Z.eqb_spec upd 0) as [|_]; done. }
  destruct (decide (t < nr_templates self)) as [Ht|Ht].
  - destruct (decide (get_row clas < get_nr_rows (nr_class self))) as [Hrow|Hrow].
    + destruct (update_feature_spec self clas t f upd Hwf Hupd Hf Ht Hrow)
        as (self' & w & md & _ & _ & -> & Hwf' & Hc & _).
      cbn. split; [done|]. by destruct Hc as (-> & -> & _).
    + destruct (train_feat self t f) as [feat|] eqn:Hfeat.
      * by rewrite (update_feature_row_fault _ _ _ _ _ _ Hwf Hupd Hf Hfeat Hrow).
      * destruct (new_feat_spec self t f Hwf Ht Hf Hfeat) as (s1 & Hnew & _).
        destruct (new_feat_rows self t f s1 _ Hwf Ht Hf Hfeat Hnew)
          as (Hwf1 & Hc1 & Hfeat1 & _).
        destruct Hc1 as (Hnc & Hnt & _).
        erewrite update_feature_unknown; [|done|done| |done|exact Hnew| |done].
        -- rewrite (update_feature_row_fault _ _ _ _ _ _ Hwf1 Hupd Hf Hfeat1);
             [done|by rewrite Hnc].
        -- by rewrite (wf_train_len _ Hwf).
        -- by rewrite (wf_train_len _ Hwf1), Hnt.
  - unfold update_feature.
    destruct (Z.eqb_spec upd 0) as [|_]; [done|].
    destruct (N.eqb_spec f 0) as [|_]; [done|].
    rewrite (bind_run get _ self self self) by done.
    rewrite map_array_get_None; [done|]. rewrite (wf_train_len _ Hwf). lia.
Qed.

Lemma for_each_inv {S A} (I : S → Prop) (xs : list A) (body : A → M S unit) s :
  (∀ x s, I s → I (body x s).2) → I s → I (for_each xs body s).2.
Proof.
  intros Hbody. revert s. induction xs as [|x xs IH]; intros s Hs; [done|].
  cbn. unfold bind. specialize (Hbody x s Hs).
  destruct (body x s) as [[[]|e] s']; cbn in *; [by apply IH|done].
Qed.

Lemma update_wf self updates :
  wf self →
  wf (update updates self).2 ∧
  nr_class (update updates self).2 = nr_class self ∧
  nr_templates (update updates self).2 = nr_templates self.
Proof.
  intros Hwf. unfold update.
  rewrite (bind_run (modify _) _ self tt (set_time (time self + 1) self)) by done.
  apply (for_each_inv (fun s => wf s ∧ nr_class s = nr_class self ∧
                                nr_templates s = nr_templates self)).
  - intros [clas features] s Hs.
    apply (for_each_inv (fun s => wf s ∧ nr_class s = nr_class self ∧
                                  nr_templates s = nr_templates self)); [|done].
    intros item s' (Hwf' & Hnc & Hnt).
    destruct (update_feature_wf s' clas item Hwf') as (H1 & H2 & H3).
    split; [done|]. split; congruence.
  - split; [|done]. constructor; try apply Hwf.
Qed.
(** *** The final averaging *)

Lemma keeps_shape_bind {A B} (c : M Pool.t A) (k : A → M Pool.t B) :
  keeps_shape c → (∀ a, keeps_shape (k a)) → keeps_shape (bind c k).
Proof.
  intros Hc Hk mem. unfold bind. specialize (Hc mem).
  destruct (c mem) as [[a|e] mem1]; cbn in *; [|done].
  eapply same_shape_trans; [exact Hc|apply Hk].
Qed.

Lemma keeps_shape_for_each {A} (xs : list A) (body : A → M Pool.t unit) :
  (∀ x, keeps_shape (body x)) → keeps_shape (for_each xs body).
Proof.
  intros Hbody. induction xs as [|x xs IH]; cbn.
  - intros mem. apply same_shape_refl.
  - apply keeps_shape_bind; [apply Hbody|]. intros _. apply IH.
Qed.

Lemma keeps_shape_average_cell feat tm row col :
  keeps_shape (average_cell feat tm row col).
Proof.
  intros mem. unfold average_cell, bind, get, deref, put, ret, raise.
  destruct (Pool.weight_arrays mem !! TrainFeat.weights feat) as [rows|] eqn:Hr;
    cbn; [|apply same_shape_refl].
  destruct (Pool.meta_arrays mem !! TrainFeat.meta feat) as [meta|] eqn:Hm;
    cbn; [|apply same_shape_refl].
  destruct (cell meta row col) as [md|] eqn:Hc; cbn; [|apply same_shape_refl].
  destruct (cell rows row col) as [w|] eqn:Hcw; cbn; [|apply same_shape_refl].
  rewrite (set_cell_store _ _ _ _ _ Hc). cbn.
  rewrite (set_cell_store _ _ _ _ _ Hcw). cbn.
  eapply same_shape_trans.
  - eapply same_shape_set_weights; [done|]. apply store_cell_same.
  - eapply same_shape_set_meta; [done|]. apply store_cell_same.
Qed.

Lemma keeps_shape_average_weight feat nc tm :
  keeps_shape (average_weight feat nc tm).
Proof.
  unfold average_weight. apply keeps_shape_for_each. intros row.
  apply keeps_shape_bind; [intros mem; apply same_shape_refl|]. intros mem0.
  apply keeps_shape_bind.
  { intros mem. unfold deref. destruct (_ !! _); apply same_shape_refl. }
  intros rows. apply keeps_shape_bind.
  { intros mem. unfold deref. destruct (_ !! _); apply same_shape_refl. }
  intros [r|].
  - apply keeps_shape_for_each. intros col. apply keeps_shape_average_cell.
  - intros mem. apply same_shape_refl.
Qed.

Lemma on_mem_keeps_shape {A} (c : M Pool.t A) self :
  keeps_shape c → wf self →
  wf (on_mem c self).2 ∧ same_maps self (on_mem c self).2.
Proof.
  intros Hc Hwf. unfold on_mem. specialize (Hc (mem self)).
  destruct (c (mem self)) as [r mem']. cbn in *.
  split; [by apply wf_same_shape|]. by repeat split.
Qed.

Lemma same_maps_refl s : same_maps s s.
Proof. by repeat split. Qed.

Lemma same_maps_trans s1 s2 s3 : same_maps s1 s2 → same_maps s2 s3 → same_maps s1 s3.
Proof.
  intros (H1 & H2 & H3) (H4 & H5 & H6). split; [by eapply same_config_trans|].
  split; congruence.
Qed.

Lemma end_training_wf self :
  wf self → wf (end_training self).2 ∧ same_maps self (end_training self).2.
Proof.
  intros Hwf. unfold end_training.
  rewrite (bind_run get _ self self self) by done.
  apply (for_each_inv (fun s => wf s ∧ same_maps self s)); [|by split; [|apply same_maps_refl]].
  intros template_id s [Hs Hm].
  rewrite (bind_run get _ s s s) by done.
  destruct (train_weights s !! template_id) as [map_|]; cbn [deref]; [|done].
  rewrite (bind_run (ret map_) _ s map_ s) by done.
  apply (for_each_inv (fun s => wf s ∧ same_maps self s)); [|done].
  intros [key feat] s' [Hs' Hm'].
  destruct (key =? 0)%N; [done|].
  rewrite (bind_run get _ s' s' s') by done.
  destruct (on_mem_keeps_shape (average_weight feat (nr_class s') (time s')) s'
              (keeps_shape_average_weight _ _ _) Hs') as [H1 H2].
  split; [done|]. by eapply same_maps_trans.
Qed.
(** ** Scoring *)

Lemma add_at_length scores i v scores' :
  add_at scores i v = Some scores' → length scores' = length scores.
Proof.
  unfold add_at. destruct (scores !! i); cbn; [|done].
  intros [= <-]. by rewrite length_insert.
Qed.

Lemma add_cols_Some start line cols scores :
  Forall (fun col => col < length line ∧ start + col < length scores) cols →
  ∃ scores', add_cols start line cols scores = Some scores' ∧
             length scores' = length scores.
Proof.
  unfold add_cols. revert scores.
  induction cols as [|col cols IH]; intros scores Hcols; [by eexists|].
  apply Forall_cons in Hcols as [[Hc Hs] Hcols]. cbn.
  destruct (lookup_lt_is_Some_2 line col Hc) as [v Hv].
  destruct (lookup_lt_is_Some_2 scores (start + col) Hs) as [x Hx].
  unfold add_col at 2. rewrite Hv. cbn. unfold add_at. rewrite Hx. cbn.
  destruct (IH (<[start + col := (x + v)%Z]> scores)) as (scores' & H1 & H2).
  { rewrite length_insert. done. }
  exists scores'. split; [done|]. by rewrite H2, length_insert.
Qed.

Lemma add_cols_length start line cols scores scores' :
  add_cols start line cols scores = Some scores' → length scores' = length scores.
Proof.
  unfold add_cols. revert scores.
  induction cols as [|col cols IH]; intros scores; cbn; [by intros [= <-]|].
  destruct (add_col start line scores col) as [s1|] eqn:E.
  - intros H. rewrite (IH _ H). unfold add_col in E.
    destruct (line !! col); cbn in E; [|done]. by eapply add_at_length.
  - intros H. exfalso. revert H. clear. induction cols; cbn; [done|]. done.
Qed.

Lemma add_line_None nc wl : add_line nc None wl = None.
Proof. done. Qed.

Lemma foldl_add_line_None nc lines : foldl (add_line nc) None lines = None.
Proof. induction lines; cbn; done. Qed.

Lemma add_line_unfold nc scores wl :
  add_line nc (Some scores) wl =
    if WeightLine.start wl + LINE_SIZE <? nc
    then add_cols (WeightLine.start wl) (WeightLine.line wl) [0; 1; 2; 3; 4; 5; 6] scores
    else add_cols (WeightLine.start wl) (WeightLine.line wl)
                  (seq 0 (nc - WeightLine.start wl)) scores.
Proof. reflexivity. Qed.

(** A line of [LINE_SIZE] weights is always added within the scores. *)
Lemma add_line_Some nc scores wl :
  length scores = nc → length (WeightLine.line wl) = LINE_SIZE →
  ∃ scores', add_line nc (Some scores) wl = Some scores' ∧ length scores' = nc.
Proof.
  intros Hs Hl. rewrite add_line_unfold.
  destruct (Nat.ltb_spec (WeightLine.start wl + LINE_SIZE) nc) as [Hlt|Hge].
  - destruct (add_cols_Some (WeightLine.start wl) (WeightLine.line wl)
                [0; 1; 2; 3; 4; 5; 6] scores) as (s' & H1 & H2).
    { rewrite Hl, Hs. unfold LINE_SIZE in *. repeat constructor; lia. }
    exists s'. split; [done|lia].
  - destruct (add_cols_Some (WeightLine.start wl) (WeightLine.line wl)
                (seq 0 (nc - WeightLine.start wl)) scores) as (s' & H1 & H2).
    { rewrite Hl, Hs. apply Forall_forall. intros col Hcol.
      apply elem_of_seq in Hcol. lia. }
    exists s'. split; [done|lia].
Qed.

Lemma scores_of_Some nc lines :
  Forall (fun wl => length (WeightLine.line wl) = LINE_SIZE) lines →
  ∃ scores, scores_of nc lines = Some scores ∧ length scores = nc.
Proof.
  unfold scores_of.
  assert (∀ s0, length s0 = nc →
     Forall (fun wl => length (WeightLine.line wl) = LINE_SIZE) lines →
     ∃ scores, foldl (add_line nc) (Some s0) lines = Some scores ∧ length scores = nc)
    as H; [|by apply H, length_replicate].
  induction lines as [|wl lines IH]; intros s0 Hs0 Hl; [by eexists|].
  apply Forall_cons in Hl as [Hwl Hl]. cbn [foldl].
  destruct (add_line_Some nc s0 wl Hs0 Hwl) as (s1 & -> & Hs1).
  by apply IH.
Qed.

(** [set_scores] zeroes the scores and adds the first [nr_rows] lines. *)
Lemma set_scores_fold scores weight_lines nr_rows nc :
  length scores = nc → nr_rows ≤ length weight_lines →
  set_scores scores weight_lines nr_rows nc = scores_of nc (take nr_rows weight_lines).
Proof.
  intros Hs Hn. unfold set_scores, scores_of.
  rewrite decide_True by lia. cbn [mbind option_bind].
  rewrite drop_ge by lia. rewrite app_nil_r.
  generalize (Some (replicate nc 0%Z)) as acc.
  induction nr_rows as [|k IH]; intros acc; [done|].
  destruct (lookup_lt_is_Some_2 weight_lines k) as [wl Hwl]; [lia|].
  rewrite seq_S, foldl_app, (take_S_r _ _ _ Hwl), foldl_app. cbn [foldl].
  rewrite IH by lia. cbn.
  destruct (foldl (add_line nc) acc (take k weight_lines)); cbn; [|done].
  by rewrite Hwl.
Qed.
(** *** Gathering *)

Lemma insert_front {A} (Q : list A) x (wl : list A) :
  length Q < length wl →
  <[length Q := x]> (Q ++ drop (length Q) wl) =
    (Q ++ [x]) ++ drop (length (Q ++ [x])) wl.
Proof.
  intros Hlt. destruct (lookup_lt_is_Some_2 wl (length Q) Hlt) as [y Hy].
  rewrite (drop_S _ _ _ Hy).
  rewrite insert_app_r_alt by lia. rewrite Nat.sub_diag. cbn.
  rewrite length_app. cbn. rewrite <- app_assoc. cbn.
  by rewrite Nat.add_1_r.
Qed.

Lemma lines_of_rows_S rows m :
  lines_of_rows rows (S m) =
    lines_of_rows rows m ++
      match rows !! m with
      | Some (Some l) => [WeightLine.mk (m * LINE_SIZE) l]
      | _ => []
      end.
Proof.
  unfold lines_of_rows. rewrite seq_S, flat_map_app. cbn. by rewrite app_nil_r.
Qed.

Lemma lines_of_rows_length rows m : length (lines_of_rows rows m) ≤ m.
Proof.
  induction m as [|m IH]; [done|]. rewrite lines_of_rows_S, length_app.
  destruct (rows !! m) as [[l|]|]; cbn; lia.
Qed.

Lemma lines_of_rows_line rows m :
  (∀ row r, rows !! row = Some (Some r) → length r = LINE_SIZE) →
  Forall (fun wl => length (WeightLine.line wl) = LINE_SIZE) (lines_of_rows rows m).
Proof.
  intros Hrows. induction m as [|m IH]; [constructor|].
  rewrite lines_of_rows_S. apply Forall_app. split; [done|].
  destruct (rows !! m) as [[l|]|] eqn:E; repeat constructor. cbn. by eapply Hrows.
Qed.

Lemma gather_rows_spec rows m Q (wl : list WeightLine.t) :
  m ≤ length rows →
  length Q + length (lines_of_rows rows m) ≤ length wl →
  foldl (gather_row rows) (Some (length Q, Q ++ drop (length Q) wl)) (seq 0 m) =
    Some (length (Q ++ lines_of_rows rows m),
          (Q ++ lines_of_rows rows m) ++ drop (length (Q ++ lines_of_rows rows m)) wl).
Proof.
  induction m as [|m IH]; intros Hm Hlen.
  - cbn. by rewrite app_nil_r.
  - rewrite lines_of_rows_S in *. rewrite length_app in Hlen.
    rewrite seq_S, foldl_app, IH by lia. cbn [foldl]. change (0 + m) with m.
    destruct (lookup_lt_is_Some_2 rows m) as [r Hr]; [lia|].
    unfold gather_row. cbn [mbind option_bind]. rewrite Hr. cbn [mbind option_bind].
    rewrite Hr in Hlen.
    destruct r as [l|].
    + cbn in Hlen.
      rewrite decide_True; cycle 1.
      { rewrite !length_app, length_drop, ?length_app. lia. }
      rewrite insert_front by (rewrite length_app; lia).
      rewrite <- !app_assoc. rewrite !length_app. cbn.
      by rewrite Nat.add_assoc.
    + by rewrite app_nil_r.
Qed.

Lemma feature_lines_length self feat_ids template_id :
  length (feature_lines self feat_ids template_id) ≤ get_nr_rows (nr_class self).
Proof.
  unfold feature_lines. destruct (feat_ids !! template_id) as [f|]; [|cbn; lia].
  destruct (f =? 0)%N; [cbn; lia|].
  destruct (feature_rows self template_id f); [|cbn; lia].
  apply lines_of_rows_length.
Qed.

Lemma gathered_S self feat_ids n :
  gathered self feat_ids (S n) = gathered self feat_ids n ++ feature_lines self feat_ids n.
Proof. unfold gathered. rewrite seq_S, flat_map_app. cbn. by rewrite app_nil_r. Qed.

Lemma gathered_length self feat_ids n :
  length (gathered self feat_ids n) ≤ n * get_nr_rows (nr_class self).
Proof.
  induction n as [|n IH]; [done|]. rewrite gathered_S, length_app.
  pose proof (feature_lines_length self feat_ids n). lia.
Qed.

Lemma gathered_line self feat_ids n :
  scorable self →
  Forall (fun wl => length (WeightLine.line wl) = LINE_SIZE) (gathered self feat_ids n).
Proof.
  intros Hsc. induction n as [|n IH]; [constructor|].
  rewrite gathered_S. apply Forall_app. split; [done|].
  unfold feature_lines. destruct (feat_ids !! n) as [f|]; [|constructor].
  destruct (f =? 0)%N; [constructor|].
  destruct (feature_rows self n f) as [rows|] eqn:E; [|constructor].
  apply lines_of_rows_line. unfold feature_rows in E.
  destruct (weight_addr self n f) as [a|] eqn:Ha; [|done]. cbn in E.
  destruct (sc_rows _ Hsc _ _ _ Ha) as (rows' & Hr & _ & Hl).
  assert (rows' = rows) as -> by congruence. done.
Qed.

(** [gather_weights] writes the gathered lines at the front of the buffer. *)
Lemma gather_weights_spec self (wl : list WeightLine.t) feat_ids n :
  scorable self → n ≤ length feat_ids → n ≤ nr_templates self →
  nr_templates self * get_nr_rows (nr_class self) ≤ length wl →
  gather_weights self wl feat_ids n =
    Some (length (gathered self feat_ids n),
          gathered self feat_ids n ++ drop (length (gathered self feat_ids n)) wl).
Proof.
  intros Hsc Hn Hnt Hwl. unfold gather_weights.
  induction n as [|n IH]; [done|].
  rewrite seq_S, foldl_app, IH by lia. cbn [foldl]. change (0 + n) with n.
  rewrite gathered_S.
  assert (length (gathered self feat_ids n) + get_nr_rows (nr_class self) ≤ length wl)
    as Hroom.
  { pose proof (gathered_length self feat_ids n).
    assert ((n + 1) * get_nr_rows (nr_class self)
            ≤ nr_templates self * get_nr_rows (nr_class self))
      by (apply Nat.mul_le_mono_r; lia). lia. }
  unfold gather_feature, feature_lines. cbn [mbind option_bind].
  destruct (lookup_lt_is_Some_2 feat_ids n) as [f Hf]; [lia|].
  rewrite Hf. cbn [mbind option_bind].
  destruct (f =? 0)%N; [by rewrite app_nil_r|].
  rewrite map_array_get_Some by (rewrite (sc_weights_len _ Hsc); lia).
  cbn [mbind option_bind].
  unfold feature_rows.
  change (weights self !! n ≫= (.!! f)) with (weight_addr self n f).
  destruct (weight_addr self n f) as [a|] eqn:Ha; cbn [mbind option_bind];
    [|by rewrite app_nil_r].
  destruct (sc_rows _ Hsc _ _ _ Ha) as (rows & Hr & Hlen & Hl).
  rewrite Hr. cbn [mbind option_bind].
  apply gather_rows_spec; [lia|].
  pose proof (lines_of_rows_length rows (get_nr_rows (nr_class self))). lia.
Qed.
(** *** Buffers keep their length *)

Lemma foldl_opt_inv {S A} (P : S → Prop) (f : option S → A → option S) xs s0 s' :
  (∀ x, f None x = None) →
  (∀ s x s1, P s → f (Some s) x = Some s1 → P s1) →
  P s0 → foldl f (Some s0) xs = Some s' → P s'.
Proof.
  intros HNone Hstep. revert s0.
  induction xs as [|x xs IH]; intros s0 Hs0; cbn; [by intros [= <-]|].
  destruct (f (Some s0) x) as [s1|] eqn:E.
  - apply IH. by eapply Hstep.
  - intros H. exfalso. revert H. clear -HNone.
    induction xs as [|y ys IH]; cbn; [done|]. by rewrite HNone.
Qed.

Lemma gather_weights_length self wl feat_ids n f_i wl' :
  gather_weights self wl feat_ids n = Some (f_i, wl') → length wl' = length wl.
Proof.
  unfold gather_weights.
  apply (foldl_opt_inv (fun acc => length acc.2 = length wl)); [done| |done].
  intros [f0 w0] template_id [f1 w1] Hw0. unfold gather_feature.
  cbn [mbind option_bind].
  destruct (feat_ids !! template_id) as [f|]; cbn [mbind option_bind]; [|done].
  destruct (f =? 0)%N; [by intros [= <- <-]|].
  destruct (map_array_get (weights self) template_id f) as [[a|]|];
    cbn [mbind option_bind]; [|by intros [= <- <-]|done].
  destruct (Pool.weight_arrays (mem self) !! a) as [rows|];
    cbn [mbind option_bind]; [|done].
  apply (foldl_opt_inv (fun acc => length acc.2 = length wl)); [done| |done].
  intros [f2 w2] row [f3 w3] Hw2. unfold gather_row. cbn [mbind option_bind].
  destruct (rows !! row) as [[l|]|]; cbn [mbind option_bind];
    [|by intros [= <- <-]|done].
  case_decide; [|done]. intros [= <- <-]. cbn in *. by rewrite length_insert.
Qed.

Lemma set_scores_length scores weight_lines nr_rows nc scores' :
  set_scores scores weight_lines nr_rows nc = Some scores' →
  length scores' = length scores.
Proof.
  unfold set_scores. case_decide as Hnc; cbn [mbind option_bind]; [|done].
  apply (foldl_opt_inv (fun acc => length acc = length scores)); [done| |].
  - intros s row s1 Hs. cbn [mbind option_bind].
    destruct (weight_lines !! row) as [wl|]; cbn [mbind option_bind]; [|done].
    destruct (_ <? _); intros H%add_cols_length; congruence.
  - rewrite length_app, length_replicate, length_drop. lia.
Qed.

(** *** Scoring as a whole *)

(** Scoring writes the gather buffer and the score buffer only. *)
Lemma call_frame self py_feats :
  let self' := (call py_feats self).2 in
  total self' = total self ∧ n_corr self' = n_corr self ∧
  nr_class self' = nr_class self ∧ nr_templates self' = nr_templates self ∧
  time self' = time self ∧ cache self' = cache self ∧
  weights self' = weights self ∧ train_weights self' = train_weights self ∧
  mem self' = mem self ∧
  length (_weight_lines self') = length (_weight_lines self) ∧
  length (scores self') = length (scores self).
Proof.
  unfold call, score, bind, get, modify, deref, ret, raise.
  destruct (gather_weights self (_weight_lines self) py_feats (length py_feats))
    as [[f_i wl']|] eqn:Hg; cbn; [|by repeat split].
  apply gather_weights_length in Hg.
  destruct (set_scores (scores self) wl' f_i (nr_class self)) as [sc|] eqn:Hs; cbn;
    [|by repeat split].
  apply set_scores_length in Hs.
  destruct (mapM _ _); cbn; by repeat split.
Qed.

Lemma call_wf self py_feats :
  wf self →
  wf (call py_feats self).2 ∧
  nr_class (call py_feats self).2 = nr_class self ∧
  nr_templates (call py_feats self).2 = nr_templates self.
Proof.
  intros Hwf.
  destruct (call_frame self py_feats)
    as (_ & _ & Hnc & Hnt & _ & _ & Hw & Htw & Hmem & Hl & Hs).
  split; [|done].
  constructor.
  - rewrite Hw, Hnt. apply Hwf.
  - rewrite Htw, Hnt. apply Hwf.
  - rewrite Hs, Hnc. apply Hwf.
  - rewrite Hl, Hnc, Hnt. apply Hwf.
  - intros t f feat. unfold train_feat, weight_addr.
    rewrite Htw, Hw, Hmem, Hnc. apply (wf_feat _ Hwf).
  - intros t f. unfold train_feat, weight_addr.
    rewrite Htw, Hw. apply (wf_keys _ Hwf).
  - intros t f feat t' f' feat'. unfold train_feat.
    rewrite Htw. apply (wf_inj _ Hwf).
Qed.
(** *** Trained models satisfy the invariant *)

Lemma init_lookup {V} nt t f : (replicate nt (∅ : gmap N V)) !! t ≫= (.!! f) = None.
Proof.
  destruct (replicate nt (∅ : gmap N V) !! t) as [m|] eqn:E; [|done].
  apply lookup_replicate in E as [-> _]. cbn. apply lookup_empty.
Qed.

Lemma init_wf nc nt : wf (init nc nt).
Proof.
  constructor; cbn.
  - apply length_replicate.
  - apply length_replicate.
  - apply length_replicate.
  - apply length_replicate.
  - intros t f feat. unfold train_feat. cbn. by rewrite init_lookup.
  - intros t f. unfold weight_addr. cbn. rewrite init_lookup. by intros [? ?].
  - intros t f feat t' f' feat'. unfold train_feat. cbn. by rewrite init_lookup.
Qed.

Lemma trained_wf nc nt self :
  trained nc nt self → wf self ∧ nr_class self = nc ∧ nr_templates self = nt.
Proof.
  induction 1 as [|self py_feats _ (IH & Hnc & Hnt) _
                  |self updates _ (IH & Hnc & Hnt) _
                  |self _ (IH & Hnc & Hnt)].
  - split; [apply init_wf|done].
  - destruct (call_wf self py_feats IH) as (H1 & H2 & H3).
    split; [done|]. split; congruence.
  - destruct (update_wf self updates IH) as (H1 & H2 & H3).
    split; [done|]. split; congruence.
  - destruct (end_training_wf self IH) as (H1 & (H2 & H3 & _) & _).
    split; [done|]. split; congruence.
Qed.

Lemma wf_scorable self : wf self → 1 ≤ nr_class self → scorable self.
Proof.
  intros Hwf Hnc. constructor; try apply Hwf.
  - rewrite (wf_lines_len _ Hwf).
    destruct (get_nr_rows_spec (nr_class self)) as [_ Hle]. specialize (Hle Hnc).
    rewrite (Nat.mul_comm (nr_class self)). by apply Nat.mul_le_mono_l.
  - intros t f a Ha.
    destruct (wf_keys _ Hwf t f) as [feat Hfeat]; [by rewrite Ha|].
    destruct (wf_feat _ Hwf _ _ _ Hfeat) as (_ & Haddr & rows & meta & Hr & Hm & Hl & Hf).
    assert (a = TrainFeat.weights feat) as -> by congruence.
    exists rows. split; [done|]. split; [done|].
    intros row r Hrow.
    destruct (Forall2_lookup_l _ _ _ _ _ Hf Hrow) as (mr & _ & Hmatch).
    destruct mr; cbn in Hmatch; [by destruct Hmatch|done].
Qed.

(** Scoring a list of at most [nr_templates] features returns the scores of
    the gathered lines, one per class. *)
Lemma call_spec self py_feats :
  scorable self → length py_feats ≤ nr_templates self →
  ∃ sc, scores_of (nr_class self) (gathered self py_feats (length py_feats)) = Some sc ∧
        length sc = nr_class self ∧
        (call py_feats self).1 = Return sc.
Proof.
  intros Hsc Hlen.
  destruct (scores_of_Some (nr_class self) (gathered self py_feats (length py_feats)))
    as (sc & Hsco & Hl); [by apply gathered_line|].
  exists sc. split; [done|]. split; [done|].
  unfold call, score.
  rewrite (bind_run get _ self self self) by done.
  erewrite bind_run; cycle 1.
  { rewrite (bind_run get _ self self self) by done.
    rewrite gather_weights_spec; [|done|done|done|apply Hsc]. cbn [deref].
    erewrite bind_run by reflexivity. cbv beta iota.
    erewrite bind_run by reflexivity.
    rewrite set_scores_fold; cycle 1.
    { apply Hsc. }
    { rewrite length_app, length_drop.
      pose proof (gathered_length self py_feats (length py_feats)).
      pose proof (sc_lines_len _ Hsc).
      assert (length py_feats * get_nr_rows (nr_class self)
              ≤ nr_templates self * get_nr_rows (nr_class self))
        by (by apply Nat.mul_le_mono_r).
      lia. }
    rewrite take_app_length. cbn. rewrite Hsco. reflexivity. }
  erewrite bind_run by reflexivity.
  cbn. by rewrite mapM_lookup_seq.
Qed.
Lemma score_frame self scores py_feats nr_active :
  training_state (score scores py_feats nr_active self).2 = training_state self.
Proof.
  unfold score, bind, get, modify, deref, ret, raise.
  destruct (gather_weights self (_weight_lines self) py_feats nr_active)
    as [[f_i wl']|]; cbn; [|done].
  by destruct (set_scores scores wl' f_i (nr_class self)).
Qed.

(** C10: scoring leaves the training state of the model as it was: whatever
    the feature list and the outcome, after [score] and after the
    [__call__] wrapper the counters, the time, the cache, both feature maps
    and the arena with every weight and metadata cell are those of before
    (only the gather buffer and the score buffer are written, and they keep
    their sizes); and on a model whose inference map points to complete
    feature rows, a list of at most [nr_templates] features is scored
    without error, with one score per class. *)
Theorem scoring_is_read_only self py_feats :
  training_state (call py_feats self).2 = training_state self ∧
  (∀ scores nr_active,
      training_state (score scores py_feats nr_active self).2 = training_state self) ∧
  length (_weight_lines (call py_feats self).2) = length (_weight_lines self) ∧
  length (scores (call py_feats self).2) = length (scores self) ∧
  (scorable self → length py_feats ≤ nr_templates self →
   ∃ sc, (call py_feats self).1 = Return sc ∧ length sc = nr_class self).
Proof.
  destruct (call_frame self py_feats)
    as (H1 & H2 & H3 & H4 & H5 & H6 & H7 & H8 & H9 & H10 & H11).
  split.
  { unfold training_state. by rewrite H1, H2, H3, H4, H5, H6, H7, H8, H9. }
  split; [intros; apply score_frame|].
  split; [done|]. split; [done|].
  intros Hsc Hlen. destruct (call_spec self py_feats Hsc Hlen) as (sc & _ & Hl & Hr).
  eauto.
Qed.

(** ** The row boundary *)

Lemma wf_set_time self tm : wf self → wf (set_time tm self).
Proof. intros Hwf. constructor; apply Hwf. Qed.



Lemma scoring_is_read_only_witness :
  scorable (init 10 2) ∧ length [0%N; 5%N] ≤ nr_templates (init 10 2) ∧
  ∃ sc, (call [0%N; 5%N] (init 10 2)).1 = Return sc ∧ length sc = nr_class (init 10 2).
Proof.
  assert (scorable (init 10 2)) as Hsc.
  { apply wf_scorable; [apply init_wf|]. cbn. lia. }
  assert (length [0%N; 5%N] ≤ nr_templates (init 10 2)) as Hlen by (cbn; lia).
  split; [exact Hsc|]. split; [exact Hlen|].
  exact (proj2 (proj2 (proj2 (proj2 (scoring_is_read_only (init 10 2) [0%N; 5%N]))))
           Hsc Hlen).
Defined.

(** ** Text *)

Section Text.
Local Open Scope string_scope.

Lemma append_cons c (s1 s2 : string) : String c s1 ++ s2 = String c (s1 ++ s2).
Proof. reflexivity. Qed.

Lemma append_nil_l (s : string) : "" ++ s = s.
Proof. reflexivity. Qed.

Lemma append_assoc (s1 s2 s3 : string) : (s1 ++ s2) ++ s3 = s1 ++ (s2 ++ s3).
Proof.
induction s1 as [|c s1 IH]; [done|]. rewrite !append_cons. by f_equal.
Qed.

Lemma append_nil_r (s : string) : s ++ "" = s.
Proof. induction s as [|c s IH]; [done|]. rewrite append_cons. by f_equal. Qed.

Lemma digit_not_tab c d : digit c = Some d → Ascii.eqb c tab = false.
Proof.
destruct (Ascii.eqb_spec c tab) as [->|]; [|done]. by vm_compute.
Qed.

Lemma digit_not_space c d : digit c = Some d → isspace c = false.
Proof.
intros H. destruct c as [[] [] [] [] [] [] [] []]; vm_compute in H |- *;
  congruence.
Qed.

Lemma digit_not_sign c d :
digit c = Some d → Ascii.eqb c "-" = false ∧ Ascii.eqb c "+" = false.
Proof.
intros H. destruct c as [[] [] [] [] [] [] [] []]; vm_compute in H |- *;
  (split; congruence).
Qed.

(** The printed form of a decimal number: its digits, read back as they
  are. *)
Lemma string_of_uint_cases d :
d = Decimal.Nil ∧ NilEmpty.string_of_uint d = "" ∨
∃ c f d', NilEmpty.string_of_uint d = String c (NilEmpty.string_of_uint d') ∧
          digit c = Some f ∧ d = f d'.
Proof.
destruct d; [by left|right..]; cbn; eexists _, _, _; (split; [reflexivity|]);
  by split.
Qed.

Lemma read_digits_string_of_uint d r :
ends_number r → read_digits (NilEmpty.string_of_uint d ++ r) = d.
Proof.
intros Hr. induction d as [|d IH|d IH|d IH|d IH|d IH|d IH|d IH|d IH|d IH|d IH];
  cbn [NilEmpty.string_of_uint]; rewrite ?append_cons, ?append_nil_l;
  cbn [read_digits]; rewrite ?IH; try done.
destruct r as [|c r]; [done|]. cbn in *. by rewrite Hr.
Qed.

Lemma no_tab_string_of_uint d : no_tab (NilEmpty.string_of_uint d) = true.
Proof. induction d; cbn; by rewrite ?IHd. Qed.

Lemma no_tab_app s1 s2 : no_tab (s1 ++ s2) = no_tab s1 && no_tab s2.
Proof.
induction s1 as [|c s1 IH]; [done|]. rewrite append_cons. cbn [no_tab].
rewrite IH. by rewrite andb_assoc.
Qed.

Lemma N_to_uint_nonnil n : N.to_uint n ≠ Decimal.Nil.
Proof. destruct n; [done|]. apply DecimalPos.Unsigned.to_uint_nonnil. Qed.

Lemma string_of_uint_nonempty d :
d ≠ Decimal.Nil → NilEmpty.string_of_uint d ≠ "".
Proof. by destruct d. Qed.

Lemma token_ok_str_N n : token_ok (str_N n).
Proof.
split; [|apply no_tab_string_of_uint].
apply string_of_uint_nonempty, N_to_uint_nonnil.
Qed.

Lemma token_ok_str_nat n : token_ok (str_nat n).
Proof. apply token_ok_str_N. Qed.

Lemma token_ok_str_Z z : token_ok (str_Z z).
Proof.
unfold str_Z. destruct z as [|p|p]; cbn.
- done.
- split; [|apply no_tab_string_of_uint].
  apply string_of_uint_nonempty, DecimalPos.Unsigned.to_uint_nonnil.
- split; [done|]. cbn. apply no_tab_string_of_uint.
Qed.

Lemma read_number_unsigned d r :
d ≠ Decimal.Nil → ends_number r →
read_number (NilEmpty.string_of_uint d ++ r) = (false, d).
Proof.
intros Hd Hr. unfold read_number.
destruct (string_of_uint_cases d) as [[-> _]|(c & f & d' & Hs & Hc & ->)]; [done|].
pose proof (read_digits_string_of_uint (f d') r Hr) as Hread.
rewrite Hs in *. rewrite append_cons in *. cbn [skip_space] in *.
rewrite (digit_not_space _ _ Hc).
destruct (digit_not_sign _ _ Hc) as [-> ->]. by rewrite Hread.
Qed.

Lemma strtoul_str_N n r : ends_number r → strtoul (str_N n ++ r) = n.
Proof.
intros Hr. unfold strtoul, str_N.
rewrite read_number_unsigned by (done || apply N_to_uint_nonnil).
apply DecimalN.Unsigned.of_to.
Qed.

Lemma strtoul_str_nat n r : ends_number r → N.to_nat (strtoul (str_nat n ++ r)) = n.
Proof. intros Hr. unfold str_nat. rewrite strtoul_str_N by done. apply Nat2N.id. Qed.

Lemma atoi_str_Z z r : ends_number r → atoi (str_Z z ++ r) = z.
Proof.
intros Hr. unfold atoi, str_Z. destruct z as [|p|p]; cbn [Z.to_int NilEmpty.string_of_int].
- rewrite read_number_unsigned by done. done.
- rewrite read_number_unsigned by (done || apply DecimalPos.Unsigned.to_uint_nonnil).
  pose proof (DecimalZ.of_to (Z.pos p)) as H. cbn in H. exact H.
- unfold read_number. rewrite append_cons. cbn [skip_space].
  change (isspace "-") with false. cbn [Ascii.eqb Bool.eqb].
  rewrite read_digits_string_of_uint by done.
  pose proof (DecimalZ.of_to (Z.neg p)) as H. cbn in H. exact H.
Qed.

Lemma str_Z_zero z : (str_Z z =? "0") = true ↔ z = 0%Z.
Proof.
split.
- intros H%String.eqb_eq.
  rewrite <- (atoi_str_Z z "") by done. rewrite append_nil_r, H. done.
- intros ->. done.
Qed.

(** *** Tokens *)

Lemma skip_tabs_token s r : token_ok s → skip_tabs (s ++ r) = s ++ r.
Proof.
intros [Hne Hnt]. destruct s as [|c s]; [done|]. rewrite append_cons.
cbn in *. destruct (Ascii.eqb c tab); done.
Qed.

Lemma split_tab_token s r :
no_tab s = true → split_tab (s ++ String tab r) = (s, r).
Proof.
induction s as [|c s IH]; rewrite ?append_cons, ?append_nil_l; cbn.
- intros _. by rewrite ?Ascii.eqb_refl.
- intros [Hc Hs]%andb_true_iff. apply negb_true_iff in Hc. rewrite Hc.
  by rewrite IH.
Qed.

Lemma split_tab_last s : no_tab s = true → split_tab s = (s, "").
Proof.
induction s as [|c s IH]; cbn; [done|].
intros [Hc Hs]%andb_true_iff. apply negb_true_iff in Hc. rewrite Hc.
by rewrite IH.
Qed.

Lemma strtok_token s r : token_ok s → strtok (s ++ String tab r) = Some (s, r).
Proof.
intros Hs. unfold strtok. rewrite skip_tabs_token by done.
destruct Hs as [Hne Hnt]. destruct s as [|c s]; [done|]. rewrite append_cons.
rewrite <- append_cons. by rewrite (split_tab_token (String c s) r Hnt).
Qed.

Lemma strtok_last s :
token_ok s →
strtok (s ++ String newline "") = Some (s ++ String newline "", "").
Proof.
intros [Hne Hnt]. unfold strtok.
rewrite skip_tabs_token by done.
destruct s as [|c s]; [done|]. rewrite append_cons.
rewrite <- append_cons. rewrite split_tab_last; [done|].
rewrite no_tab_app, Hnt. done.
Qed.

Lemma strtok_empty : strtok "" = None.
Proof. done. Qed.
End Text.
Import Serialize.

(** ** Loading *)

Section LoadText.
Local Open Scope string_scope.

Lemma join_line_cons x y rest :
join_line (x :: y :: rest) = x ++ String tab (join_line (y :: rest)).
Proof.
unfold join_line. cbn [String.concat].
rewrite append_assoc, append_cons, append_nil_l. by rewrite append_cons.
Qed.

Lemma join_line_last x : join_line [x] = x ++ String newline "".
Proof. reflexivity. Qed.

Lemma ends_number_newline : ends_number (String newline "").
Proof. reflexivity. Qed.
End LoadText.

Lemma set_mem_set_mem m1 m2 s : set_mem m2 (set_mem m1 s) = set_mem m2 s.
Proof. reflexivity. Qed.

Lemma overwrite_step {A} (r0 : list A) c w ws :
  c < length r0 →
  take (S c) (<[c := w]> r0) ++ ws ++ drop (S c + length ws) (<[c := w]> r0) =
    take c r0 ++ (w :: ws) ++ drop (c + length (w :: ws)) r0.
Proof.
  intros Hc.
  rewrite (take_S_r _ _ w) by (by apply list_lookup_insert_eq).
  rewrite take_insert_ge by lia. rewrite drop_insert_lt by lia.
  rewrite <- app_assoc. cbn. by rewrite Nat.add_succ_r.
Qed.

(** The weight columns of a line are stored one after the other. *)
Lemma load_cols_run feature row ws : ∀ c s rows r0,
  ws ≠ [] →
  Pool.weight_arrays (mem s) !! feature = Some rows →
  rows !! row = Some (Some r0) →
  c + length ws ≤ length r0 →
  load_cols feature row (seq c (length ws)) (join_line (str_Z <$> ws)) s =
    (Return tt,
     set_mem (Pool.set_weights feature
                (<[row := Some (take c r0 ++ ws ++ drop (c + length ws) r0)]> rows)
                (mem s)) s).
Proof.
  induction ws as [|w ws IH]; intros c s rows r0 Hne Hrows Hrow Hlen; [done|].
  cbn [length seq load_cols]. rewrite fmap_cons.
  assert (c < length r0) as Hc by (cbn in Hlen; lia).
  assert (row < length rows) as Hr by (by eapply lookup_lt_Some).
  assert (feature < length (Pool.weight_arrays (mem s))) as Hf
    by (by eapply lookup_lt_Some).
  assert (cell rows row c = Some (default 0%Z (r0 !! c))) as Hcell.
  { erewrite cell_lookup by done.
    destruct (lookup_lt_is_Some_2 r0 c Hc) as [x ->]. done. }
  assert (take c r0 ++ w :: drop (S c) r0 = <[c := w]> r0) as Hins.
  { symmetry. by apply insert_take_drop. }
  destruct ws as [|w' ws].
  - (* the last column, with the newline *)
    cbn [length seq load_cols]. rewrite fmap_nil, join_line_last.
    rewrite strtok_last by apply token_ok_str_Z. cbn [deref].
    erewrite bind_run by reflexivity. cbv beta iota.
    rewrite (bind_run get _ s s s) by done.
    rewrite Hrows. cbn [deref]. erewrite bind_run by reflexivity.
    rewrite (set_cell_store _ _ _ _ _ Hcell). cbn [deref].
    erewrite bind_run by reflexivity.
    erewrite bind_run by reflexivity.
    rewrite atoi_str_Z by apply ends_number_newline.
    rewrite (store_cell_row _ _ _ _ _ Hrow).
    cbn. rewrite Nat.add_1_r. by rewrite Hins.
  - (* a column followed by a tab *)
    rewrite fmap_cons, join_line_cons.
    rewrite strtok_token by apply token_ok_str_Z. cbn [deref].
    erewrite bind_run by reflexivity. cbv beta iota.
    rewrite (bind_run get _ s s s) by done.
    rewrite Hrows. cbn [deref]. erewrite bind_run by reflexivity.
    rewrite (set_cell_store _ _ _ _ _ Hcell). cbn [deref].
    erewrite bind_run by reflexivity.
    erewrite bind_run by reflexivity.
    rewrite <- (append_nil_r (str_Z w)), atoi_str_Z by done.
    rewrite (store_cell_row _ _ _ _ _ Hrow).
    rewrite <- fmap_cons.
    rewrite (IH (S c) _ (<[row := Some (<[c := w]> r0)]> rows) (<[c := w]> r0));
      [|done| | |].
    + rewrite set_mem_set_mem. unfold Pool.set_weights. cbn [Pool.weight_arrays Pool.meta_arrays mem set_mem].
      rewrite !list_insert_insert_eq.
      by rewrite (overwrite_step r0 c w (w' :: ws) Hc).
    + cbn. by apply list_lookup_insert_eq.
    + by apply list_lookup_insert_eq.
    + rewrite length_insert. cbn in *. lia.
Qed.


Section LoadNumbers.
Local Open Scope string_scope.

Lemma strtoul_token_N n : strtoul (str_N n) = n.
Proof. rewrite <- (append_nil_r (str_N n)). by apply strtoul_str_N. Qed.

Lemma strtoul_token_nat n : N.to_nat (strtoul (str_nat n)) = n.
Proof. rewrite <- (append_nil_r (str_nat n)). by apply strtoul_str_nat. Qed.
End LoadNumbers.

Lemma weight_addr_lt self t f a : weight_addr self t f = Some a → t < length (weights self).
Proof.
  unfold weight_addr. destruct (weights self !! t) eqn:E; [|done].
  intros _. by eapply lookup_lt_Some.
Qed.

(** What [load] does after it has found or made the row pointers of the
    feature: the row is allocated and filled from the line. *)
Lemma load_rest s feature row l rows :
  Pool.weight_arrays (mem s) !! feature = Some rows →
  row < length rows → length l = LINE_SIZE →
  (self <- get;;
   rows <- deref (Pool.weight_arrays (mem self) !! feature);;
   (if decide (row < length rows)
    then modify (set_mem (Pool.set_weights feature
                            (<[row := Some (replicate LINE_SIZE 0%Z)]> rows)
                            (mem self)))
    else raise MemoryFault) ;;;
   load_cols feature row (seq 0 LINE_SIZE) (join_line (str_Z <$> l))) s =
    (Return tt, set_mem (Pool.set_weights feature (<[row := Some l]> rows) (mem s)) s).
Proof.
  intros Hrows Hrow Hl.
  assert (feature < length (Pool.weight_arrays (mem s))) as Hf
    by (by eapply lookup_lt_Some).
  rewrite (bind_run get _ s s s) by done.
  rewrite Hrows. cbn [deref]. erewrite bind_run by reflexivity.
  rewrite decide_True by done.
  erewrite bind_run by reflexivity.
  rewrite <- Hl.
  erewrite (load_cols_run feature row l 0); cycle 1.
  { intros ->. done. }
  { cbn. by apply list_lookup_insert_eq. }
  { by apply list_lookup_insert_eq. }
  { rewrite length_replicate. lia. }
  rewrite set_mem_set_mem. unfold Pool.set_weights. cbn.
  rewrite !list_insert_insert_eq. do 5 f_equal.
  rewrite drop_ge by (rewrite length_replicate; lia).
  by rewrite app_nil_r.
Qed.


Lemma dump_line_tokens tf t f row l :
  l ≠ [] →
  ∃ s1 s2 s3 s4,
    strtok (dump_line tf t f row l) = Some (str_Z tf, s1) ∧
    strtok s1 = Some (str_nat t, s2) ∧
    strtok s2 = Some (str_N f, s3) ∧
    strtok s3 = Some (str_nat row, s4) ∧
    strtok s4 = Some (str_nat (row * LINE_SIZE), join_line (str_Z <$> l)).
Proof.
  intros Hl. destruct l as [|w l]; [done|].
  unfold dump_line. cbn [app]. change (map str_Z (w :: l)) with (str_Z <$> w :: l).
  rewrite fmap_cons. rewrite !join_line_cons.
  eexists _, _, _, _.
  split; [apply strtok_token, token_ok_str_Z|].
  split; [apply strtok_token, token_ok_str_nat|].
  split; [apply strtok_token, token_ok_str_N|].
  split; [apply strtok_token, token_ok_str_nat|].
  apply strtok_token, token_ok_str_nat.
Qed.

Ltac load_tokens s H0 H1 H2 H3 H4 :=
  unfold load_line;
  rewrite (bind_run get _ s s s) by done;
  rewrite H0; cbn [deref]; erewrite bind_run by reflexivity; cbv beta iota;
  rewrite H1; cbn [deref]; erewrite bind_run by reflexivity; cbv beta iota;
  rewrite H2; cbn [deref]; erewrite bind_run by reflexivity; cbv beta iota;
  rewrite H3; cbn [deref]; erewrite bind_run by reflexivity; cbv beta iota;
  rewrite H4; cbn [deref]; erewrite bind_run by reflexivity; cbv beta iota;
  rewrite !strtoul_token_nat, strtoul_token_N;
  change ((1 <=? 0)%Z && _) with false; cbv iota.

(** Storing a row for a known feature key. *)
Lemma store_row_loadable s t f a rows row l :
  loadable s → weight_addr s t f = Some a →
  Pool.weight_arrays (mem s) !! a = Some rows →
  row < get_nr_rows (nr_class s) → length l = LINE_SIZE →
  let s' := set_mem (Pool.set_weights a (<[row := Some l]> rows) (mem s)) s in
  loadable s' ∧
  ∀ t' f',
    feature_rows s' t' f' =
      if decide (t' = t ∧ f' = f) then Some (<[row := Some l]> rows)
      else feature_rows s t' f'.
Proof.
  intros [Hsc Hinj] Ha Hrows Hrow Hl s'.
  destruct (sc_rows _ Hsc _ _ _ Ha) as (rows0 & Hrows0 & Hlen & Hrl).
  assert (rows0 = rows) as -> by congruence.
  assert (∀ t' f', feature_rows s' t' f' =
            if decide (t' = t ∧ f' = f) then Some (<[row := Some l]> rows)
            else feature_rows s t' f') as Hfr.
  { intros t' f'. unfold feature_rows.
    change (weight_addr s' t' f') with (weight_addr s t' f').
    case_decide as Hd.
    - destruct Hd as [-> ->]. rewrite Ha. cbn.
      apply list_lookup_insert_eq. by eapply lookup_lt_Some.
    - destruct (weight_addr s t' f') as [a'|] eqn:Ha'; [|done]. cbn.
      apply list_lookup_insert_ne. intros <-. apply Hd. by eapply Hinj. }
  split; [|done].
  split; [|exact Hinj].
  constructor; try apply Hsc.
  intros t' f' a' Ha'.
  change (weight_addr s' t' f') with (weight_addr s t' f') in Ha'.
  specialize (Hfr t' f'). unfold feature_rows in Hfr.
  change (weight_addr s' t' f') with (weight_addr s t' f') in Hfr.
  rewrite Ha' in Hfr. cbn [mbind option_bind] in Hfr. rewrite Hfr.
  case_decide as Hd.
  - eexists. split; [done|]. split; [by rewrite length_insert|].
    intros row' r'. destruct (decide (row' = row)) as [->|Hne].
    + rewrite list_lookup_insert_eq by lia. by intros [= <-].
    + rewrite list_lookup_insert_ne by done. apply Hrl.
  - destruct (sc_rows _ Hsc _ _ _ Ha') as (rows' & Hrows' & Hlen' & Hrl').
    exists rows'. by rewrite Hrows'.
Qed.

(** A new feature key is given an array of NULL row pointers. *)
Lemma load_register s t f :
  loadable s → t < nr_templates s → weight_addr s t f = None →
  ∃ ws,
    map_array_set (weights s) t f (length (Pool.weight_arrays (mem s))) = Some ws ∧
    let s1 := set_weights ws
                (set_mem (Pool.alloc_weights (mem s) (get_nr_rows (nr_class s))).2 s) in
    loadable s1 ∧
    weight_addr s1 t f = Some (length (Pool.weight_arrays (mem s))) ∧
    ∀ t' f', feature_rows s1 t' f' =
             if decide (t' = t ∧ f' = f)
             then Some (replicate (get_nr_rows (nr_class s)) None)
             else feature_rows s t' f'.
Proof.
  intros [Hsc Hinj] Ht Ha.
  destruct (map_array_set_Some (weights s) t f (length (Pool.weight_arrays (mem s))))
    as (ws & Hws & Hwl & Hwlook).
  { by rewrite (sc_weights_len _ Hsc). }
  exists ws. split; [done|]. intros s1.
  assert (∀ t' f', weight_addr s1 t' f' =
            if decide (t' = t ∧ f' = f) then Some (length (Pool.weight_arrays (mem s)))
            else weight_addr s t' f') as Hwa by apply Hwlook.
  assert (∀ t' f' a', weight_addr s t' f' = Some a' →
            a' < length (Pool.weight_arrays (mem s))) as Hold.
  { intros t' f' a' Ha'. destruct (sc_rows _ Hsc _ _ _ Ha') as (rows & Hr & _).
    by eapply lookup_lt_Some. }
  split; [split|split].
  - constructor.
    + change (length ws = nr_templates s). rewrite Hwl. apply Hsc.
    + apply Hsc.
    + apply Hsc.
    + intros t' f' a'. rewrite Hwa. case_decide as Hd.
      * intros [= <-]. eexists. split; [by apply list_lookup_middle|].
        split; [by rewrite length_replicate|].
        intros row r' Hr'. apply lookup_replicate in Hr' as [? _]. done.
      * intros Ha'. destruct (sc_rows _ Hsc _ _ _ Ha') as (rows & Hr & Hlen & Hrl).
        exists rows. split; [|done]. cbn. by apply lookup_app_l_Some.
  - intros t1 f1 t2 f2 a'. rewrite !Hwa.
    case_decide as Hd1; case_decide as Hd2.
    + destruct Hd1 as [-> ->], Hd2 as [-> ->]. done.
    + intros [= <-] Ha2. apply Hold in Ha2. lia.
    + intros Ha1 [= <-]. apply Hold in Ha1. lia.
    + apply Hinj.
  - by rewrite Hwa, decide_True.
  - intros t' f'. unfold feature_rows. rewrite Hwa. case_decide as Hd.
    + cbn. by apply list_lookup_middle.
    + destruct (weight_addr s t' f') as [a'|] eqn:Ha'; [|done]. cbn.
      apply lookup_app_l. by eapply Hold.
Qed.

(** One line of a dump, loaded: the row of the line is stored for its
    feature key, whose row pointers are made first if the key is new. *)
Lemma load_line_record s tf t f row l :
  loadable s → t < nr_templates s → row < get_nr_rows (nr_class s) →
  length l = LINE_SIZE →
  ∃ s',
    load_line 0 (dump_line tf t f row l) s = (Return tt, s') ∧
    loadable s' ∧ same_config s s' ∧ train_weights s' = train_weights s ∧
    ∀ t' f',
      feature_rows s' t' f' =
        if decide (t' = t ∧ f' = f)
        then Some (<[row := Some l]>
                     (default (replicate (get_nr_rows (nr_class s)) None)
                              (feature_rows s t f)))
        else feature_rows s t' f'.
Proof.
  intros Hload Ht Hrow Hl.
  destruct (dump_line_tokens tf t f row l) as (x1 & x2 & x3 & x4 & T0 & T1 & T2 & T3 & T4).
  { intros ->. done. }
  pose proof Hload as [Hsc _].
  assert (t < length (weights s)) as Htw by (by rewrite (sc_weights_len _ Hsc)).
  load_tokens s T0 T1 T2 T3 T4.
  rewrite map_array_get_Some by done. cbn [deref].
  erewrite bind_run by reflexivity.
  change (weights s !! t ≫= (.!! f)) with (weight_addr s t f).
  destruct (weight_addr s t f) as [a|] eqn:Ha.
  - destruct (sc_rows _ Hsc _ _ _ Ha) as (rows & Hrows & Hlen & Hrl).
    erewrite bind_run by reflexivity.
    erewrite load_rest; [|done|lia|done].
    destruct (store_row_loadable s t f a rows row l Hload Ha Hrows Hrow Hl) as [H1 H2].
    eexists. split; [reflexivity|]. split; [done|].
    split; [by repeat split|]. split; [done|].
    intros t' f'. rewrite H2. unfold feature_rows at 2. rewrite Ha. cbn.
    by rewrite Hrows.
  - destruct (load_register s t f Hload Ht Ha) as (ws & Hws & Hl1 & Ha1 & Hfr1).
    set (s1 := set_weights ws
                 (set_mem (Pool.alloc_weights (mem s) (get_nr_rows (nr_class s))).2 s))
      in *.
    assert (Pool.weight_arrays (mem s1) !! length (Pool.weight_arrays (mem s)) =
            Some (replicate (get_nr_rows (nr_class s)) None)) as Hrows1.
    { cbn. by apply list_lookup_middle. }
    erewrite bind_run; cycle 1.
    { cbn [Pool.alloc_weights].
      erewrite bind_run by reflexivity.
      rewrite Hws. cbn [deref].
      erewrite bind_run by reflexivity.
      erewrite bind_run by reflexivity. reflexivity. }
    erewrite (load_rest s1); [|exact Hrows1|by rewrite length_replicate|done].
    destruct (store_row_loadable s1 t f _ _ row l Hl1 Ha1 Hrows1 Hrow Hl) as [H1 H2].
    eexists. split; [reflexivity|]. split; [done|].
    split; [by repeat split|]. split; [done|].
    intros t' f'. rewrite H2, Hfr1. case_decide; [|done].
    unfold feature_rows. by rewrite Ha.
Qed.


Lemma for_each_cons {S A} (x : A) xs (body : A → M S unit) s s' :
  body x s = (Return tt, s') → for_each (x :: xs) body s = for_each xs body s'.
Proof. intros H. cbn. by rewrite (bind_run _ _ _ _ _ H). Qed.

(** The lines of a list of records, loaded one after the other. *)
Lemma load_records rs : ∀ s,
  loadable s →
  Forall (fun r => (key_of r).1.1 < nr_templates s ∧
                   (key_of r).2 < get_nr_rows (nr_class s) ∧
                   length (line_of r) = LINE_SIZE) rs →
  ∃ s',
    load (record_line <$> rs) 0 s = (Return tt, s') ∧
    loadable s' ∧ same_config s s' ∧ train_weights s' = train_weights s ∧
    ∀ t f, feature_rows s' t f =
           foldl (store_record (get_nr_rows (nr_class s))) (feature_rows s) rs t f.
Proof.
  induction rs as [|r rs IH]; intros s Hload Hrs.
  - exists s. split; [done|]. split; [done|]. split; [apply same_config_refl|]. done.
  - apply Forall_cons in Hrs as [(Ht & Hrow & Hl) Hrs].
    destruct r as [[[[tf t] f] row] l]. cbn in Ht, Hrow, Hl.
    destruct (load_line_record s tf t f row l Hload Ht Hrow Hl)
      as (s1 & Hrun & Hload1 & Hc1 & Htw1 & Hfr1).
    destruct (IH s1 Hload1) as (s' & Hrun' & Hload' & Hc' & Htw' & Hfr').
    { destruct Hc1 as (-> & -> & _). done. }
    exists s'. split.
    { unfold load. rewrite fmap_cons.
      erewrite for_each_cons by exact Hrun. exact Hrun'. }
    split; [done|]. split; [by eapply same_config_trans|]. split; [congruence|].
    intros t' f'. rewrite Hfr'. cbn [foldl].
    destruct Hc1 as (-> & _).
    assert (∀ v v' : nat → N → option weight_rows,
              (∀ t f, v t f = v' t f) →
              ∀ t f, foldl (store_record (get_nr_rows (nr_class s))) v rs t f =
                     foldl (store_record (get_nr_rows (nr_class s))) v' rs t f) as Hext.
    { clear. induction rs as [|r rs IH]; intros v v' Hv t f; [apply Hv|].
      cbn [foldl]. apply IH. intros t' f'. unfold store_record.
      case_decide; [|apply Hv]. by rewrite Hv. }
    apply Hext. intros t'' f''. rewrite Hfr1. unfold store_record. cbn.
    case_decide as Hd; [|done]. by destruct Hd as [-> ->].
Qed.


(** *** The rows a loaded model reads *)

Lemma last_line_snoc rs r k :
  last_line (rs ++ [r]) k =
    if bool_decide (key_of r = k) then Some (line_of r) else last_line rs k.
Proof.
  induction rs as [|r' rs IH]; cbn.
  - by destruct (bool_decide _).
  - rewrite IH. destruct (bool_decide (key_of r = k)); [done|].
    by destruct (last_line rs k).
Qed.

Lemma has_key_snoc rs r t f :
  has_key (rs ++ [r]) t f =
    has_key rs t f || bool_decide ((key_of r).1 = (t, f)).
Proof. unfold has_key. rewrite existsb_app. cbn. by rewrite orb_false_r. Qed.

Lemma last_line_no_key rs t f row :
  has_key rs t f = false → last_line rs (t, f, row) = None.
Proof.
  induction rs as [|r rs IH]; [done|]. cbn.
  intros [Hr Hrs]%orb_false_iff. rewrite (IH Hrs).
  rewrite bool_decide_eq_false in Hr.
  rewrite bool_decide_false; [done|]. intros Hk. apply Hr. by rewrite Hk.
Qed.

Lemma loaded_rows_default nr rs t f :
  default (replicate nr None) (loaded_rows nr rs t f) =
    (fun row => last_line rs (t, f, row)) <$> seq 0 nr.
Proof.
  unfold loaded_rows. destruct (has_key rs t f) eqn:E; [done|]. cbn.
  apply list_eq. intros i. rewrite list_lookup_fmap.
  destruct (decide (i < nr)) as [Hi|Hi].
  - rewrite lookup_replicate_2 by done. rewrite lookup_seq_lt by done. cbn.
    by rewrite last_line_no_key.
  - rewrite (lookup_ge_None_2 (replicate nr None)) by (rewrite length_replicate; lia).
    rewrite lookup_ge_None_2 by (rewrite length_seq; lia). done.
Qed.

Lemma foldl_store_record nr rs t f :
  Forall (fun r => (key_of r).2 < nr) rs →
  foldl (store_record nr) (fun _ _ => None) rs t f = loaded_rows nr rs t f.
Proof.
  induction rs as [|r rs IH] using rev_ind; intros Hrs; [done|].
  apply Forall_app in Hrs as [Hrs Hr]. apply Forall_singleton in Hr.
  rewrite foldl_app. cbn [foldl]. unfold store_record at 1. rewrite IH by done.
  destruct r as [[[[tf t'] f'] row'] l']. cbn in *.
  case_decide as Hd.
  - destruct Hd as [-> ->]. rewrite loaded_rows_default.
    unfold loaded_rows. rewrite has_key_snoc. cbn.
    rewrite bool_decide_true by done. rewrite orb_true_r. f_equal.
    apply list_eq. intros i.
    destruct (decide (i < nr)) as [Hi|Hi].
    + rewrite list_lookup_fmap, lookup_seq_lt by done. cbn.
      rewrite last_line_snoc. cbn.
      destruct (decide (i = row')) as [->|Hne].
      * rewrite list_lookup_insert_eq by (rewrite length_fmap, length_seq; lia).
        by rewrite bool_decide_true.
      * rewrite list_lookup_insert_ne by done.
        rewrite list_lookup_fmap, lookup_seq_lt by done. cbn.
        rewrite bool_decide_false; [done|]. intros [= ?]. done.
    + rewrite !lookup_ge_None_2; [done|..];
        rewrite ?length_insert, length_fmap, length_seq; lia.
  - unfold loaded_rows. rewrite has_key_snoc. cbn.
    rewrite bool_decide_false; cycle 1.
    { intros [= -> ->]. by apply Hd. }
    rewrite orb_false_r. destruct (has_key rs t f); [|done]. f_equal.
    apply list_fmap_ext. intros _ row _. rewrite last_line_snoc. cbn.
    rewrite bool_decide_false; [done|]. intros [= -> -> ->]. by apply Hd.
Qed.


(** ** Dumping *)

Lemma mapM_flat {A B} (f : A → option (list B)) (g : A → list B) xs :
  (∀ x, x ∈ xs → f x = Some (g x)) →
  mjoin <$> mapM f xs = Some (flat_map g xs).
Proof.
  induction xs as [|x xs IH]; intros Hf; [done|].
  cbn. rewrite Hf by apply list_elem_of_here. cbn.
  specialize (IH (fun y Hy => Hf y (list_elem_of_further _ _ _ Hy))).
  destruct (mapM f xs) as [k|]; [|done]. cbn in *. injection IH as IH.
  do 2 f_equal. exact IH.
Qed.

Lemma fmap_flat_map {A B C} (h : B → C) (g : A → list B) xs :
  h <$> flat_map g xs = flat_map (fun x => h <$> g x) xs.
Proof. induction xs as [|x xs IH]; [done|]. cbn. by rewrite fmap_app, IH. Qed.

Lemma flat_map_ext_in {A B} (g g' : A → list B) xs :
  (∀ x, x ∈ xs → g x = g' x) → flat_map g xs = flat_map g' xs.
Proof.
  induction xs as [|x xs IH]; intros Hg; [done|]. cbn.
  rewrite Hg by apply list_elem_of_here. f_equal.
  apply IH. intros y Hy. apply Hg. by apply list_elem_of_further.
Qed.

Lemma sum_over_Some {A} (xs : list A) (body : A → Z → option Z) total :
  (∀ x total, x ∈ xs → is_Some (body x total)) → is_Some (sum_over xs body total).
Proof.
  revert total. induction xs as [|x xs IH]; intros total Hb; [by eexists|].
  cbn. destruct (Hb x total) as [t' ->]; [apply list_elem_of_here|]. cbn.
  apply IH. intros y t'' Hy. apply Hb. by apply list_elem_of_further.
Qed.

Lemma get_total_count_Some mem feat n :
  feat_ok (get_nr_rows n) mem feat → is_Some (get_total_count mem feat n).
Proof.
  intros (rows & meta & Hr & Hm & Hlen & Hf). unfold get_total_count.
  rewrite Hm. cbn. apply sum_over_Some. intros row total Hrow.
  apply elem_of_seq in Hrow.
  pose proof (Forall2_length _ _ _ Hf) as Hlm.
  destruct (lookup_lt_is_Some_2 meta row) as [mr Hmr]; [lia|].
  rewrite Hmr. cbn. destruct mr as [ml|]; [|by eexists].
  destruct (Forall2_lookup_r _ _ _ _ _ Hf Hmr) as (r & _ & Hmatch).
  destruct r as [l|]; [|done]. destruct Hmatch as [_ Hml].
  apply sum_over_Some. intros col total' Hcol. apply elem_of_seq in Hcol.
  destruct (lookup_lt_is_Some_2 ml col) as [md ->]; [lia|]. by eexists.
Qed.

Section DumpText.
Local Open Scope string_scope.

Lemma str_Z_is_zero w : negb (str_Z w =? "0") = negb (w =? 0)%Z.
Proof.
f_equal. destruct (Z.eqb_spec w 0) as [->|Hne]; [done|].
apply not_true_is_false. intros H. by apply str_Z_zero in H.
Qed.
End DumpText.

Lemma dump_row_spec tf t f row l :
  length l = LINE_SIZE →
  dump_row tf t f row l =
    Some (record_line <$> (if nonzero_row l then [(tf, t, f, row, l)] else [])).
Proof.
  intros Hl. unfold dump_row.
  destruct l as [|w0 [|w1 [|w2 [|w3 [|w4 [|w5 [|w6 [|]]]]]]]]; try done.
  assert (mapM (fun col => str_Z <$> [w0; w1; w2; w3; w4; w5; w6] !! col)
               (seq 0 LINE_SIZE) =
          Some (str_Z <$> [w0; w1; w2; w3; w4; w5; w6])) as -> by reflexivity.
  cbn [mbind option_bind fmap list_fmap existsb].
  unfold nonzero_row. cbn [existsb]. rewrite !str_Z_is_zero.
  by destruct (_ || _).
Qed.


Lemma elem_of_map_to_list_train self t map_ key feat :
  train_weights self !! t = Some map_ → (key, feat) ∈ map_to_list map_ →
  train_feat self t key = Some feat.
Proof.
  intros Ht Hin. unfold train_feat. rewrite Ht. cbn.
  by apply elem_of_map_to_list.
Qed.

Lemma dump_feat_spec self thr t key feat :
  wf self → train_feat self t key = Some feat →
  dump_feat self thr t (key, feat) =
    Some (record_line <$> feat_records self thr t (key, feat)).
Proof.
  intros Hwf Hfeat. unfold dump_feat, feat_records.
  destruct (key =? 0)%N; [done|].
  destruct (wf_feat _ Hwf _ _ _ Hfeat) as (_ & _ & Hok).
  destruct (get_total_count_Some _ _ _ Hok) as [tf Htf].
  destruct Hok as (rows & meta & Hr & Hm & Hlen & Hf).
  rewrite Htf, Hr. cbn [mbind option_bind].
  destruct (_ && _); [done|].
  rewrite fmap_flat_map. apply mapM_flat.
  intros row Hrow. apply elem_of_seq in Hrow.
  destruct (lookup_lt_is_Some_2 rows row) as [r Hrr]; [lia|].
  unfold row_records. rewrite Hrr. cbn [mbind option_bind].
  destruct r as [l|]; [|done].
  apply dump_row_spec.
  destruct (Forall2_lookup_l _ _ _ _ _ Hf Hrr) as (mr & _ & Hmatch).
  destruct mr; cbn in Hmatch; [by destruct Hmatch|done].
Qed.

(** [dump] writes the lines of the records of the model. *)
Lemma dump_spec self thr :
  wf self → dump self thr = Some (record_line <$> records self thr).
Proof.
  intros Hwf. unfold dump, records. rewrite fmap_flat_map.
  apply mapM_flat. intros t Ht. apply elem_of_seq in Ht.
  destruct (lookup_lt_is_Some_2 (train_weights self) t) as [map_ Hmap].
  { rewrite (wf_train_len _ Hwf). lia. }
  rewrite Hmap. cbn [mbind option_bind].
  rewrite fmap_flat_map. apply mapM_flat. intros [key feat] Hin.
  apply dump_feat_spec; [done|]. by eapply elem_of_map_to_list_train.
Qed.

(** The records of a model, one by one. *)
Lemma elem_of_records self thr tf t f row l :
  wf self →
  (tf, t, f, row, l) ∈ records self thr ↔
  ∃ feat rows,
    t < nr_templates self ∧ f ≠ 0%N ∧
    train_feat self t f = Some feat ∧
    get_total_count (mem self) feat (nr_class self) = Some tf ∧
    ¬ (1 ≤ thr ∧ (tf < Z.of_nat thr)%Z) ∧
    Pool.weight_arrays (mem self) !! TrainFeat.weights feat = Some rows ∧
    row < get_nr_rows (nr_class self) ∧
    rows !! row = Some (Some l) ∧ nonzero_row l = true.
Proof.
  intros Hwf. unfold records. rewrite list_elem_of_In, in_flat_map. split.
  - intros (t' & Ht' & Hin). apply in_seq in Ht'.
    destruct (train_weights self !! t') as [map_|] eqn:Hmap; [|done].
    apply in_flat_map in Hin as ([key feat] & Hkf & Hin).
    apply list_elem_of_In in Hkf.
    pose proof (elem_of_map_to_list_train _ _ _ _ _ Hmap Hkf) as Hfeat.
    unfold feat_records in Hin.
    destruct (N.eqb_spec key 0) as [|Hkey]; [done|].
    destruct (get_total_count _ _ _) as [tf'|] eqn:Htf; [|done].
    destruct (Pool.weight_arrays _ !! _) as [rows|] eqn:Hrows; [|done].
    destruct (_ && _) eqn:Hthr; [done|].
    apply in_flat_map in Hin as (row' & Hrow' & Hin). apply in_seq in Hrow'.
    unfold row_records in Hin.
    destruct (rows !! row') as [[l'|]|] eqn:Hl; [|done..].
    destruct (nonzero_row l') eqn:Hnz; [|done].
    destruct Hin as [[= <- <- <- <- <-]|[]].
    exists feat, rows. repeat split; try done; try lia.
    intros [H1 H2]. apply andb_false_iff in Hthr as [H|H].
    + apply Nat.leb_gt in H. lia.
    + apply Z.ltb_ge in H. lia.
  - intros (feat & rows & Ht & Hf & Hfeat & Htf & Hthr & Hrows & Hrow & Hl & Hnz).
    exists t. split; [apply in_seq; lia|].
    unfold train_feat in Hfeat.
    destruct (train_weights self !! t) as [map_|]; [|done]. cbn in Hfeat.
    apply in_flat_map. exists (f, feat). split.
    { apply list_elem_of_In. by apply elem_of_map_to_list. }
    unfold feat_records.
    destruct (N.eqb_spec f 0) as [|_]; [done|].
    rewrite Htf, Hrows.
    destruct (_ && _) eqn:E.
    { exfalso. apply Hthr. apply andb_true_iff in E as [H1 H2].
      apply Nat.leb_le in H1. apply Z.ltb_lt in H2. done. }
    apply in_flat_map. exists row. split; [apply in_seq; lia|].
    unfold row_records. rewrite Hl, Hnz. by left.
Qed.


(** ** Dump, then load *)

Lemma last_line_Some rs k l :
  last_line rs k = Some l → ∃ r, r ∈ rs ∧ key_of r = k ∧ line_of r = l.
Proof.
  induction rs as [|r rs IH]; [done|]. cbn.
  destruct (last_line rs k) as [l'|].
  - intros [= <-]. destruct IH as (r' & Hr' & Hk & Hl); [done|].
    exists r'. split; [by apply list_elem_of_further|done].
  - case_bool_decide as Hk; [|done]. intros [= <-].
    exists r. split; [apply list_elem_of_here|done].
Qed.

Lemma last_line_None rs k r :
  last_line rs k = None → r ∈ rs → key_of r ≠ k.
Proof.
  induction rs as [|r' rs IH]; [by intros _ ?%elem_of_nil|]. cbn.
  destruct (last_line rs k) as [l'|]; [done|].
  case_bool_decide as Hk; [done|]. intros _ [->|Hin]%elem_of_cons; [done|].
  by apply IH.
Qed.

Lemma has_key_true rs t f :
  has_key rs t f = true ↔ ∃ r, r ∈ rs ∧ (key_of r).1 = (t, f).
Proof.
  unfold has_key. rewrite existsb_exists. split.
  - intros (r & Hin & Hk). apply bool_decide_eq_true in Hk.
    exists r. by rewrite list_elem_of_In.
  - intros (r & Hin & Hk). exists r. rewrite <- list_elem_of_In.
    split; [done|]. by apply bool_decide_eq_true.
Qed.

Lemma feature_row_wf self t f feat rows row :
  wf self → train_feat self t f = Some feat →
  Pool.weight_arrays (mem self) !! TrainFeat.weights feat = Some rows →
  feature_row self t f row = rows !! row ≫= id.
Proof.
  intros Hwf Hfeat Hrows. destruct (wf_feat _ Hwf _ _ _ Hfeat) as (_ & Haddr & _).
  by eapply feature_row_eq.
Qed.

Lemma feature_row_unknown self t f row :
  wf self → train_feat self t f = None → feature_row self t f row = None.
Proof.
  intros Hwf Hnone. unfold feature_row, feature_rows.
  destruct (weight_addr self t f) as [a|] eqn:Ha; [|done].
  destruct (wf_keys _ Hwf t f) as [feat Hfeat]; [by rewrite Ha|]. congruence.
Qed.

(** The row that a dump holds for a feature key: the row of the model when
    the key is kept and the row has a non-zero weight. *)
Lemma last_line_records self thr t f row :
  wf self →
  last_line (records self thr) (t, f, row) =
    if kept self thr t f
    then match feature_row self t f row with
         | Some l => if nonzero_row l then Some l else None
         | None => None
         end
    else None.
Proof.
  intros Hwf.
  destruct (last_line (records self thr) (t, f, row)) as [l|] eqn:E.
  - apply last_line_Some in E as ([[[[tf t'] f'] row'] l'] & Hin & [= -> -> ->] & Hl).
    cbn in Hl. subst l'.
    apply elem_of_records in Hin
      as (feat & rows & Ht & Hf & Hfeat & Htf & Hthr & Hrows & Hrow & Hl & Hnz);
      [|done].
    unfold kept. rewrite Hfeat, Htf.
    destruct (_ && _) eqn:Hb.
    { exfalso. apply Hthr. apply andb_true_iff in Hb as [H1 H2].
      apply Nat.leb_le in H1. apply Z.ltb_lt in H2. done. }
    rewrite (feature_row_wf _ _ _ _ _ _ Hwf Hfeat Hrows), Hl. cbn. by rewrite Hnz.
  - unfold kept.
    destruct (train_feat self t f) as [feat|] eqn:Hfeat; [|done].
    destruct (get_total_count _ _ _) as [tf|] eqn:Htf; [|done].
    destruct (_ && _) eqn:Hb; [done|]. cbn.
    destruct (wf_feat _ Hwf _ _ _ Hfeat) as (Hf & _ & rows & meta & Hrows & _ & Hlen & _).
    rewrite (feature_row_wf _ _ _ _ _ _ Hwf Hfeat Hrows).
    destruct (rows !! row) as [[l|]|] eqn:Hl; [|done..]. cbn.
    destruct (nonzero_row l) eqn:Hnz; [|done]. exfalso.
    eapply (last_line_None _ _ (tf, t, f, row, l) E); [|done].
    apply elem_of_records; [done|]. exists feat, rows.
    assert (t < nr_templates self).
    { unfold train_feat in Hfeat. rewrite <- (wf_train_len _ Hwf).
      destruct (train_weights self !! t) eqn:E'; [|done]. by eapply lookup_lt_Some. }
    assert (row < get_nr_rows (nr_class self)).
    { rewrite <- Hlen. by eapply lookup_lt_Some. }
    repeat split; try done.
    intros [H1 H2]. apply andb_false_iff in Hb as [Hb|Hb].
    + apply Nat.leb_gt in Hb. lia.
    + apply Z.ltb_ge in Hb. lia.
Qed.

Lemma has_key_records self thr t f :
  wf self →
  has_key (records self thr) t f = kept self thr t f && has_nonzero self t f.
Proof.
  intros Hwf. apply eq_true_iff_eq. rewrite has_key_true, andb_true_iff.
  unfold has_nonzero, nonzero_rows. rewrite existsb_exists. split.
  - intros ([[[[tf t'] f'] row] l] & Hin & [= -> ->]).
    pose proof (last_line_records self thr t f row Hwf) as Hll.
    destruct (last_line (records self thr) (t, f, row)) as [l'|] eqn:E.
    + destruct (kept self thr t f); [|done]. split; [done|].
      exists (Some l'). split; [|by apply bool_decide_eq_true].
      apply list_elem_of_In, list_elem_of_fmap. exists row. split; [done|].
      apply elem_of_seq. split; [lia|].
      apply elem_of_records in Hin as (? & ? & ? & ? & ? & ? & ? & ? & ? & ?); [|done].
      lia.
    + exfalso. by eapply (last_line_None _ _ _ E Hin).
  - intros [Hk (r & Hin & Hr)]. apply bool_decide_eq_true in Hr as [l Hl]. subst r.
    apply list_elem_of_In, list_elem_of_fmap in Hin as (row & Hrow & _).
    pose proof (last_line_records self thr t f row Hwf) as Hll.
    rewrite Hk, <- Hrow in Hll.
    apply last_line_Some in Hll as (r & Hin & Hkey & _).
    exists r. split; [done|]. by rewrite Hkey.
Qed.

(** What a fresh model reads for a feature key once the dump of a model is
    loaded into it. *)
Lemma loaded_rows_records self thr t f :
  wf self →
  loaded_rows (get_nr_rows (nr_class self)) (records self thr) t f =
    if kept self thr t f && has_nonzero self t f
    then Some ((fun r => if kept self thr t f then r else None)
                 <$> nonzero_rows self t f)
    else None.
Proof.
  intros Hwf. unfold loaded_rows. rewrite has_key_records by done.
  destruct (kept self thr t f && has_nonzero self t f); [|done]. f_equal.
  unfold nonzero_rows. rewrite <- list_fmap_compose.
  apply list_fmap_ext. intros _ row _. cbn.
  rewrite last_line_records by done. by destruct (kept self thr t f).
Qed.


Lemma foldl_store_record_ext nr rs (v v' : nat → N → option weight_rows) :
  (∀ t f, v t f = v' t f) →
  ∀ t f, foldl (store_record nr) v rs t f = foldl (store_record nr) v' rs t f.
Proof.
  revert v v'. induction rs as [|r rs IH]; intros v v' Hv t f; [apply Hv|].
  cbn [foldl]. apply IH. intros t' f'. unfold store_record.
  case_decide; [|apply Hv]. by rewrite Hv.
Qed.

Lemma init_loadable nc nt : 1 ≤ nc → loadable (init nc nt).
Proof.
  intros Hnc. split.
  - apply wf_scorable; [apply init_wf|done].
  - intros t f t' f' a. unfold weight_addr. cbn. by rewrite init_lookup.
Qed.

Lemma init_feature_rows nc nt t f : feature_rows (init nc nt) t f = None.
Proof. unfold feature_rows, weight_addr. cbn. by rewrite init_lookup. Qed.

Lemma records_loadable self thr :
  wf self →
  Forall (fun r => (key_of r).1.1 < nr_templates self ∧
                   (key_of r).2 < get_nr_rows (nr_class self) ∧
                   length (line_of r) = LINE_SIZE) (records self thr).
Proof.
  intros Hwf. apply Forall_forall. intros [[[[tf t] f] row] l] Hin.
  apply elem_of_records in Hin
    as (feat & rows & Ht & Hf & Hfeat & Htf & Hthr & Hrows & Hrow & Hl & Hnz); [|done].
  cbn. split; [done|]. split; [done|].
  destruct (wf_feat _ Hwf _ _ _ Hfeat) as (_ & _ & rows' & meta & Hrows' & _ & _ & Hm).
  assert (rows' = rows) as -> by congruence.
  destruct (Forall2_lookup_l _ _ _ _ _ Hm Hl) as (mr & _ & Hmatch).
  destruct mr; cbn in Hmatch; [by destruct Hmatch|done].
Qed.

(** The dump of a model, loaded into a fresh model of the same size. *)
Lemma dump_load self thr :
  wf self → 1 ≤ nr_class self →
  ∃ self',
    dump self thr = Some (record_line <$> records self thr) ∧
    load (record_line <$> records self thr) 0
         (init (nr_class self) (nr_templates self)) = (Return tt, self') ∧
    loadable self' ∧
    same_config (init (nr_class self) (nr_templates self)) self' ∧
    train_weights self' = replicate (nr_templates self) ∅ ∧
    ∀ t f, feature_rows self' t f =
           if kept self thr t f && has_nonzero self t f
           then Some ((fun r => if kept self thr t f then r else None)
                        <$> nonzero_rows self t f)
           else None.
Proof.
  intros Hwf Hnc.
  destruct (load_records (records self thr) (init (nr_class self) (nr_templates self)))
    as (self' & Hrun & Hload & Hc & Htw & Hfr).
  { by apply init_loadable. }
  { exact (records_loadable self thr Hwf). }
  exists self'. split; [by apply dump_spec|]. split; [done|]. split; [done|].
  split; [done|]. split; [done|].
  intros t f. rewrite Hfr.
  rewrite (foldl_store_record_ext _ _ _ (fun _ _ => None))
    by (intros; apply init_feature_rows).
  change (nr_class (init (nr_class self) (nr_templates self))) with (nr_class self).
  rewrite foldl_store_record.
  - by apply loaded_rows_records.
  - eapply Forall_impl; [by apply records_loadable|]. by intros r (_ & ? & _).
Qed.


(** *** Rows of zeros do not count in the scores *)

Lemma nonzero_row_false l :
  nonzero_row l = false → ∀ col v, l !! col = Some v → v = 0%Z.
Proof.
  unfold nonzero_row. intros H col v Hv.
  destruct (Z.eqb_spec v 0) as [|Hne]; [done|]. exfalso.
  assert (existsb (λ w : Z, negb (w =? 0)%Z) l = true) as Ht; [|congruence].
  apply existsb_exists. exists v. split.
  - apply list_elem_of_In. by eapply list_elem_of_lookup_2.
  - by apply negb_true_iff, Z.eqb_neq.
Qed.

Lemma add_cols_zero start line cols scores scores' :
  (∀ col v, line !! col = Some v → v = 0%Z) →
  add_cols start line cols scores = Some scores' → scores' = scores.
Proof.
  intros Hz. unfold add_cols. revert scores.
  induction cols as [|col cols IH]; intros scores; cbn; [by intros [= <-]|].
  unfold add_col at 2.
  destruct (line !! col) as [v|] eqn:Hv; cbn.
  - rewrite (Hz _ _ Hv). unfold add_at.
    destruct (scores !! (start + col)) as [x|] eqn:Hx; cbn.
    + rewrite Z.add_0_r, list_insert_id by done. apply IH.
    + intros H. exfalso. revert H. clear. induction cols; cbn; done.
  - intros H. exfalso. revert H. clear. induction cols; cbn; done.
Qed.

Lemma add_line_zero nc scores wl scores' :
  nonzero_row (WeightLine.line wl) = false →
  add_line nc (Some scores) wl = Some scores' → scores' = scores.
Proof.
  intros Hz. pose proof (nonzero_row_false _ Hz) as Hz'. rewrite add_line_unfold.
  destruct (_ <? _); by apply add_cols_zero.
Qed.

Lemma scores_of_filter nc lines :
  Forall (fun wl => length (WeightLine.line wl) = LINE_SIZE) lines →
  scores_of nc (List.filter (fun wl => nonzero_row (WeightLine.line wl)) lines) =
    scores_of nc lines.
Proof.
  unfold scores_of.
  assert (∀ s0, length s0 = nc →
     Forall (fun wl => length (WeightLine.line wl) = LINE_SIZE) lines →
     foldl (add_line nc) (Some s0)
           (List.filter (fun wl => nonzero_row (WeightLine.line wl)) lines) =
     foldl (add_line nc) (Some s0) lines) as H; [|by apply H, length_replicate].
  induction lines as [|wl lines IH]; intros s0 Hs0 Hl; [done|].
  apply Forall_cons in Hl as [Hwl Hl]. cbn [List.filter foldl].
  destruct (add_line_Some nc s0 wl Hs0 Hwl) as (s1 & Hs1 & Hlen1).
  destruct (nonzero_row (WeightLine.line wl)) eqn:Hnz.
  - cbn [foldl]. rewrite Hs1. by apply IH.
  - rewrite Hs1. rewrite (add_line_zero _ _ _ _ Hnz Hs1). by apply IH.
Qed.

Lemma filter_flat_map {A B} (p : B → bool) (g : A → list B) xs :
  List.filter p (flat_map g xs) = flat_map (fun x => List.filter p (g x)) xs.
Proof.
  induction xs as [|x xs IH]; [done|]. cbn. by rewrite List.filter_app, IH.
Qed.

Lemma nonzero_rows_lookup self t f row :
  row < get_nr_rows (nr_class self) →
  nonzero_rows self t f !! row =
    Some (match feature_row self t f row with
          | Some l => if nonzero_row l then Some l else None
          | None => None
          end).
Proof.
  intros Hrow. unfold nonzero_rows. rewrite list_lookup_fmap.
  by rewrite lookup_seq_lt.
Qed.

(** The lines gathered for the non-zero rows of a feature are the non-zero
    lines gathered for the feature. *)
Lemma lines_of_nonzero_rows self t f :
  lines_of_rows (nonzero_rows self t f) (get_nr_rows (nr_class self)) =
    List.filter (fun wl => nonzero_row (WeightLine.line wl))
      (match feature_rows self t f with
       | Some rows => lines_of_rows rows (get_nr_rows (nr_class self))
       | None => []
       end).
Proof.
  unfold lines_of_rows.
  assert (∀ B (g : nat → list B) xs, (∀ x, x ∈ xs → g x = []) → flat_map g xs = [])
    as Hnil.
  { intros B g xs Hg. induction xs as [|x xs IH]; [done|]. cbn.
    rewrite Hg by apply list_elem_of_here. apply IH.
    intros y Hy. apply Hg. by apply list_elem_of_further. }
  destruct (feature_rows self t f) as [rows|] eqn:Hrows.
  - rewrite filter_flat_map. apply flat_map_ext_in. intros row Hrow.
    apply elem_of_seq in Hrow. rewrite nonzero_rows_lookup by lia.
    unfold feature_row. rewrite Hrows. cbn.
    destruct (rows !! row) as [[l|]|]; [|done..].
    cbn [List.filter WeightLine.line mbind option_bind].
    by destruct (nonzero_row l).
  - cbn. apply Hnil. intros row Hrow. apply elem_of_seq in Hrow.
    rewrite nonzero_rows_lookup by lia. unfold feature_row. by rewrite Hrows.
Qed.

Lemma lines_of_no_nonzero_rows self t f :
  has_nonzero self t f = false →
  lines_of_rows (nonzero_rows self t f) (get_nr_rows (nr_class self)) = [].
Proof.
  intros Hn. unfold lines_of_rows.
  assert (∀ r, r ∈ nonzero_rows self t f → r = None) as Hall.
  { intros r Hr. destruct r as [l|]; [|done]. exfalso.
    assert (has_nonzero self t f = true) as Ht; [|congruence].
    apply existsb_exists. exists (Some l). split; [by apply list_elem_of_In|].
    by apply bool_decide_eq_true. }
  induction (seq 0 (get_nr_rows (nr_class self))) as [|row rows IH]; [done|].
  cbn. rewrite IH, app_nil_r.
  destruct (nonzero_rows self t f !! row) as [[l|]|] eqn:E; [|done..].
  apply list_elem_of_lookup_2, Hall in E. done.
Qed.

(** A model that holds the non-zero rows of another gathers the non-zero
    lines of the other. *)
Lemma gathered_nonzero self self' feat_ids n :
  nr_class self' = nr_class self →
  (∀ t f, feature_rows self' t f =
          if has_nonzero self t f then Some (nonzero_rows self t f) else None) →
  gathered self' feat_ids n =
    List.filter (fun wl => nonzero_row (WeightLine.line wl)) (gathered self feat_ids n).
Proof.
  intros Hnc Hrows. unfold gathered. rewrite filter_flat_map.
  apply flat_map_ext_in. intros t _. unfold feature_lines.
  destruct (feat_ids !! t) as [f|]; [|done].
  destruct (f =? 0)%N; [done|].
  rewrite Hrows, Hnc, <- lines_of_nonzero_rows.
  destruct (has_nonzero self t f) eqn:E; [done|].
  by rewrite lines_of_no_nonzero_rows.
Qed.


(** *** The round trip *)

Lemma has_nonzero_true self t f :
  has_nonzero self t f = true ↔
  ∃ row l, row < get_nr_rows (nr_class self) ∧
           feature_row self t f row = Some l ∧ nonzero_row l = true.
Proof.
  unfold has_nonzero. rewrite existsb_exists. split.
  - intros (r & Hin & Hr). apply bool_decide_eq_true in Hr as [l ->].
    apply list_elem_of_In, list_elem_of_lookup in Hin as [row Hrow].
    assert (row < get_nr_rows (nr_class self)) as Hlt.
    { apply lookup_lt_Some in Hrow. unfold nonzero_rows in Hrow.
      by rewrite length_fmap, length_seq in Hrow. }
    rewrite nonzero_rows_lookup in Hrow by done.
    exists row. destruct (feature_row self t f row) as [l'|]; [|done].
    exists l'. destruct (nonzero_row l'); naive_solver.
  - intros (row & l & Hlt & Hrow & Hnz). exists (Some l). split; [|done].
    apply list_elem_of_In, list_elem_of_lookup. exists row.
    rewrite nonzero_rows_lookup by done. by rewrite Hrow, Hnz.
Qed.

(** A feature key has a non-zero row when one of its weights is not zero. *)
Lemma has_nonzero_weight self t f :
  wf self →
  has_nonzero self t f = true ↔
  ∃ clas w, weight_of self t f clas = Some w ∧ w ≠ 0%Z.
Proof.
  intros Hwf. rewrite has_nonzero_true. unfold feature_row, weight_of.
  destruct (feature_rows self t f) as [rows|] eqn:Hrows; cbn [mbind option_bind];
    [|naive_solver].
  assert (length rows = get_nr_rows (nr_class self) ∧
          ∀ row l, rows !! row = Some (Some l) → length l = LINE_SIZE) as [Hlen Hline].
  { unfold feature_rows in Hrows.
    destruct (weight_addr self t f) as [a|] eqn:Ha; [|done]. cbn in Hrows.
    destruct (wf_keys _ Hwf t f) as [feat Hfeat]; [by rewrite Ha|].
    destruct (wf_feat _ Hwf _ _ _ Hfeat) as (_ & Ha' & rows' & meta & Hr & _ & Hl & Hm).
    assert (rows' = rows) as -> by congruence. split; [done|].
    intros row l Hrow. destruct (Forall2_lookup_l _ _ _ _ _ Hm Hrow) as (mr & _ & Hmatch).
    destruct mr; [|done]. by destruct Hmatch. }
  split.
  - intros (row & l & _ & Hrow & Hnz).
    destruct (rows !! row) as [[l'|]|] eqn:E; cbn in Hrow; [|done..].
    injection Hrow as ->.
    apply existsb_exists in Hnz as (w & Hin & Hw).
    apply list_elem_of_In, list_elem_of_lookup in Hin as [col Hcol].
    pose proof (lookup_lt_Some _ _ _ Hcol) as Hlt. rewrite (Hline _ _ E) in Hlt.
    exists (row * LINE_SIZE + col), w. split.
    + assert (get_row (row * LINE_SIZE + col) = row) as ->.
      { unfold get_row, LINE_SIZE in *. symmetry.
        apply (Nat.div_unique _ 7 row col); lia. }
      assert (get_col (row * LINE_SIZE + col) = col) as ->.
      { unfold get_col, LINE_SIZE in *. symmetry.
        apply (Nat.mod_unique _ 7 row col); lia. }
      by rewrite (cell_lookup _ _ _ _ E).
    + by apply negb_true_iff, Z.eqb_neq in Hw.
  - intros (clas & w & Hcell & Hw).
    apply cell_Some_inv in Hcell as (l & Hrow & Hcol).
    exists (get_row clas), l. split.
    { apply lookup_lt_Some in Hrow. lia. }
    rewrite Hrow. split; [done|].
    apply existsb_exists. exists w. split.
    + apply list_elem_of_In. by eapply list_elem_of_lookup_2.
    + by apply negb_true_iff, Z.eqb_neq.
Qed.

(** Every feature with a row is kept when nothing is pruned. *)
Lemma kept_zero self t f :
  wf self → has_nonzero self t f = true → kept self 0 t f = true.
Proof.
  intros Hwf (row & l & _ & Hrow & _)%has_nonzero_true. unfold kept.
  destruct (train_feat self t f) as [feat|] eqn:Hfeat.
  - destruct (wf_feat _ Hwf _ _ _ Hfeat) as (_ & _ & Hok).
    by destruct (get_total_count_Some _ _ _ Hok) as [tf ->].
  - by rewrite feature_row_unknown in Hrow.
Qed.

Lemma feature_rows_None s t f :
  scorable s → feature_rows s t f = None → weight_addr s t f = None.
Proof.
  intros Hsc Hnone. unfold feature_rows in Hnone.
  destruct (weight_addr s t f) as [a|] eqn:Ha; [|done].
  destruct (sc_rows _ Hsc _ _ _ Ha) as (rows & Hrows & _).
  cbn in Hnone. congruence.
Qed.

(** Two models score alike when the second holds the non-zero rows of the
    first. *)
Lemma same_scores self self' py_feats :
  scorable self → scorable self' →
  nr_class self' = nr_class self → nr_templates self' = nr_templates self →
  (∀ t f, feature_rows self' t f =
          if has_nonzero self t f then Some (nonzero_rows self t f) else None) →
  length py_feats ≤ nr_templates self →
  ∃ sc, (call py_feats self).1 = Return sc ∧ (call py_feats self').1 = Return sc ∧
        length sc = nr_class self.
Proof.
  intros Hsc Hsc' Hnc Hnt Hrows Hlen.
  destruct (call_spec self py_feats Hsc Hlen) as (sc & Hsco & Hl & Hcall).
  destruct (call_spec self' py_feats Hsc') as (sc' & Hsco' & Hl' & Hcall'); [lia|].
  exists sc. split; [done|]. split; [|done].
  rewrite Hcall'. f_equal.
  rewrite (gathered_nonzero self self') in Hsco' by done.
  rewrite Hnc, scores_of_filter in Hsco' by (by apply gathered_line).
  congruence.
Qed.

(** C8.  Round trip: a trained model (with at least one class) can be dumped
    with [freq_thresh = 0], and the dump can be loaded into a fresh model of
    the same [nr_class] and [nr_templates]; the loaded model gives the
    scores of the trained model for every feature vector; it holds, for
    every feature key with a non-zero weight, the rows of the key that have
    a non-zero weight; and a feature key whose weights are all zero is not
    in the loaded model. *)
Theorem dump_load_round_trip nc nt self :
  trained nc nt self → 1 ≤ nc →
  ∃ lines self',
    dump self 0 = Some lines ∧
    load lines 0 (init nc nt) = (Return tt, self') ∧
    (∀ py_feats, length py_feats ≤ nt →
       ∃ sc, (call py_feats self).1 = Return sc ∧
             (call py_feats self').1 = Return sc ∧ length sc = nc) ∧
    (∀ t f, has_nonzero self t f = true →
            feature_rows self' t f = Some (nonzero_rows self t f)) ∧
    (∀ t f, has_nonzero self t f = false → weight_addr self' t f = None).
Proof.
  intros (Hwf & <- & <-)%trained_wf Hnc.
  destruct (dump_load self 0 Hwf Hnc) as (self' & Hdump & Hload & Hl & Hc & _ & Hrows).
  assert (∀ t f, feature_rows self' t f =
                 if has_nonzero self t f then Some (nonzero_rows self t f) else None)
    as Hrows'.
  { intros t f. rewrite Hrows. destruct (has_nonzero self t f) eqn:Hnz.
    - rewrite kept_zero by done. cbn [andb]. f_equal. apply list_fmap_id.
    - by rewrite andb_false_r. }
  destruct Hc as (Hnc' & Hnt' & _). destruct Hl as [Hsc' _].
  exists (record_line <$> records self 0), self'.
  split; [done|]. split; [done|]. split; [|split].
  - intros py_feats Hlen. apply same_scores; try done. by apply wf_scorable.
  - intros t f Hnz. by rewrite Hrows', Hnz.
  - intros t f Hnz. apply feature_rows_None; [done|]. by rewrite Hrows', Hnz.
Qed.

Lemma dump_load_round_trip_witness :
  ∃ lines self',
    dump (update [(0, [((0, 5%N), 1%Z)])] (init 2 1)).2 0 = Some lines ∧
    load lines 0 (init 2 1) = (Return tt, self') ∧
    (∀ py_feats, length py_feats ≤ 1 →
       ∃ sc, (call py_feats (update [(0, [((0, 5%N), 1%Z)])] (init 2 1)).2).1 = Return sc ∧
             (call py_feats self').1 = Return sc ∧ length sc = 2) ∧
    (∀ t f, has_nonzero (update [(0, [((0, 5%N), 1%Z)])] (init 2 1)).2 t f = true →
            feature_rows self' t f =
              Some (nonzero_rows (update [(0, [((0, 5%N), 1%Z)])] (init 2 1)).2 t f)) ∧
    (∀ t f, has_nonzero (update [(0, [((0, 5%N), 1%Z)])] (init 2 1)).2 t f = false →
            weight_addr self' t f = None).
Proof.
  apply (dump_load_round_trip 2 1 (update [(0, [((0, 5%N), 1%Z)])] (init 2 1)).2).
  - apply trained_update; [apply trained_init|]. vm_compute. discriminate.
  - lia.
Defined.


(** *** The lines of a dump *)

Section LineKeys.
Local Open Scope string_scope.



End LineKeys.


Lemma nonzero_row_nonempty l : nonzero_row l = true → l ≠ [].
Proof. by intros H ->. Qed.

Lemma flat_map_bind {A B} (g : A → list B) l : flat_map g l = l ≫= g.
Proof. induction l as [|x l IH]; [done|]. cbn. by rewrite IH. Qed.


Lemma elem_of_flat_map {A B} (g : A → list B) l y :
  y ∈ flat_map g l ↔ ∃ x, x ∈ l ∧ y ∈ g x.
Proof. rewrite flat_map_bind, list_elem_of_bind. naive_solver. Qed.









(** ** Rows and columns of classes *)

(** X1: the number of rows is the number of classes divided by [LINE_SIZE],
    rounded up, and never less than one. *)
Theorem get_nr_rows_rounds_up n :
  get_nr_rows n = Nat.max 1 ((n + (LINE_SIZE - 1)) / LINE_SIZE).
Proof.
  unfold get_nr_rows, get_row, LINE_SIZE.
  change (7 - 1) with 6.
  pose proof (Nat.div_mod_eq n 7) as Hd.
  pose proof (Nat.mod_upper_bound n 7 ltac:(lia)) as Hm.
  pose proof (Nat.div_mod_eq (n + 6) 7) as Hd'.
  pose proof (Nat.mod_upper_bound (n + 6) 7 ltac:(lia)) as Hm'.
  destruct (Nat.eqb_spec (n / 7) 0); destruct (Nat.ltb_spec (n / 7 * 7) n);
    cbv [orb]; lia.
Qed.

Lemma class_of_cell row col :
  col < LINE_SIZE →
  get_row (row * LINE_SIZE + col) = row ∧ get_col (row * LINE_SIZE + col) = col.
Proof.
  intros Hcol. unfold get_row, get_col, LINE_SIZE in *. split.
  - symmetry. apply (Nat.div_unique _ 7 row col); lia.
  - symmetry. apply (Nat.mod_unique _ 7 row col); lia.
Qed.

(** X2: a class is stored at row [get_row] and column [get_col]: the column
    is below [LINE_SIZE], the cell of a class below [nr_class] lies in one
    of the [get_nr_rows nr_class] rows, the class is recovered from its
    cell, and every cell is the cell of its class. *)
Theorem class_cell_round_trip :
  (∀ clas, get_col clas < LINE_SIZE ∧
           get_row clas * LINE_SIZE + get_col clas = clas) ∧
  (∀ clas n, clas < n → get_row clas < get_nr_rows n) ∧
  (∀ row col, col < LINE_SIZE →
              get_row (row * LINE_SIZE + col) = row ∧
              get_col (row * LINE_SIZE + col) = col).
Proof.
  split; [|split].
  - intros clas. split; [apply get_col_lt|].
    unfold get_row, get_col, LINE_SIZE.
    pose proof (Nat.div_mod_eq clas 7). lia.
  - intros clas n. apply get_row_lt.
  - apply class_of_cell.
Qed.
(** ** The score cache, from an empty cache *)

Section CacheReach.
Import ScoresCache.
Variable hash64 : list Byte.byte -> N -> N.

Abbreviation lookup := (ScoresCache.lookup hash64).
Abbreviation query := (ScoresCache.query hash64).
Abbreviation queries := (ScoresCache.queries hash64).
Abbreviation key size kernel := (hash64 (take size kernel) 0%N).

Lemma write_counts self b scores :
  n_hit (write self b scores) = n_hit self ∧
  n_total (write self b scores) = n_total self.
Proof. by destruct b. Qed.

Lemma write_arrays_length self b scores :
  length (_arrays (write self b scores)) = length (_arrays self).
Proof. destruct b; cbn; [apply length_insert|done]. Qed.

(** What one query keeps: the bound on the free-slot pointer, one slot
    per key, and the counters. *)
Lemma query_keeps self sz kernel computed :
  i self ≤ max_size self → size (_cache self) = i self → cache_wf self →
  (∀ h1 h2 b, _cache self !! h1 = Some b → _cache self !! h2 = Some b → h1 = h2) →
  (0 ≤ n_hit self ≤ n_total self)%Z →
  let self' := query self sz kernel computed in
  i self' ≤ max_size self' ∧ max_size self' = max_size self ∧
  size (_cache self') = i self' ∧ cache_wf self' ∧
  (∀ h1 h2 b, _cache self' !! h1 = Some b → _cache self' !! h2 = Some b → h1 = h2) ∧
  n_total self' = (n_total self + 1)%Z ∧
  (0 ≤ n_hit self' ≤ n_total self')%Z ∧
  length (_arrays self') = length (_arrays self).
Proof.
  intros Hi Hsz Hwf Hinj Hn self'.
  assert (cache_wf self') as Hwf' by (by apply query_wf).
  subst self'. unfold ScoresCache.query in *.
  destruct (lookup_cases hash64 self sz kernel) as [[b' H]|[[H Hf]|[H Hf]]].
  - rewrite (lookup_hit _ _ _ _ _ H) in *. cbn. repeat split; try done; lia.
  - rewrite (lookup_full _ _ _ _ H Hf) in *. cbn. repeat split; try done; lia.
  - rewrite (lookup_register _ _ _ _ H Hf) in *. cbn.
    repeat split; try done; try lia.
    + rewrite map_size_insert_None by done. lia.
    + intros h1 h2 b. rewrite !lookup_insert_Some.
      intros [[<- <-]|[Hne1 H1]] [[<- Hb]|[Hne2 H2]]; try done.
      * destruct (Hwf _ _ H2) as (j & [= <-] & Hj). lia.
      * subst b. destruct (Hwf _ _ H1) as (j & [= <-] & Hj). lia.
      * by eapply Hinj.
    + apply length_insert.
Qed.

Lemma queries_keeps qs : ∀ self,
  i self ≤ max_size self → size (_cache self) = i self → cache_wf self →
  (∀ h1 h2 b, _cache self !! h1 = Some b → _cache self !! h2 = Some b → h1 = h2) →
  (0 ≤ n_hit self ≤ n_total self)%Z →
  let self' := queries self qs in
  i self' ≤ max_size self' ∧ max_size self' = max_size self ∧
  size (_cache self') = i self' ∧ cache_wf self' ∧
  (∀ h1 h2 b, _cache self' !! h1 = Some b → _cache self' !! h2 = Some b → h1 = h2) ∧
  n_total self' = (n_total self + Z.of_nat (length qs))%Z ∧
  (0 ≤ n_hit self' ≤ n_total self')%Z ∧
  length (_arrays self') = length (_arrays self).
Proof.
  induction qs as [|[[sz kernel] computed] qs IH]; intros self Hi Hsz Hwf Hinj Hn.
  - cbn. repeat split; try done; lia.
  - cbn [ScoresCache.queries length].
    destruct (query_keeps self sz kernel computed Hi Hsz Hwf Hinj Hn)
      as (H1 & H2 & H3 & H4 & H5 & H6 & H7 & H8).
    destruct (IH _ H1 H3 H4 H5 H7) as (G1 & G2 & G3 & G4 & G5 & G6 & G7 & G8).
    repeat split; try done; try congruence; try lia.
Qed.

(** X3: after [flush] (or in a new cache) and any sequence of queries, the
    cache holds at most [max_size] keys, as many as the free-slot pointer
    says; every key owns one of the pre-allocated arrays below the
    pointer, no array is owned by two keys, and the counters count the
    lookups: [n_total] is their number and [n_hit] lies between 0 and
    [n_total]. *)
Theorem cache_bounded_and_unshared self qs :
  let c := queries (flush self) qs in
  i c ≤ max_size self ∧ max_size c = max_size self ∧
  size (_cache c) = i c ∧
  (∀ h b, _cache c !! h = Some b → ∃ j, b = Slot j ∧ j < i c) ∧
  (∀ h1 h2 b, _cache c !! h1 = Some b → _cache c !! h2 = Some b → h1 = h2) ∧
  n_total c = Z.of_nat (length qs) ∧
  (0 ≤ n_hit c ≤ n_total c)%Z.
Proof.
  destruct (queries_keeps qs (flush self)) as (H1 & H2 & H3 & H4 & H5 & H6 & H7 & _).
  - cbn. lia.
  - done.
  - apply cache_wf_flush.
  - intros h1 h2 b H. cbn in H. by rewrite lookup_empty in H.
  - cbn. lia.
  - cbn in *. repeat split; try done; lia.
Qed.

Lemma query_other self size kernel computed h :
  key size kernel ≠ h → _cache self !! h = None →
  _cache (query self size kernel computed) !! h = None.
Proof.
  intros Hne Hh. unfold ScoresCache.query.
  destruct (lookup_cases hash64 self size kernel) as [[b' H]|[[H Hf]|[H Hf]]].
  - by rewrite (lookup_hit _ _ _ _ _ H).
  - by rewrite (lookup_full _ _ _ _ H Hf).
  - rewrite (lookup_register _ _ _ _ H Hf). cbn. by rewrite lookup_insert_ne.
Qed.

Lemma query_i self size kernel computed :
  i (query self size kernel computed) ≤ i self + 1 ∧
  max_size (query self size kernel computed) = max_size self ∧
  length (_arrays (query self size kernel computed)) = length (_arrays self).
Proof.
  unfold ScoresCache.query.
  destruct (lookup_cases hash64 self size kernel) as [[b' H]|[[H Hf]|[H Hf]]].
  - rewrite (lookup_hit _ _ _ _ _ H). cbn. split; [lia|done].
  - rewrite (lookup_full _ _ _ _ H Hf). cbn. split; [lia|done].
  - rewrite (lookup_register _ _ _ _ H Hf). cbn. split; [lia|].
    split; [done|apply length_insert].
Qed.

(** While there is room, the first query of a key registers it with the
    scores the caller computed. *)
Lemma queries_register qs : ∀ self h,
  cache_wf self → length (_arrays self) = max_size self →
  i self + length qs ≤ max_size self →
  _cache self !! h = None →
  match List.find (fun q => (key q.1.1 q.1.2 =? h)%N) qs with
  | Some q => ∃ j, _cache (queries self qs) !! h = Some (Slot j) ∧
                   read (queries self qs) (Slot j) = Some q.2
  | None => _cache (queries self qs) !! h = None
  end.
Proof.
  induction qs as [|[[size kernel] computed] qs IH]; intros self h Hwf Hlen Hi Hh.
  - done.
  - cbn [ScoresCache.queries List.find fst snd]. cbn [length] in Hi.
    destruct (N.eqb_spec (key size kernel) h) as [Heq|Hne].
    + assert (_cache (query self size kernel computed) !! h = Some (Slot (i self)) ∧
              read (query self size kernel computed) (Slot (i self)) = Some computed)
        as [Hc Hr].
      { unfold ScoresCache.query. rewrite <- Heq in *.
        rewrite (lookup_register _ _ _ _ Hh) by lia. cbn.
        split; [apply lookup_insert_eq|].
        apply list_lookup_insert_eq. lia. }
      destruct (queries_keep hash64 (query self size kernel computed) qs h (i self))
        as (_ & Hc' & Hr'); [by apply query_wf|done|].
      exists (i self). split; [done|]. by rewrite Hr'.
    + destruct (query_i self size kernel computed) as (Hi' & Hm' & Hl').
      apply IH.
      * by apply query_wf.
      * congruence.
      * lia.
      * by apply query_other.
Qed.

(** X4: in a new cache, while no more than [max_size] queries were made, a
    lookup is a hit exactly when a query with the same key was made, and
    the buffer it returns holds the scores computed at the first such
    query. *)
Theorem cached_scores_round_trip scores_size max_size qs size kernel :
  length qs ≤ max_size →
  let c := queries (init scores_size max_size) qs in
  match List.find (fun q => (key q.1.1 q.1.2 =? key size kernel)%N) qs with
  | Some q => ∃ j, (lookup c size kernel).1 = (Slot j, Some true) ∧
                   read c (Slot j) = Some q.2
  | None => (lookup c size kernel).1.2 ≠ Some true
  end.
Proof.
  intros Hlen c.
  pose proof (queries_register qs (init scores_size max_size) (key size kernel)
                (cache_wf_init _ _)) as H.
  cbn [i _arrays ScoresCache.max_size init] in H.
  rewrite length_replicate in H.
  specialize (H eq_refl ltac:(lia) (lookup_empty _)).
  destruct (List.find _ qs) as [q|].
  - destruct H as (j & Hc & Hr). exists j. split; [|done].
    subst c. by rewrite (lookup_hit _ _ _ _ _ Hc).
  - subst c.
    destruct (lookup_cases hash64 (queries (init scores_size max_size) qs) size kernel)
      as [[b' H']|[[H' Hf]|[H' Hf]]].
    + congruence.
    + by rewrite (lookup_full _ _ _ _ H' Hf).
    + by rewrite (lookup_register _ _ _ _ H' Hf).
Qed.
End CacheReach.

Lemma cached_scores_round_trip_witness :
  let hash64 := fun (kernel : list Byte.byte) (_ : N) => N.of_nat (length kernel) in
  let qs := [(1, [Byte.x01], [1; 2; 3]%Z); (2, [Byte.x01; Byte.x02], [4; 5; 6]%Z);
             (1, [Byte.x01], [7; 8; 9]%Z)] in
  length qs ≤ 3 ∧
  ∃ j, (ScoresCache.lookup hash64
          (ScoresCache.queries hash64 (ScoresCache.init 3 3) qs) 1 [Byte.x01]).1 =
         (ScoresCache.Slot j, Some true) ∧
       ScoresCache.read (ScoresCache.queries hash64 (ScoresCache.init 3 3) qs)
                        (ScoresCache.Slot j) = Some [1; 2; 3]%Z.
Proof.
  intros hash64 qs.
  assert (length qs ≤ 3) as Hlen by (cbn; lia).
  split; [exact Hlen|].
  exact (cached_scores_round_trip hash64 3 3 qs 1 [Byte.x01] Hlen).
Defined.
(** ** Scores are sums of weights *)

Lemma sum_Z_app l1 l2 : sum_Z (l1 ++ l2) = (sum_Z l1 + sum_Z l2)%Z.
Proof.
  unfold sum_Z. induction l1 as [|x l1 IH]; cbn [app foldr]; [done|].
  rewrite IH. lia.
Qed.









(** ** What an update does to the cells *)

Lemma weight_of_row s t f c :
  weight_of s t f c = feature_row s t f (get_row c) ≫= (.!! get_col c).
Proof.
  unfold weight_of, feature_row, cell.
  destruct (feature_rows s t f) as [rows|]; cbn; [|done].
  by destruct (rows !! get_row c) as [[l|]|].
Qed.

Lemma meta_of_row s t f c :
  meta_of s t f c = feature_meta_row s t f (get_row c) ≫= (.!! get_col c).
Proof.
  unfold meta_of, feature_meta_row, cell.
  destruct (feature_meta s t f) as [rows|]; cbn; [|done].
  by destruct (rows !! get_row c) as [[l|]|].
Qed.

Lemma weight_at_row s t f c :
  weight_at s t f c =
    default 0%Z (default (replicate LINE_SIZE 0%Z) (feature_row s t f (get_row c))
                 !! get_col c).
Proof.
  unfold weight_at. rewrite weight_of_row.
  destruct (feature_row s t f (get_row c)); cbn; [done|].
  by rewrite lookup_replicate_2 by apply get_col_lt.
Qed.

Lemma meta_at_row s t f c :
  meta_at s t f c =
    default MetaData.zero
      (default (replicate LINE_SIZE MetaData.zero) (feature_meta_row s t f (get_row c))
       !! get_col c).
Proof.
  unfold meta_at. rewrite meta_of_row.
  destruct (feature_meta_row s t f (get_row c)); cbn; [done|].
  by rewrite lookup_replicate_2 by apply get_col_lt.
Qed.

Lemma class_eq c c' : get_row c = get_row c' → get_col c = get_col c' → c = c'.
Proof.
  unfold get_row, get_col, LINE_SIZE. intros Hr Hc.
  pose proof (Nat.div_mod_eq c 7). pose proof (Nat.div_mod_eq c' 7). lia.
Qed.

(** One non-zero delta for a feature key of the model's range: the cell of
    the class gets the delta, a count and the time stamp, after its total is
    brought up to the time; every other cell reads as before. *)
Lemma update_feature_cells self clas t f upd :
  wf self → upd ≠ 0%Z → f ≠ 0%N →
  t < nr_templates self → get_row clas < get_nr_rows (nr_class self) →
  ∃ self',
    update_feature clas ((t, f), upd) self = (Return tt, self') ∧
    wf self' ∧ same_config self self' ∧
    (∀ t' f' c',
        weight_at self' t' f' c' =
          if decide (t' = t ∧ f' = f ∧ c' = clas)
          then (weight_at self t f clas + upd)%Z
          else weight_at self t' f' c') ∧
    (∀ t' f' c',
        meta_at self' t' f' c' =
          if decide (t' = t ∧ f' = f ∧ c' = clas)
          then MetaData.mk
                 (total_through (time self) self t f clas)
                 (MetaData.count (meta_at self t f clas) + 1) (time self)
          else meta_at self t' f' c').
Proof.
  intros Hwf Hupd Hf Ht Hrow.
  destruct (update_feature_spec self clas t f upd Hwf Hupd Hf Ht Hrow)
    as (self' & w & md & Hw & Hmd & Hrun & Hwf' & Hc & Hrows & Hmeta).
  exists self'. split; [done|]. split; [done|]. split; [done|].
  assert (weight_at self t f clas = w) as Hwat.
  { rewrite weight_at_row. by rewrite Hw. }
  assert (meta_at self t f clas = md) as Hmat.
  { rewrite meta_at_row. by rewrite Hmd. }
  pose proof (get_col_lt clas) as Hcol.
  split.
  - intros t' f' c'. rewrite (weight_at_row self'), Hrows.
    destruct (decide (t' = t ∧ f' = f ∧ get_row c' = get_row clas)) as [(-> & -> & Hr)|Hne].
    + cbn [default from_option id]. destruct (decide (get_col c' = get_col clas)) as [Hceq|Hcne].
      * rewrite decide_True by (split; [done|]; split; [done|]; by apply class_eq).
        rewrite Hceq, list_lookup_insert_eq; [by rewrite Hwat|].
        apply lookup_lt_Some in Hw. done.
      * rewrite decide_False by (intros (_ & _ & ->); done).
        rewrite list_lookup_insert_ne by done.
        rewrite (weight_at_row self t f c'), Hr. done.
    + rewrite decide_False by (intros (-> & -> & ->); by apply Hne).
      by rewrite (weight_at_row self t' f' c').
  - intros t' f' c'. rewrite (meta_at_row self'), Hmeta.
    destruct (decide (t' = t ∧ f' = f ∧ get_row c' = get_row clas)) as [(-> & -> & Hr)|Hne].
    + cbn [default from_option id]. destruct (decide (get_col c' = get_col clas)) as [Hceq|Hcne].
      * rewrite decide_True by (split; [done|]; split; [done|]; by apply class_eq).
        rewrite Hceq, list_lookup_insert_eq; [|by apply lookup_lt_Some in Hmd].
        cbn. unfold total_through. by rewrite Hwat, Hmat.
      * rewrite decide_False by (intros (_ & _ & ->); done).
        rewrite list_lookup_insert_ne by done.
        rewrite (meta_at_row self t f c'), Hr. done.
    + rewrite decide_False by (intros (-> & -> & ->); by apply Hne).
      by rewrite (meta_at_row self t' f' c').
Qed.
(** ** Loops *)

Lemma for_each_inv_in {S A} (I : S → Prop) (xs : list A) (body : A → M S unit) s :
  (∀ x s, x ∈ xs → I s → I (body x s).2) → I s → I (for_each xs body s).2.
Proof.
  revert s. induction xs as [|x xs IH]; intros s Hbody Hs; [done|].
  cbn [for_each]. unfold bind.
  pose proof (Hbody x s (list_elem_of_here _ _) Hs) as H1.
  destruct (body x s) as [[[]|e] s1]; cbn in *; [|done].
  apply IH; [|done]. intros y s' Hy. apply Hbody. by apply list_elem_of_further.
Qed.

(** A loop whose body either returns or fails an assertion. *)
Lemma for_each_asserts {S A} (I : S → Prop) (ok : A → bool) (xs : list A)
    (body : A → M S unit) s :
  (∀ x s, x ∈ xs → I s →
          (body x s).1 = (if ok x then Return tt else Raise AssertionError) ∧
          I (body x s).2) →
  I s →
  (for_each xs body s).1 = (if forallb ok xs then Return tt else Raise AssertionError) ∧
  I (for_each xs body s).2.
Proof.
  revert s. induction xs as [|x xs IH]; intros s Hbody Hs; [done|].
  cbn [for_each forallb]. unfold bind.
  destruct (Hbody x s (list_elem_of_here _ _) Hs) as [H1 H2].
  destruct (body x s) as [r s1]; cbn in *. subst r.
  destruct (ok x); cbn [andb]; [|done].
  apply IH; [|done]. intros y s' Hy. apply Hbody. by apply list_elem_of_further.
Qed.

(** A loop whose body returns and adds to a quantity. *)
Lemma for_each_sum {S A} (I : S → Prop) (v : S → Z) (d : A → Z) (xs : list A)
    (body : A → M S unit) s :
  (∀ x s, x ∈ xs → I s →
          (body x s).1 = Return tt ∧ I (body x s).2 ∧
          v (body x s).2 = (v s + d x)%Z) →
  I s →
  (for_each xs body s).1 = Return tt ∧ I (for_each xs body s).2 ∧
  v (for_each xs body s).2 = (v s + sum_Z (map d xs))%Z.
Proof.
  revert s. induction xs as [|x xs IH]; intros s Hbody Hs.
  { cbn. split; [done|]. split; [done|]. lia. }
  cbn [for_each]. unfold bind.
  destruct (Hbody x s (list_elem_of_here _ _) Hs) as (H1 & H2 & H3).
  destruct (body x s) as [r s1]; cbn in *. subst r.
  destruct (IH s1) as (G1 & G2 & G3); [|done|].
  { intros y s' Hy. apply Hbody. by apply list_elem_of_further. }
  split; [done|]. split; [done|]. rewrite G3, H3. unfold sum_Z. cbn [map foldr]. lia.
Qed.

(** ** One item of an update *)

(** An item of an update either passes (a zero delta, or a delta for a
    feature id that is not 0) or fails the assertion; in both cases the
    model stays well formed, the time stays, and no total brought up to the
    time changes. *)
Lemma update_feature_step self clas item :
  wf self →
  get_row clas < get_nr_rows (nr_class self) → item.1.1 < nr_templates self →
  let self' := (update_feature clas item self).2 in
  (update_feature clas item self).1 =
    (if (item.2 =? 0)%Z || negb (item.1.2 =? 0)%N
     then Return tt else Raise AssertionError) ∧
  wf self' ∧ same_config self self' ∧
  (∀ t f c, total_through (time self) self' t f c = total_through (time self) self t f c) ∧
  ((item.2 =? 0)%Z || negb (item.1.2 =? 0)%N = true →
   (∀ t f c, weight_at self' t f c =
             (weight_at self t f c +
              if decide (clas = c) then item_delta t f item else 0)%Z) ∧
   (∀ t f c, MetaData.count (meta_at self' t f c) =
             (MetaData.count (meta_at self t f c) +
              if decide (clas = c ∧ item.1 = (t, f) ∧ item.2 ≠ 0%Z) then 1 else 0)%Z)).
Proof.
  destruct item as [[t f] upd]. cbn [fst snd]. intros Hwf Hrow Ht.
  destruct (Z.eqb_spec upd 0) as [->|Hupd].
  { rewrite update_feature_zero. cbn [orb fst snd].
    split; [done|]. split; [done|]. split; [apply same_config_refl|].
    split; [done|]. intros _. split.
    - intros t' f' c. unfold item_delta. cbn [fst snd].
      destruct (decide (clas = c)); [|lia]. destruct (decide _); lia.
    - intros t' f' c. rewrite decide_False by naive_solver. lia. }
  destruct (N.eqb_spec f 0) as [->|Hf].
  { unfold update_feature.
    destruct (Z.eqb_spec upd 0) as [|_]; [done|]. cbn.
    split; [done|]. split; [done|]. split; [apply same_config_refl|].
    split; [done|]. done. }
  destruct (update_feature_cells self clas t f upd Hwf Hupd Hf Ht Hrow)
    as (s1 & Hrun & Hwf1 & Hc & Hw & Hm).
  rewrite Hrun. cbn [orb negb fst snd].
  split; [done|]. split; [done|]. split; [done|]. split.
  - intros t' f' c. unfold total_through. rewrite Hw, Hm.
    destruct (decide (t' = t ∧ f' = f ∧ c = clas)) as [(-> & -> & ->)|Hne]; [|done].
    cbn. unfold total_through. lia.
  - intros _. split.
    + intros t' f' c. rewrite Hw. unfold item_delta. cbn [fst snd].
      destruct (decide (t' = t ∧ f' = f ∧ c = clas)) as [(-> & -> & ->)|Hne].
      * rewrite !decide_True by done. done.
      * destruct (decide (clas = c)) as [->|]; [|lia].
        rewrite decide_False; [lia|]. intros [= -> ->]. by apply Hne.
    + intros t' f' c. rewrite Hm.
      destruct (decide (t' = t ∧ f' = f ∧ c = clas)) as [(-> & -> & ->)|Hne].
      * rewrite decide_True by done. done.
      * rewrite decide_False; [lia|]. intros (-> & [= -> ->] & _). by apply Hne.
Qed.
(** ** A call to [update] *)

Lemma sum_Z_zeros {A} (l : list A) : sum_Z (map (fun _ => 0%Z) l) = 0%Z.
Proof. unfold sum_Z. induction l as [|x l IH]; cbn [map foldr]; lia. Qed.

Lemma weight_at_set_time self tm t f c :
  weight_at (set_time tm self) t f c = weight_at self t f c.
Proof. done. Qed.

Lemma meta_at_set_time self tm t f c :
  meta_at (set_time tm self) t f c = meta_at self t f c.
Proof. done. Qed.

(** An update in the range of the model returns unless an assertion fails,
    and in both cases keeps the model well formed, advances the time by one
    and leaves every total brought up to the new time as it was. *)
Lemma update_invariants self updates :
  wf self → in_range (nr_class self) (nr_templates self) updates →
  let self' := (update updates self).2 in
  (update updates self).1 =
    (if asserts_hold updates then Return tt else Raise AssertionError) ∧
  wf self' ∧ nr_class self' = nr_class self ∧ nr_templates self' = nr_templates self ∧
  time self' = (time self + 1)%Z ∧
  ∀ t f c, total_through (time self + 1) self' t f c =
           total_through (time self + 1) self t f c.
Proof.
  intros Hwf Hrange.
  set (s1 := set_time (time self + 1) self).
  set (I := fun s : LinearModel.t =>
              wf s ∧ nr_class s = nr_class self ∧ nr_templates s = nr_templates self ∧
              time s = (time self + 1)%Z ∧
              ∀ t f c, total_through (time self + 1) s t f c =
                       total_through (time self + 1) self t f c).
  assert (I s1) as Hs1.
  { split; [by apply wf_set_time|]. done. }
  assert (update updates self =
          for_each updates (fun '(clas, features) =>
                              for_each features (update_feature clas)) s1) as ->.
  { done. }
  unfold asserts_hold.
  destruct (for_each_asserts I
              (fun cf => forallb (fun item => (item.2 =? 0)%Z || negb (item.1.2 =? 0)%N)
                                 cf.2)
              updates
              (fun '(clas, features) => for_each features (update_feature clas)) s1)
    as [Hres (H1 & H2 & H3 & H4 & H5)]; [|done|done].
  intros [clas features] s Hin Hs. cbn [snd].
  unfold in_range in Hrange. rewrite Forall_forall in Hrange.
  destruct (Hrange _ Hin) as [Hrow Hts]. cbn [fst snd] in Hrow, Hts.
  rewrite Forall_forall in Hts.
  apply (for_each_asserts I); [|done].
  intros item s' Hitem (G1 & G2 & G3 & G4 & G5).
  destruct (update_feature_step s' clas item G1) as (R1 & R2 & R3 & R4 & _).
  { by rewrite G2. }
  { rewrite G3. by apply Hts. }
  split; [done|]. destruct R3 as (C1 & C2 & C3 & _).
  split; [done|]. split; [congruence|]. split; [congruence|]. split; [congruence|].
  intros t f c. rewrite <- G5, <- G4. apply R4.
Qed.

(** X6: an update whose classes lie in the allocated rows and whose
    templates are templates of the model never leaves the arrays: it
    returns, or it stops at the first non-zero delta given for feature id 0
    with an [AssertionError]; in both cases the time has advanced by one and
    the model is well formed. *)
Theorem update_in_range_result self updates :
  wf self → in_range (nr_class self) (nr_templates self) updates →
  (update updates self).1 =
    (if asserts_hold updates then Return tt else Raise AssertionError) ∧
  wf (update updates self).2 ∧
  time (update updates self).2 = (time self + 1)%Z ∧
  nr_class (update updates self).2 = nr_class self ∧
  nr_templates (update updates self).2 = nr_templates self.
Proof.
  intros Hwf Hrange.
  destruct (update_invariants self updates Hwf Hrange) as (H1 & H2 & H3 & H4 & H5 & _).
  done.
Qed.

Lemma forallb_elem_of {A} (p : A → bool) l x : forallb p l = true → x ∈ l → p x = true.
Proof. rewrite forallb_forall. intros H Hin. apply H. by apply list_elem_of_In. Qed.

(** What an update that fails no assertion adds to a quantity of the
    model. *)
Lemma update_sum self updates (v : LinearModel.t → Z) (d : nat → (nat * N) * Z → Z) :
  wf self → in_range (nr_class self) (nr_templates self) updates →
  asserts_hold updates = true →
  (∀ tm s, v (set_time tm s) = v s) →
  (∀ s clas item,
      wf s → get_row clas < get_nr_rows (nr_class s) → item.1.1 < nr_templates s →
      (item.2 =? 0)%Z || negb (item.1.2 =? 0)%N = true →
      v (update_feature clas item s).2 = (v s + d clas item)%Z) →
  v (update updates self).2 =
    (v self + sum_Z (map (fun cf => sum_Z (map (d cf.1) cf.2)) updates))%Z.
Proof.
  intros Hwf Hrange Hok Hvt Hstep.
  set (s1 := set_time (time self + 1) self).
  set (I := fun s : LinearModel.t =>
              wf s ∧ nr_class s = nr_class self ∧ nr_templates s = nr_templates self).
  assert (I s1) as Hs1.
  { split; [by apply wf_set_time|]. done. }
  assert (update updates self =
          for_each updates (fun '(clas, features) =>
                              for_each features (update_feature clas)) s1) as ->.
  { done. }
  rewrite <- (Hvt (time self + 1)%Z self). fold s1.
  apply (for_each_sum I v (fun cf => sum_Z (map (d cf.1) cf.2))); [|done].
  intros [clas features] s Hin Hs. cbn [fst snd].
  unfold in_range in Hrange. rewrite Forall_forall in Hrange.
  destruct (Hrange _ Hin) as [Hrow Hts]. cbn [fst snd] in Hrow, Hts.
  rewrite Forall_forall in Hts.
  pose proof (forallb_elem_of _ _ _ Hok Hin) as Hoks. cbn [snd] in Hoks.
  apply (for_each_sum I v (d clas)); [|done].
  intros item s' Hitem (G1 & G2 & G3).
  pose proof (forallb_elem_of _ _ _ Hoks Hitem) as Hoki.
  destruct (update_feature_step s' clas item G1) as (R1 & R2 & R3 & _ & _).
  { by rewrite G2. }
  { rewrite G3. by apply Hts. }
  rewrite Hoki in R1. split; [done|]. split.
  - destruct R3 as (C1 & C2 & _). split; [done|]. split; congruence.
  - apply Hstep; try done; [by rewrite G2|]. rewrite G3. by apply Hts.
Qed.



Lemma update_in_range_result_witness :
  wf (init 10 2) ∧
  in_range (nr_class (init 10 2)) (nr_templates (init 10 2))
           [(9, [((1, 5%N), 1%Z); ((0, 0%N), 2%Z)])] ∧
  (update [(9, [((1, 5%N), 1%Z); ((0, 0%N), 2%Z)])] (init 10 2)).1 =
    Raise AssertionError.
Proof.
  assert (wf (init 10 2)) as Hwf by apply init_wf.
  assert (in_range (nr_class (init 10 2)) (nr_templates (init 10 2))
                   [(9, [((1, 5%N), 1%Z); ((0, 0%N), 2%Z)])]) as Hrange.
  { repeat first [apply Forall_nil_2 | apply Forall_cons_2 | split
                 | (vm_compute; lia)]. }
  split; [exact Hwf|]. split; [exact Hrange|].
  exact (proj1 (update_in_range_result (init 10 2) _ Hwf Hrange)).
Defined.

(** ** The final averaging *)







(** *** Averaging the features of the model *)



Lemma averaged_none tm : averaged tm (None, None) = (None, None).
Proof. done. Qed.






(** ** Averaging over the history of updates *)

Lemma init_cells nc nt t f c :
  weight_at (init nc nt) t f c = 0%Z ∧ meta_at (init nc nt) t f c = MetaData.zero.
Proof.
  unfold weight_at, meta_at, weight_of, meta_of, feature_meta, train_feat.
  rewrite init_feature_rows. cbn. by rewrite init_lookup.
Qed.

Lemma run_updates_snoc us u s :
  run_updates (us ++ [u]) s = (update u (run_updates us s)).2.
Proof. unfold run_updates. by rewrite foldl_app. Qed.


(** ** The total count of a feature *)

Lemma sum_over_add {A} (xs : list A) (body : A → Z → option Z) (d : A → Z) total :
  (∀ x tot, x ∈ xs → body x tot = Some (tot + d x)%Z) →
  sum_over xs body total = Some (total + sum_Z (map d xs))%Z.
Proof.
  revert total. induction xs as [|x xs IH]; intros total Hbody.
  { cbn. f_equal. lia. }
  cbn [sum_over]. rewrite (Hbody x total) by apply list_elem_of_here.
  cbn [mbind option_bind]. rewrite IH.
  - unfold sum_Z. cbn [map foldr]. f_equal. lia.
  - intros y tot Hy. apply Hbody. by apply list_elem_of_further.
Qed.

Lemma sum_Z_add {A} (a b : A → Z) (l : list A) :
  sum_Z (map (fun x => (a x + b x)%Z) l) = (sum_Z (map a l) + sum_Z (map b l))%Z.
Proof. unfold sum_Z. induction l as [|x l IH]; cbn [map foldr]; lia. Qed.

Lemma sum_Z_all_zero {A} (g : A → Z) (l : list A) :
  (∀ x, In x l → g x = 0%Z) → sum_Z (map g l) = 0%Z.
Proof.
  intros Hg. rewrite (map_ext_in g (fun _ => 0%Z)) by done. apply sum_Z_zeros.
Qed.

Lemma sum_Z_indicator (Q : Prop) `{Decision Q} n x :
  x < n →
  sum_Z (map (fun c => if decide (x = c ∧ Q) then 1%Z else 0%Z) (seq 0 n)) =
    if decide Q then 1%Z else 0%Z.
Proof.
  induction n as [|n IH]; [intros; lia|]. intros Hx.
  rewrite seq_S, map_app, sum_Z_app. cbn [plus map]. unfold sum_Z at 2. cbn [foldr].
  destruct (decide (x = n)) as [->|Hne].
  - assert (sum_Z (map (fun c => if decide (n = c ∧ Q) then 1%Z else 0%Z) (seq 0 n)) = 0%Z)
      as ->.
    { apply sum_Z_all_zero.
      intros c Hc%in_seq. rewrite decide_False; [done|]. intros [-> _]. lia. }
    destruct (decide Q).
    + rewrite decide_True by done. lia.
    + rewrite decide_False by naive_solver. lia.
  - rewrite IH by lia. rewrite (decide_False (P := x = n ∧ Q)) by naive_solver. lia.
Qed.

(** The classes of the allocated rows, row by row. *)
Lemma sum_Z_rows (g : nat → Z) nr :
  sum_Z (map g (seq 0 (nr * LINE_SIZE))) =
    sum_Z (map (fun row => sum_Z (map (fun col => g (row * LINE_SIZE + col))
                                      (seq 0 LINE_SIZE)))
               (seq 0 nr)).
Proof.
  induction nr as [|nr IH]; [done|].
  rewrite Nat.mul_succ_l, seq_app, map_app, sum_Z_app, IH.
  rewrite (seq_S nr), map_app, sum_Z_app. cbn [plus map]. f_equal.
  unfold sum_Z at 2. cbn [foldr]. rewrite Z.add_0_r.
  assert (seq (nr * LINE_SIZE) LINE_SIZE =
          map (Nat.add (nr * LINE_SIZE)) (seq 0 LINE_SIZE)) as ->.
  { pose proof (fmap_add_seq (nr * LINE_SIZE) 0 LINE_SIZE) as E.
    rewrite Nat.add_0_r in E. by rewrite <- E. }
  by rewrite map_map.
Qed.

(** [get_total_count] on a feature of the model is the sum of the counts of
    its cells. *)
Lemma get_total_count_cells s t f feat :
  wf s → train_feat s t f = Some feat →
  get_total_count (mem s) feat (nr_class s) = Some (cells_count s t f).
Proof.
  intros Hwf Hfeat.
  destruct (wf_feat _ Hwf _ _ _ Hfeat) as (_ & Haddr & rows & meta & Hr & Hm & Hlen & Hmatch).
  pose proof (Forall2_length _ _ _ Hmatch) as Hlenm.
  assert (∀ row col, col < LINE_SIZE →
            meta_at s t f (row * LINE_SIZE + col) =
              default MetaData.zero (cell meta row col)) as Hcell.
  { intros row col Hcol. unfold meta_at, meta_of, feature_meta. rewrite Hfeat. cbn.
    rewrite Hm. cbn.
    destruct (class_of_cell row col Hcol) as [-> ->]. done. }
  unfold cells_count. rewrite sum_Z_rows.
  unfold get_total_count. rewrite Hm. cbn [mbind option_bind].
  rewrite (sum_over_add _ _
             (fun row => sum_Z (map (fun col => MetaData.count
                                                  (meta_at s t f (row * LINE_SIZE + col)))
                                    (seq 0 LINE_SIZE)))).
  { f_equal. }
  intros row tot Hrow%elem_of_seq.
  destruct (row_match_lookup rows meta row Hmatch) as [[_ Hmr]|(l & ml & _ & Hmr & _ & Hml)];
    [lia| |]; rewrite Hmr; cbn [mbind option_bind].
  - f_equal.
    assert (sum_Z (map (fun col => MetaData.count (meta_at s t f (row * LINE_SIZE + col)))
                       (seq 0 LINE_SIZE)) = 0%Z) as ->; [|lia].
    apply sum_Z_all_zero.
    intros col Hcol%in_seq. rewrite Hcell by lia. unfold cell. by rewrite Hmr.
  - apply sum_over_add. intros col tot' Hcol%elem_of_seq.
    destruct (lookup_lt_is_Some_2 ml col) as [md Hmd]; [lia|].
    rewrite Hmd. cbn. rewrite Hcell by lia.
    by rewrite (cell_lookup _ _ _ _ Hmr), Hmd.
Qed.

Lemma get_row_bound clas nr : get_row clas < nr → clas < nr * LINE_SIZE.
Proof.
  unfold get_row, LINE_SIZE. intros H.
  pose proof (Nat.div_mod_eq clas 7). pose proof (Nat.mod_upper_bound clas 7). lia.
Qed.

(** An update that fails no assertion adds to the count of a feature key
    the number of non-zero deltas that it gives for the key. *)
Lemma update_cells_count self updates t f :
  wf self → in_range (nr_class self) (nr_templates self) updates →
  asserts_hold updates = true →
  cells_count (update updates self).2 t f =
    (cells_count self t f + touches_of updates t f)%Z.
Proof.
  intros Hwf Hrange Hok. unfold touches_of.
  apply (update_sum self updates (fun s => cells_count s t f)
           (fun _ item => if decide (item.1 = (t, f) ∧ item.2 ≠ 0%Z) then 1%Z else 0%Z));
    try done.
  intros s clas item Hs Hrow Ht Hoki.
  destruct (update_feature_step s clas item Hs Hrow Ht) as (_ & _ & Hc & _ & R).
  destruct (R Hoki) as [_ Rm]. destruct Hc as (Hnc & _).
  unfold cells_count. rewrite Hnc.
  rewrite (map_ext _ _ (fun c => Rm t f c)), sum_Z_add. f_equal.
  apply (sum_Z_indicator (item.1 = (t, f) ∧ item.2 ≠ 0%Z)).
  by apply get_row_bound.
Qed.

(** The count of a feature key after a sequence of updates. *)
Lemma run_updates_cells_count nc nt us t f :
  Forall (in_range nc nt) us → Forall (fun u => asserts_hold u = true) us →
  wf (run_updates us (init nc nt)) ∧
  nr_class (run_updates us (init nc nt)) = nc ∧
  nr_templates (run_updates us (init nc nt)) = nt ∧
  cells_count (run_updates us (init nc nt)) t f =
    sum_Z (map (fun u => touches_of u t f) us).
Proof.
  intros Hus Hok. induction us as [|u us IH] using rev_ind.
  - split; [apply init_wf|]. split; [done|]. split; [done|].
    unfold cells_count. cbn [run_updates foldl map].
    apply sum_Z_all_zero. intros c _.
    by destruct (init_cells nc nt t f c) as [_ ->].
  - apply Forall_app in Hus as [Hus Hu]. apply Forall_inv in Hu.
    apply Forall_app in Hok as [Hok Hoku]. apply Forall_inv in Hoku.
    destruct (IH Hus Hok) as (Hwf & Hnc & Hnt & Hcount).
    rewrite run_updates_snoc.
    destruct (update_invariants (run_updates us (init nc nt)) u Hwf)
      as (_ & Hwf' & Hnc' & Hnt' & _).
    { by rewrite Hnc, Hnt. }
    split; [done|]. split; [congruence|]. split; [congruence|].
    rewrite update_cells_count; [|done|by rewrite Hnc, Hnt|done].
    rewrite Hcount, map_app, sum_Z_app. unfold sum_Z at 3. cbn [map foldr]. lia.
Qed.

(** X10: train a new model with updates in its range that fail no
    assertion.  For every feature key that the model has come to hold,
    [get_total_count] (the number that [dump] compares with [freq_thresh])
    is the number of non-zero deltas that the updates gave for the key. *)
Theorem total_count_counts_updates nc nt us t f feat :
  Forall (in_range nc nt) us → Forall (fun u => asserts_hold u = true) us →
  train_feat (run_updates us (init nc nt)) t f = Some feat →
  get_total_count (mem (run_updates us (init nc nt))) feat nc =
    Some (sum_Z (map (fun u => touches_of u t f) us)).
Proof.
  intros Hus Hok Hfeat.
  destruct (run_updates_cells_count nc nt us t f Hus Hok) as (Hwf & Hnc & _ & Hcount).
  rewrite <- Hcount.
  pose proof (get_total_count_cells _ t f feat Hwf Hfeat) as H. by rewrite Hnc in H.
Qed.

Lemma total_count_counts_updates_witness :
  let us := [[(9, [((1, 5%N), 1%Z)])]; [(3, [((1, 5%N), 2%Z); ((1, 5%N), 0%Z)])]] in
  Forall (in_range 10 2) us ∧ Forall (fun u => asserts_hold u = true) us ∧
  train_feat (run_updates us (init 10 2)) 1 5%N = Some (TrainFeat.mk 0 0) ∧
  get_total_count (mem (run_updates us (init 10 2))) (TrainFeat.mk 0 0) 10 =
    Some (sum_Z (map (fun u => touches_of u 1 5%N) us)).
Proof.
  intros us.
  assert (Forall (in_range 10 2) us) as Hus.
  { repeat first [apply Forall_nil_2 | apply Forall_cons_2 | split
                 | (vm_compute; lia)]. }
  assert (Forall (fun u => asserts_hold u = true) us) as Hok.
  { repeat first [apply Forall_nil_2 | apply Forall_cons_2 | reflexivity]. }
  assert (train_feat (run_updates us (init 10 2)) 1 5%N = Some (TrainFeat.mk 0 0))
    as Hfeat by (vm_compute; reflexivity).
  split; [exact Hus|]. split; [exact Hok|]. split; [exact Hfeat|].
  exact (total_count_counts_updates 10 2 us 1 5%N (TrainFeat.mk 0 0) Hus Hok Hfeat).
Defined.
Import Serialize.

(** ** Loading any file of lines *)

(** X11: load a file whose lines have the format of [dump] (whatever their
    frequency field and their weights, in any order, with repeated keys)
    into a new model with at least one class, the templates and rows being
    those of the model: [load] returns; a feature key is in the model when a
    line names it; each of its rows holds the weights of the last line for
    the row and is not allocated when no line names it; the model can be
    scored, and its training map stays empty. *)
Theorem load_keeps_last_lines nc nt rs :
  1 ≤ nc →
  Forall (fun r => (key_of r).1.1 < nt ∧ (key_of r).2 < get_nr_rows nc ∧
                   length (line_of r) = LINE_SIZE) rs →
  ∃ self',
    load (record_line <$> rs) 0 (init nc nt) = (Return tt, self') ∧
    scorable self' ∧ nr_class self' = nc ∧ nr_templates self' = nt ∧
    train_weights self' = replicate nt ∅ ∧
    ∀ t f,
      feature_rows self' t f =
        if has_key rs t f
        then Some ((fun row => last_line rs (t, f, row)) <$> seq 0 (get_nr_rows nc))
        else None.
Proof.
  intros Hnc Hrs.
  destruct (load_records rs (init nc nt)) as (self' & Hrun & [Hsc _] & Hc & Htw & Hfr).
  { by apply init_loadable. }
  { done. }
  exists self'. split; [done|]. split; [done|].
  destruct Hc as (Hnc' & Hnt' & _). split; [done|]. split; [done|]. split; [done|].
  intros t f. rewrite Hfr.
  rewrite (foldl_store_record_ext _ _ _ (fun _ _ => None))
    by (intros; apply init_feature_rows).
  change (nr_class (init nc nt)) with nc.
  rewrite foldl_store_record; [done|].
  eapply Forall_impl; [done|]. by intros r (_ & ? & _).
Qed.

Lemma load_keeps_last_lines_witness :
  let rs := [(3%Z, 0, 5%N, 0, [1; 0; 0; 0; 0; 0; 0]%Z);
             (0%Z, 1, 8%N, 1, [0; 0; 2; 0; 0; 0; 0]%Z);
             (3%Z, 0, 5%N, 0, [4; 0; 0; 0; 0; 0; 0]%Z)] in
  1 ≤ 10 ∧
  ∃ self',
    load (record_line <$> rs) 0 (init 10 2) = (Return tt, self') ∧
    feature_rows self' 0 5%N = Some [Some [4; 0; 0; 0; 0; 0; 0]%Z; None].
Proof.
  intros rs.
  assert (1 ≤ 10) as Hnc by lia.
  assert (Forall (fun r => (key_of r).1.1 < 2 ∧ (key_of r).2 < get_nr_rows 10 ∧
                           length (line_of r) = LINE_SIZE) rs) as Hrs.
  { repeat first [apply Forall_nil_2 | apply Forall_cons_2 | split
                 | (vm_compute; lia) | reflexivity]. }
  split; [exact Hnc|].
  destruct (load_keeps_last_lines 10 2 rs Hnc Hrs) as (self' & Hrun & _ & _ & _ & _ & Hfr).
  exists self'. split; [exact Hrun|]. exact (Hfr 0 5%N).
Defined.

(** *** The frequency threshold of [load] *)

Lemma str_Z_nonneg z : (0 ≤ z)%Z → str_Z z = str_N (Z.to_N z).
Proof. destruct z as [|p|p]; [done|done|lia]. Qed.

Lemma load_line_threshold thr tf t f row l s :
  (1 ≤ thr)%Z → (0 ≤ tf)%Z → l ≠ [] →
  load_line thr (dump_line tf t f row l) s =
    if (tf <? thr)%Z then (Return tt, s)
    else load_line 0 (dump_line tf t f row l) s.
Proof.
  intros Hthr Htf Hl.
  destruct (dump_line_tokens tf t f row l Hl) as (x1 & x2 & x3 & x4 & T0 & T1 & T2 & T3 & T4).
  assert (Z.of_N (strtoul (str_Z tf)) = tf) as Hfreq.
  { rewrite str_Z_nonneg by done. rewrite strtoul_token_N. lia. }
  unfold load_line.
  rewrite !(bind_run get _ s s s) by done.
  rewrite T0; cbn [deref]; erewrite !bind_run by reflexivity; cbv beta iota.
  rewrite T1; cbn [deref]; erewrite !bind_run by reflexivity; cbv beta iota.
  rewrite T2; cbn [deref]; erewrite !bind_run by reflexivity; cbv beta iota.
  rewrite T3; cbn [deref]; erewrite !bind_run by reflexivity; cbv beta iota.
  rewrite T4; cbn [deref]; erewrite !bind_run by reflexivity; cbv beta iota.
  rewrite Hfreq.
  destruct (Z.leb_spec 1 thr); [|lia]. cbn [andb].
  change ((1 <=? 0)%Z && _) with false. cbv iota.
  by destruct (tf <? thr)%Z.
Qed.

(** [load] with a threshold on the lines of records. *)
Lemma load_filter thr rs s :
  (1 ≤ thr)%Z →
  Forall (fun r => (0 ≤ freq_of r)%Z ∧ line_of r ≠ []) rs →
  load (record_line <$> rs) thr s =
    load (record_line <$> List.filter (fun r => (thr <=? freq_of r)%Z) rs) 0 s.
Proof.
  intros Hthr. revert s. induction rs as [|r rs IH]; intros s Hrs; [done|].
  apply Forall_cons in Hrs as [[Htf Hl] Hrs].
  destruct r as [[[[tf t] f] row] l]. cbn [freq_of line_of] in Htf, Hl.
  cbn [List.filter freq_of]. unfold load in *. rewrite fmap_cons. cbn [for_each].
  cbn [record_line]. unfold bind at 1.
  rewrite (load_line_threshold thr tf t f row l s Hthr Htf Hl).
  destruct (Z.ltb_spec tf thr) as [Hlt|Hge].
  - destruct (Z.leb_spec thr tf); [lia|]. by apply IH.
  - destruct (Z.leb_spec thr tf); [|lia]. rewrite fmap_cons. cbn [for_each record_line].
    unfold bind.
    destruct (load_line 0 (dump_line tf t f row l) s) as [[[]|e] s1]; [|done].
    by apply IH.
Qed.

(** X12: [load] with a threshold [freq_thresh >= 1] skips the lines whose
    frequency field is below the threshold and treats the other lines as
    [load] without a threshold does: on the lines of records with
    non-negative frequencies it is [load] without a threshold on the records
    at or above the threshold, whatever the model loaded into. *)
Theorem load_threshold_filters thr rs s :
  (1 ≤ thr)%Z →
  Forall (fun r => (0 ≤ freq_of r)%Z ∧ line_of r ≠ []) rs →
  load (record_line <$> rs) thr s =
    load (record_line <$> List.filter (fun r => (thr <=? freq_of r)%Z) rs) 0 s.
Proof.
  intros Hthr Hrs. revert s.
  induction Hrs as [|[[[[tf t] f] row] l] rs [Htf Hl] Hrs IH]; intros s; [done|].
  cbn [freq_of line_of] in Htf, Hl. cbn [List.filter freq_of].
  unfold load in *. rewrite fmap_cons. cbn [for_each record_line]. unfold bind at 1.
  rewrite (load_line_threshold thr tf t f row l s Hthr Htf Hl).
  destruct (Z.ltb_spec tf thr) as [Hlt|Hge].
  - (* the line is skipped *)
    destruct (Z.leb_spec thr tf); [lia|]. apply IH.
  - (* the line is loaded *)
    destruct (Z.leb_spec thr tf); [|lia]. rewrite fmap_cons. cbn [for_each record_line].
    unfold bind.
    destruct (load_line 0 (dump_line tf t f row l) s) as [[[]|e] s1]; [apply IH|done].
Qed.

Lemma load_threshold_filters_witness :
  let rs := [(1%Z, 0, 5%N, 0, [1; 0; 0; 0; 0; 0; 0]%Z);
             (2%Z, 1, 8%N, 1, [0; 0; 2; 0; 0; 0; 0]%Z)] in
  (1 ≤ 2)%Z ∧
  load (record_line <$> rs) 2 (init 10 2) =
    load [record_line (2%Z, 1, 8%N, 1, [0; 0; 2; 0; 0; 0; 0]%Z)] 0 (init 10 2).
Proof.
  intros rs.
  assert (1 ≤ 2)%Z as Hthr by lia.
  assert (Forall (fun r : record => (0 ≤ freq_of r)%Z ∧ line_of r ≠ []) rs) as Hrs.
  { repeat first [apply Forall_nil_2 | apply Forall_cons_2 | split
                 | (cbn; lia) | discriminate]. }
  split; [exact Hthr|].
  exact (load_threshold_filters 2 rs (init 10 2) Hthr Hrs).
Defined.


(** ** A loaded model has no training state *)

Lemma flat_map_nil {A B} (xs : list A) : flat_map (fun _ => @nil B) xs = [].
Proof. by induction xs. Qed.

Lemma for_each_skip_in {S A} (xs : list A) (body : A → M S unit) (s : S) :
  (∀ x, x ∈ xs → body x s = (Return tt, s)) → for_each xs body s = (Return tt, s).
Proof.
  induction xs as [|x xs IH]; intros Hbody; [done|].
  cbn [for_each]. rewrite (bind_run _ _ _ _ _ (Hbody x (list_elem_of_here _ _))).
  apply IH. intros y Hy. apply Hbody. by apply list_elem_of_further.
Qed.

Lemma empty_training_maps s thr :
  train_weights s = replicate (nr_templates s) ∅ →
  dump s thr = Some [] ∧ end_training s = (Return tt, s).
Proof.
  intros Htw. split.
  - unfold dump. rewrite <- (flat_map_nil (B := string) (seq 0 (nr_templates s))).
    apply mapM_flat. intros t Ht%elem_of_seq.
    rewrite Htw, lookup_replicate_2 by lia. cbn [mbind option_bind].
    by rewrite map_to_list_empty.
  - unfold end_training. rewrite (bind_run get _ s s s) by done.
    apply for_each_skip_in. intros t Ht%elem_of_seq.
    rewrite (bind_run get _ s s s) by done.
    rewrite Htw, lookup_replicate_2 by lia. cbn [deref].
    erewrite bind_run by reflexivity. by rewrite map_to_list_empty.
Qed.

(** X13: [load] fills the inference map only.  A model loaded from a file
    into a new model has an empty training map: [dump] on it writes no line,
    whatever the threshold, and [end_training] changes nothing. *)
Theorem loaded_model_has_no_training_state nc nt rs thr :
  1 ≤ nc →
  Forall (fun r => (key_of r).1.1 < nt ∧ (key_of r).2 < get_nr_rows nc ∧
                   length (line_of r) = LINE_SIZE) rs →
  ∃ self',
    load (record_line <$> rs) 0 (init nc nt) = (Return tt, self') ∧
    (∀ t f, is_Some (weight_addr self' t f) ↔ has_key rs t f = true) ∧
    (∀ t f, train_feat self' t f = None) ∧
    dump self' thr = Some [] ∧
    end_training self' = (Return tt, self').
Proof.
  intros Hnc Hrs.
  destruct (load_records rs (init nc nt)) as (self' & Hrun & [Hsc _] & Hc & Htw & Hfr).
  { by apply init_loadable. }
  { done. }
  destruct Hc as (Hnc' & Hnt' & _).
  assert (train_weights self' = replicate (nr_templates self') ∅) as Htw'.
  { rewrite Htw, Hnt'. done. }
  exists self'. split; [done|]. split; [|split].
  - intros t f. specialize (Hfr t f).
    rewrite (foldl_store_record_ext _ _ _ (fun _ _ => None)) in Hfr
      by (intros; apply init_feature_rows).
    rewrite foldl_store_record in Hfr
      by (eapply Forall_impl; [done|]; by intros r (_ & ? & _)).
    unfold loaded_rows in Hfr. split.
    + intros [a Ha]. destruct (has_key rs t f); [done|].
      unfold feature_rows in Hfr. rewrite Ha in Hfr. cbn in Hfr.
      destruct (sc_rows _ Hsc _ _ _ Ha) as (rows & Hrows & _). congruence.
    + intros Hk. rewrite Hk in Hfr. unfold feature_rows in Hfr.
      destruct (weight_addr self' t f); [by eexists|done].
  - intros t f. unfold train_feat. rewrite Htw'. apply init_lookup.
  - by apply empty_training_maps.
Qed.

Lemma loaded_model_has_no_training_state_witness :
  let rs := [(3%Z, 0, 5%N, 0, [1; 0; 0; 0; 0; 0; 0]%Z)] in
  1 ≤ 10 ∧
  ∃ self',
    load (record_line <$> rs) 0 (init 10 2) = (Return tt, self') ∧
    is_Some (weight_addr self' 0 5%N) ∧ dump self' 0 = Some [].
Proof.
  intros rs.
  assert (1 ≤ 10) as Hnc by lia.
  assert (Forall (fun r => (key_of r).1.1 < 2 ∧ (key_of r).2 < get_nr_rows 10 ∧
                           length (line_of r) = LINE_SIZE) rs) as Hrs.
  { repeat first [apply Forall_nil_2 | apply Forall_cons_2 | split
                 | (vm_compute; lia) | reflexivity]. }
  split; [exact Hnc|].
  destruct (loaded_model_has_no_training_state 10 2 rs 0 Hnc Hrs)
    as (self' & Hrun & Hk & _ & Hdump & _).
  exists self'. split; [exact Hrun|]. split; [|exact Hdump].
  apply Hk. reflexivity.
Defined.


(** ** Pruning when dumping and pruning when loading *)

Lemma filter_same_freq (l : list record) tf thr :
  (∀ r, r ∈ l → freq_of r = tf) →
  List.filter (fun r => (thr <=? freq_of r)%Z) l = if (thr <=? tf)%Z then l else [].
Proof.
  induction l as [|r l IH]; intros Hl.
  { by destruct (thr <=? tf)%Z. }
  cbn [List.filter]. rewrite (Hl r) by apply list_elem_of_here.
  rewrite IH by (intros r' Hr'; by apply Hl, list_elem_of_further).
  by destruct (thr <=? tf)%Z.
Qed.

Lemma feat_records_filter self thr t c :
  1 ≤ thr →
  feat_records self thr t c =
    List.filter (fun r => (Z.of_nat thr <=? freq_of r)%Z) (feat_records self 0 t c).
Proof.
  intros Hthr. destruct c as [key feat]. unfold feat_records.
  destruct (key =? 0)%N; [done|].
  destruct (get_total_count _ _ _) as [tf|]; [|done].
  destruct (Pool.weight_arrays _ !! _) as [rows|]; [|done].
  change ((1 <=? 0) && _) with false. cbv iota.
  rewrite (filter_same_freq _ tf).
  - destruct (Nat.leb_spec 1 thr); [|lia]. cbn [andb].
    destruct (Z.ltb_spec tf (Z.of_nat thr)), (Z.leb_spec (Z.of_nat thr) tf); try lia; done.
  - intros r (row & _ & Hr)%elem_of_flat_map. unfold row_records in Hr.
    destruct (rows !! row) as [[l|]|]; [|by apply elem_of_nil in Hr..].
    destruct (nonzero_row l); [|by apply elem_of_nil in Hr].
    by apply list_elem_of_singleton in Hr as ->.
Qed.

(** The records of a dump with a threshold are the records of the dump
    without a threshold whose frequency reaches the threshold. *)
Lemma records_filter self thr :
  1 ≤ thr →
  records self thr =
    List.filter (fun r => (Z.of_nat thr <=? freq_of r)%Z) (records self 0).
Proof.
  intros Hthr. unfold records. rewrite filter_flat_map.
  apply flat_map_ext_in. intros t _.
  destruct (train_weights self !! t) as [map_|]; [|done].
  rewrite filter_flat_map. apply flat_map_ext_in. intros c _.
  by apply feat_records_filter.
Qed.

Lemma sum_Z_nonneg {A} (g : A → Z) (l : list A) :
  (∀ x, (0 ≤ g x)%Z) → (0 ≤ sum_Z (map g l))%Z.
Proof.
  intros Hg. unfold sum_Z. induction l as [|x l IH]; cbn [map foldr]; [lia|].
  specialize (Hg x). lia.
Qed.

Lemma touches_of_nonneg u t f : (0 ≤ touches_of u t f)%Z.
Proof.
  unfold touches_of. apply sum_Z_nonneg. intros cf. apply sum_Z_nonneg.
  intros item. destruct (decide _); lia.
Qed.

(** X14: a model trained from new by updates in its range that fail no
    assertion can be pruned when it is dumped or when the dump is loaded:
    [dump] with a threshold [freq_thresh >= 1] followed by [load] without a
    threshold does to any model what [dump] without a threshold followed by
    [load] with that threshold does. *)
Theorem prune_at_dump_or_at_load nc nt us thr s :
  Forall (in_range nc nt) us → Forall (fun u => asserts_hold u = true) us →
  1 ≤ thr →
  ∃ lines0 lines1,
    dump (run_updates us (init nc nt)) 0 = Some lines0 ∧
    dump (run_updates us (init nc nt)) thr = Some lines1 ∧
    load lines0 (Z.of_nat thr) s = load lines1 0 s.
Proof.
  intros Hus Hok Hthr.
  destruct (run_updates_cells_count nc nt us 0 0%N Hus Hok) as (Hwf & Hnc & _ & _).
  exists (record_line <$> records (run_updates us (init nc nt)) 0),
         (record_line <$> records (run_updates us (init nc nt)) thr).
  split; [by apply dump_spec|]. split; [by apply dump_spec|].
  rewrite load_filter; [by rewrite <- records_filter|lia|].
  apply Forall_forall. intros [[[[tf t] f] row] l] Hin.
  apply elem_of_records in Hin
      as (feat & rows & _ & _ & Hfeat & Htf & _ & _ & _ & _ & Hnz); [|done].
  cbn [freq_of line_of]. split; [|by apply nonzero_row_nonempty].
  destruct (run_updates_cells_count nc nt us t f Hus Hok) as (_ & _ & _ & Hcount).
  rewrite (get_total_count_cells _ t f feat Hwf Hfeat) in Htf. injection Htf as <-.
  rewrite Hcount. apply sum_Z_nonneg. intros u. apply touches_of_nonneg.
Qed.

Lemma prune_at_dump_or_at_load_witness :
  let us := [[(9, [((1, 5%N), 1%Z)]); (3, [((0, 7%N), 2%Z)])]; [(3, [((1, 5%N), 2%Z)])]] in
  Forall (in_range 10 2) us ∧ Forall (fun u => asserts_hold u = true) us ∧ 1 ≤ 2 ∧
  ∃ lines0 lines1,
    dump (run_updates us (init 10 2)) 0 = Some lines0 ∧
    dump (run_updates us (init 10 2)) 2 = Some lines1 ∧
    load lines0 2 (init 10 2) = load lines1 0 (init 10 2).
Proof.
  intros us.
  assert (Forall (in_range 10 2) us) as Hus.
  { repeat first [apply Forall_nil_2 | apply Forall_cons_2 | split
                 | (vm_compute; lia)]. }
  assert (Forall (fun u => asserts_hold u = true) us) as Hok.
  { repeat first [apply Forall_nil_2 | apply Forall_cons_2 | reflexivity]. }
  assert (1 ≤ 2) as Hthr by lia.
  split; [exact Hus|]. split; [exact Hok|]. split; [exact Hthr|].
  exact (prune_at_dump_or_at_load 10 2 us 2 (init 10 2) Hus Hok Hthr).
Defined.
(** ** Scoring after an update, and scoring twice *)



Lemma gathered_same self self' feat_ids n :
  weights self' = weights self → mem self' = mem self →
  nr_class self' = nr_class self →
  gathered self' feat_ids n = gathered self feat_ids n.
Proof.
  intros Hw Hm Hnc. unfold gathered, feature_lines, feature_rows, weight_addr.
  by rewrite Hw, Hm, Hnc.
Qed.

(** X16: [__call__] starts from zeroed scores: the scores of a feature
    vector do not depend on the calls made before, whatever their feature
    vectors. *)
Theorem call_does_not_accumulate self py_feats py_feats' :
  scorable self →
  length py_feats ≤ nr_templates self → length py_feats' ≤ nr_templates self →
  (call py_feats (call py_feats' self).2).1 = (call py_feats self).1.
Proof.
  intros Hsc Hlen Hlen'.
  destruct (call_frame self py_feats')
    as (_ & _ & Hnc & Hnt & _ & _ & Hw & _ & Hm & Hwl & Hs).
  assert (scorable (call py_feats' self).2) as Hsc'.
  { constructor.
    - rewrite Hw, Hnt. apply Hsc.
    - rewrite Hs, Hnc. apply Hsc.
    - rewrite Hwl, Hnt, Hnc. apply Hsc.
    - intros t f a. unfold weight_addr. rewrite Hw, Hm, Hnc. apply (sc_rows _ Hsc). }
  destruct (call_spec self py_feats Hsc Hlen) as (sc & Hsco & _ & ->).
  destruct (call_spec (call py_feats' self).2 py_feats Hsc') as (sc' & Hsco' & _ & ->);
    [lia|].
  rewrite (gathered_same self) in Hsco' by done. rewrite Hnc in Hsco'. congruence.
Qed.

Lemma call_does_not_accumulate_witness :
  let m := (update [(1, [((0, 5%N), 3%Z); ((1, 8%N), 4%Z)])] (init 2 2)).2 in
  scorable m ∧ length [5%N] ≤ nr_templates m ∧ length [0%N; 8%N] ≤ nr_templates m ∧
  (call [5%N] (call [0%N; 8%N] m).2).1 = (call [5%N] m).1.
Proof.
  intros m.
  assert (scorable m) as Hsc.
  { apply wf_scorable; [|vm_compute; lia]. apply update_wf, init_wf. }
  assert (length [5%N] ≤ nr_templates m) as Hlen by (vm_compute; lia).
  assert (length [0%N; 8%N] ≤ nr_templates m) as Hlen' by (vm_compute; lia).
  split; [exact Hsc|]. split; [exact Hlen|]. split; [exact Hlen'|].
  exact (call_does_not_accumulate m [5%N] [0%N; 8%N] Hsc Hlen Hlen').
Defined.

(** ** Classes beyond [nr_class] *)





(** ** Training a loaded model *)

(** An item of [update] for a feature whose row pointers are all NULL. *)
Lemma update_feature_fresh self clas t f upd feat :
  upd ≠ 0%Z → f ≠ 0%N → t < length (train_weights self) →
  train_feat self t f = Some feat →
  Pool.weight_arrays (mem self) !! TrainFeat.weights feat =
    Some (replicate (get_nr_rows (nr_class self)) None) →
  Pool.meta_arrays (mem self) !! TrainFeat.meta feat =
    Some (replicate (get_nr_rows (nr_class self)) None) →
  get_row clas < get_nr_rows (nr_class self) →
  ∃ mem',
    update_feature clas ((t, f), upd) self = (Return tt, set_mem mem' self) ∧
    Pool.weight_arrays mem' !! TrainFeat.weights feat =
      Some (<[get_row clas := Some (<[get_col clas := upd]> (replicate LINE_SIZE 0%Z))]>
              (replicate (get_nr_rows (nr_class self)) None)).
Proof.
  intros Hupd Hf Ht Hfeat Hrows Hmeta Hrow.
  set (nr := get_nr_rows (nr_class self)) in *.
  set (row := get_row clas) in *. set (col := get_col clas).
  pose proof (get_col_lt clas) as Hcol. fold col in Hcol.
  assert (TrainFeat.weights feat < length (Pool.weight_arrays (mem self))) as Hwa
    by (by eapply lookup_lt_Some).
  assert (TrainFeat.meta feat < length (Pool.meta_arrays (mem self))) as Hma
    by (by eapply lookup_lt_Some).
  eexists. split.
  - unfold update_feature.
    destruct (Z.eqb_spec upd 0) as [|_]; [done|].
    destruct (N.eqb_spec f 0) as [|_]; [done|].
    rewrite (bind_run get _ self self self) by done.
    rewrite map_array_get_Some by done.
    change (train_weights self !! t ≫= (.!! f)) with (train_feat self t f).
    rewrite Hfeat. cbn [deref].
    erewrite bind_run by reflexivity.
    erewrite bind_run by reflexivity.
    rewrite (bind_run get _ self self self) by done.
    rewrite Hrows. cbn [deref]. erewrite bind_run by reflexivity.
    fold row. rewrite lookup_replicate_2 by done. cbn [deref].
    erewrite bind_run by reflexivity.
    erewrite bind_run; cycle 1.
    { erewrite bind_run by reflexivity.
      erewrite bind_run by reflexivity.
      erewrite bind_run; cycle 1.
      { cbn. rewrite Hmeta. reflexivity. }
      rewrite decide_True by (by rewrite length_replicate).
      erewrite bind_run by reflexivity. reflexivity. }
    erewrite update_tail; cycle 1.
    { cbn. by apply list_lookup_insert_eq. }
    { cbn. by apply list_lookup_insert_eq. }
    { apply list_lookup_insert_eq. by rewrite length_replicate. }
    { apply list_lookup_insert_eq. by rewrite length_replicate. }
    { by apply lookup_replicate_2. }
    { by apply lookup_replicate_2. }
    reflexivity.
  - cbn. rewrite !list_insert_insert_eq.
    rewrite list_lookup_insert_eq by done. fold col. by rewrite Z.add_0_l.
Qed.

Lemma new_feat_run self t f ws tws :
  map_array_set (weights self) t f (length (Pool.weight_arrays (mem self))) = Some ws →
  map_array_set (train_weights self) t f
    (TrainFeat.mk (length (Pool.weight_arrays (mem self)))
                  (length (Pool.meta_arrays (mem self)))) = Some tws →
  new_feat t f self =
    (Return (TrainFeat.mk (length (Pool.weight_arrays (mem self)))
                          (length (Pool.meta_arrays (mem self)))),
     set_train_weights tws
       (set_weights ws (set_mem (new_train_feat (mem self) (nr_class self)).2 self))).
Proof.
  intros Hws Htws. unfold new_feat, bind, get, modify, deref, ret. cbn.
  rewrite Hws. cbn. rewrite Htws. cbn. reflexivity.
Qed.

(** X17: training does not resume from a loaded model.  [load] leaves the
    training map empty, so the first non-zero delta for a feature key of a
    loaded model makes [update] create the feature anew: whatever rows the
    file gave the key, afterwards the key has one row, all zeros but the
    delta at the class of the update. *)
Theorem update_after_load_starts_from_zero nc nt rs clas t f upd :
  1 ≤ nc →
  Forall (fun r => (key_of r).1.1 < nt ∧ (key_of r).2 < get_nr_rows nc ∧
                   length (line_of r) = LINE_SIZE) rs →
  t < nt → f ≠ 0%N → upd ≠ 0%Z → get_row clas < get_nr_rows nc →
  ∃ loaded self',
    load (record_line <$> rs) 0 (init nc nt) = (Return tt, loaded) ∧
    feature_rows loaded t f = loaded_rows (get_nr_rows nc) rs t f ∧
    update [(clas, [((t, f), upd)])] loaded = (Return tt, self') ∧
    feature_rows self' t f =
      Some (<[get_row clas := Some (<[get_col clas := upd]> (replicate LINE_SIZE 0%Z))]>
              (replicate (get_nr_rows nc) None)).
Proof.
  intros Hnc Hrs Ht Hf Hupd Hrow.
  destruct (load_records rs (init nc nt)) as (s & Hrun & [Hsc _] & Hc & Htw & Hfr).
  { by apply init_loadable. }
  { done. }
  destruct Hc as (Hnc' & Hnt' & _). cbn in Hnc', Hnt', Htw.
  exists s.
  set (s0 := set_time (time s + 1)%Z s).
  assert (t < length (weights s0)) as Htw0.
  { change (weights s0) with (weights s). rewrite (sc_weights_len _ Hsc). lia. }
  assert (t < length (train_weights s0)) as Htt0.
  { change (train_weights s0) with (train_weights s). rewrite Htw, length_replicate. lia. }
  assert (train_feat s0 t f = None) as Hnone.
  { unfold train_feat. change (train_weights s0) with (train_weights s).
    rewrite Htw. apply init_lookup. }
  destruct (map_array_set_Some (weights s0) t f (length (Pool.weight_arrays (mem s0))) Htw0)
    as (ws & Hws & Hwl & Hwlook).
  destruct (map_array_set_Some (train_weights s0) t f
              (TrainFeat.mk (length (Pool.weight_arrays (mem s0)))
                            (length (Pool.meta_arrays (mem s0)))) Htt0)
    as (tws & Htws & Htl & Htlook).
  set (feat := TrainFeat.mk (length (Pool.weight_arrays (mem s0)))
                            (length (Pool.meta_arrays (mem s0)))) in *.
  set (s1 := set_train_weights tws
               (set_weights ws (set_mem (new_train_feat (mem s0) (nr_class s0)).2 s0))).
  assert (new_feat t f s0 = (Return feat, s1)) as Hnew.
  { by apply new_feat_run. }
  assert (train_feat s1 t f = Some feat) as Hfeat1.
  { unfold train_feat. change (train_weights s1) with tws.
    rewrite Htlook. by rewrite decide_True. }
  assert (weight_addr s1 t f = Some (TrainFeat.weights feat)) as Haddr1.
  { unfold weight_addr. change (weights s1) with ws.
    rewrite Hwlook. by rewrite decide_True. }
  destruct (update_feature_fresh s1 clas t f upd feat) as (mem' & Hrun1 & Hrows1);
    try done.
  { change (train_weights s1) with tws. by rewrite Htl. }
  { cbn. by apply list_lookup_middle. }
  { cbn. by apply list_lookup_middle. }
  { change (nr_class s1) with (nr_class s). by rewrite Hnc'. }
  exists (set_mem mem' s1). split; [done|]. split.
  { rewrite Hfr.
    rewrite (foldl_store_record_ext _ _ _ (fun _ _ => None))
      by (intros; apply init_feature_rows).
    apply foldl_store_record.
    eapply Forall_impl; [done|]. by intros r (_ & ? & _). }
  split.
  - assert (update_feature clas ((t, f), upd) s0 = (Return tt, set_mem mem' s1)) as Hitem.
    { rewrite (update_feature_unknown s0 clas t f upd feat s1); try done.
      change (train_weights s1) with tws. by rewrite Htl. }
    unfold update. rewrite (bind_run _ _ s tt s0) by done.
    cbn [for_each].
    erewrite bind_run; cycle 1.
    { erewrite bind_run by exact Hitem. reflexivity. }
    reflexivity.
  - unfold feature_rows. rewrite weight_addr_set_mem, Haddr1. cbn [mbind option_bind].
    change (mem (set_mem mem' s1)) with mem'. rewrite Hrows1.
    change (nr_class s1) with (nr_class s). by rewrite Hnc'.
Qed.

Lemma update_after_load_starts_from_zero_witness :
  let rs := [(3%Z, 0, 5%N, 0, [4; 0; 0; 0; 0; 0; 0]%Z);
             (3%Z, 0, 5%N, 1, [0; 0; 6; 0; 0; 0; 0]%Z)] in
  1 ≤ 10 ∧ 0 < 2 ∧ 5%N ≠ 0%N ∧ 1%Z ≠ 0%Z ∧ get_row 0 < get_nr_rows 10 ∧
  ∃ loaded self',
    load (record_line <$> rs) 0 (init 10 2) = (Return tt, loaded) ∧
    feature_rows loaded 0 5%N =
      Some [Some [4; 0; 0; 0; 0; 0; 0]%Z; Some [0; 0; 6; 0; 0; 0; 0]%Z] ∧
    update [(0, [((0, 5%N), 1%Z)])] loaded = (Return tt, self') ∧
    feature_rows self' 0 5%N = Some [Some [1; 0; 0; 0; 0; 0; 0]%Z; None].
Proof.
  intros rs.
  assert (1 ≤ 10) as Hnc by lia.
  assert (Forall (fun r => (key_of r).1.1 < 2 ∧ (key_of r).2 < get_nr_rows 10 ∧
                           length (line_of r) = LINE_SIZE) rs) as Hrs.
  { repeat first [apply Forall_nil_2 | apply Forall_cons_2 | split
                 | (vm_compute; lia) | reflexivity]. }
  assert (0 < 2) as Ht by lia.
  assert (5%N ≠ 0%N) as Hf by discriminate.
  assert (1%Z ≠ 0%Z) as Hupd by discriminate.
  assert (get_row 0 < get_nr_rows 10) as Hrow by (vm_compute; lia).
  split; [exact Hnc|]. split; [exact Ht|]. split; [exact Hf|].
  split; [exact Hupd|]. split; [exact Hrow|].
  exact (update_after_load_starts_from_zero 10 2 rs 0 0 5%N 1%Z Hnc Hrs Ht Hf Hupd Hrow).
Defined.
